(** * ZenML service lifecycle and model-deployer registry

    A shallow embedding of [zenml/services/service.py] (the decorator
    [update_service_status], [BaseService.update_status],
    [poll_service_status], [start], [stop]) and of
    [zenml/model_deployers/base_model_deployer.py] ([deploy_model],
    [find_model_server], [stop_model_server], [start_model_server],
    [delete_model_server]).

    Python objects that are mutated in place are threaded explicitly: a
    method of a service runs in a state made of the service object itself
    and of the environment; an exception leaves both as they were when
    it was raised.  Every call to a collaborator (the probe, the
    provisioning pair, the [perform_*] operations of a concrete deployer,
    the store client, [time.sleep]) is recorded in a trace, so that "is
    called exactly once" is a statement about that trace. *)

From Stdlib Require Import List String Ascii ZArith NArith Bool Lia.
Import ListNotations.
Local Open Scope list_scope.
Local Open Scope string_scope.

Set Implicit Arguments.

(* ------------------------------------------------------------------ *)
(** ** Exceptions and results *)

Inductive ExcClass : Type :=
| RuntimeError
| IndexError
| ValueError
| KeyError
| NotImplementedError
| ValidationError
| OtherException (cls : string).

(** An exception object: its class, [str(e)] and [e.__cause__] (set by
    [raise ... from e]).  Only subclasses of [Exception] are modelled. *)
Inductive PyExc : Type :=
| Exc (cls : ExcClass) (msg : string)
| ExcFrom (cls : ExcClass) (msg : string) (cause : PyExc).

Definition exc_class (e : PyExc) : ExcClass :=
  match e with Exc c _ | ExcFrom c _ _ => c end.

(** [str(e)] *)
Definition str_exc (e : PyExc) : string :=
  match e with Exc _ m | ExcFrom _ m _ => m end.

(** [e.__cause__] *)
Definition exc_cause (e : PyExc) : option PyExc :=
  match e with Exc _ _ => None | ExcFrom _ _ c => Some c end.

Definition is_KeyError (e : PyExc) : bool :=
  match exc_class e with KeyError => true | _ => false end.

Inductive Result (A : Type) : Type :=
| Ok (a : A)
| Raise (e : PyExc).
Arguments Ok {A} a.
Arguments Raise {A} e.

(** [needle in hay] for Python strings. *)
Definition contains (needle hay : string) : Prop :=
  exists pre post, hay = pre ++ needle ++ post.

(* ------------------------------------------------------------------ *)
(** ** A state-and-exception monad *)

Definition SE (St A : Type) : Type := St -> Result A * St.

Definition ret {St A} (a : A) : SE St A := fun st => (Ok a, st).

Definition bind {St A B} (m : SE St A) (k : A -> SE St B) : SE St B :=
  fun st =>
    match m st with
    | (Ok a, st') => k a st'
    | (Raise e, st') => (Raise e, st')
    end.

Definition raise {St A} (e : PyExc) : SE St A := fun st => (Raise e, st).

(** [try: m except Exception as e: h e] *)
Definition try_except {St A} (m : SE St A) (h : PyExc -> SE St A) : SE St A :=
  fun st =>
    match m st with
    | (Ok a, st') => (Ok a, st')
    | (Raise e, st') => h e st'
    end.

Definition modify {St} (f : St -> St) : SE St unit := fun st => (Ok tt, f st).

Declare Scope se_scope.
Delimit Scope se_scope with se.
Notation "x <- m ;; k" := (bind m (fun x => k))
  (at level 61, m at next level, right associativity) : se_scope.
Notation "m ;; k" := (bind m (fun _ => k))
  (at level 61, right associativity) : se_scope.
Local Open Scope se_scope.

(* ------------------------------------------------------------------ *)
(** ** Data model *)

(** Modelled from the spec: the enumeration [ServiceState] is declared in
    [service_status.py], which is missing.  Its members are the ones
    [service.py] names ([INACTIVE], [RUNNING], [INITIALIZING],
    [TERMINATING], [FAILED]) and [ERROR], which the specification lists;
    a member is truthy. *)
Inductive ServiceState : Type :=
| INACTIVE | RUNNING | INITIALIZING | TERMINATING | FAILED | ERROR.

Definition ServiceState_eqb (a b : ServiceState) : bool :=
  match a, b with
  | INACTIVE, INACTIVE | RUNNING, RUNNING | INITIALIZING, INITIALIZING
  | TERMINATING, TERMINATING | FAILED, FAILED | ERROR, ERROR => true
  | _, _ => false
  end.

(** A UUID is a 128-bit number. *)
Definition UUID : Type := N.

Definition hex_digit (n : N) : ascii :=
  nth (N.to_nat n)
      ["0"; "1"; "2"; "3"; "4"; "5"; "6"; "7";
       "8"; "9"; "a"; "b"; "c"; "d"; "e"; "f"]%char "0"%char.

Fixpoint hex_digits (k : nat) (n : N) (acc : string) : string :=
  match k with
  | O => acc
  | S k' => hex_digits k' (N.div n 16) (String (hex_digit (N.modulo n 16)) acc)
  end.

(** [str(uuid)]: 32 hexadecimal digits grouped 8-4-4-4-12. *)
Definition str_uuid (u : UUID) : string :=
  let h := hex_digits 32 u "" in
  substring 0 8 h ++ "-" ++ substring 8 4 h ++ "-" ++ substring 12 4 h
    ++ "-" ++ substring 16 4 h ++ "-" ++ substring 20 12 h.

(** Modelled from the spec: [ServiceType] is declared in
    [service_type.py], which is missing; it is the static descriptor
    [{name, type, flavor, description}]. *)
Record ServiceType : Type := {
  st_name : string;
  st_type : string;
  st_flavor : string;
  st_description : string
}.

(** [ServiceConfig] *)
Record ServiceConfig : Type := {
  name : string;
  description : string;
  pipeline_name : string;
  pipeline_step_name : string;
  run_name : string;
  model_name : string;
  model_version : string
}.

Definition set_name (c : ServiceConfig) (n : string) : ServiceConfig :=
  {| name := n; description := description c;
     pipeline_name := pipeline_name c;
     pipeline_step_name := pipeline_step_name c;
     run_name := run_name c; model_name := model_name c;
     model_version := model_version c |}.

(** The part of a configuration that identifies a deployment. *)
Definition identity_of (c : ServiceConfig)
  : string * string * string * string * string :=
  (pipeline_name c, run_name c, pipeline_step_name c, model_name c,
   model_version c).

(** Modelled from the spec: [ServiceStatus] is declared in
    [service_status.py], which is missing; it is [{state, last_error}]. *)
Record ServiceStatus : Type := {
  state : ServiceState;
  last_error : string
}.

(** Modelled from the spec: [ServiceStatus.update_state] is defined in
    [service_status.py], which is missing; the specification says it
    "overwrites [state] and [last_error] atomically as a single
    observable step", that there is no partial-update path and that no
    transition is ever rejected. *)
Definition update_state (_ : ServiceStatus) (new_state : ServiceState)
    (error : string) : ServiceStatus :=
  {| state := new_state; last_error := error |}.

Definition ServiceStatus_eqb (a b : ServiceStatus) : bool :=
  ServiceState_eqb (state a) (state b)
  && String.eqb (last_error a) (last_error b).

(** Python truthiness of an optional string: [None] and [""] are false. *)
Definition truthy (s : option string) : bool :=
  match s with
  | Some x => negb (String.eqb x "")
  | None => false
  end.

Section DataModel.

(** [BaseServiceEndpoint] is declared in [service_endpoint.py], which is
    missing: the endpoint is an opaque object, and what it does is given
    by the backend. *)
Variable Endpoint : Type.

Record Service : Type := {
  uuid : UUID;
  admin_state : ServiceState;
  config : ServiceConfig;
  status : ServiceStatus;
  endpoint : option Endpoint;
  (** the ["type"] entry of [self.dict()]: the source path of the class *)
  service_source : string
}.

Definition set_status (s : Service) (x : ServiceStatus) : Service :=
  {| uuid := uuid s; admin_state := admin_state s; config := config s;
     status := x; endpoint := endpoint s;
     service_source := service_source s |}.

Definition set_admin_state (s : Service) (x : ServiceState) : Service :=
  {| uuid := uuid s; admin_state := x; config := config s;
     status := status s; endpoint := endpoint s;
     service_source := service_source s |}.

Definition set_config (s : Service) (x : ServiceConfig) : Service :=
  {| uuid := uuid s; admin_state := admin_state s; config := x;
     status := status s; endpoint := endpoint s;
     service_source := service_source s |}.

Definition set_endpoint (s : Service) (x : option Endpoint) : Service :=
  {| uuid := uuid s; admin_state := admin_state s; config := config s;
     status := status s; endpoint := x;
     service_source := service_source s |}.

(** Modelled from the spec: [ServiceResponse], the hydrated record of the
    store, is declared in [zenml/models/v2/core/service.py], which is
    missing.  Its fields are the ones [from_model] and
    [find_model_server] read, and the ones [update_service] is given.  A
    record that was created and never updated has no source, admin
    state, status or endpoint yet. *)
Record ServiceResponse : Type := {
  resp_id : UUID;
  resp_created : N;
  resp_service_type : ServiceType;
  resp_service_source : option string;
  resp_admin_state : option ServiceState;
  resp_config : ServiceConfig;
  resp_status : option ServiceStatus;
  resp_endpoint : option Endpoint;
  resp_model_version_id : option UUID;
  resp_prediction_url : option string;
  resp_health_check_url : option string
}.

(** Keyword arguments of [Client.list_services]. *)
Record ListServicesArgs : Type := {
  ls_sort_by : string;
  ls_id : option UUID;
  ls_running : bool;
  ls_endpoint_name_or_model_name : option string;
  ls_pipeline_name : option string;
  ls_run_name : option string;
  ls_pipeline_step_name : option string;
  ls_model_version_id : option UUID;
  ls_type : option string;
  ls_flavor : option string;
  ls_hydrate : bool
}.

(** Keyword arguments of [Client.update_service]; an argument that is
    not passed is [None]. *)
Record ServiceUpdate : Type := {
  upd_id : UUID;
  upd_name : option string;
  upd_service_source : option string;
  upd_config : option ServiceConfig;
  upd_admin_state : option ServiceState;
  upd_status : option ServiceStatus;
  upd_endpoint : option Endpoint;
  upd_prediction_url : option string;
  upd_health_check_url : option string
}.

(** Calls observed by the environment, in program order.  A call on a
    service carries the service object as it is when the call is made. *)
Inductive Event : Type :=
| EvCheckStatus (self : Service)
| EvEndpointUpdateStatus (self : Service)
| EvEndpointIsActive (self : Service)
| EvSleep
| EvProvision (self : Service)
| EvDeprovision (self : Service) (force : bool)
| EvUpdate (self : Service) (cfg : ServiceConfig)
| EvStart (self : Service) (timeout : Z)
| EvStop (self : Service) (timeout : Z) (force : bool)
| EvPerformDeploy (id : UUID) (cfg : ServiceConfig) (timeout : Z)
| EvPerformStop (svc : Service) (timeout : Z) (force : bool)
| EvPerformStart (svc : Service) (timeout : Z)
| EvPerformDelete (svc : Service) (timeout : Z) (force : bool)
| EvGetModelVersion (name : string) (version : option string)
| EvListServices (args : ListServicesArgs)
| EvCreateService (cfg : ServiceConfig) (ty : ServiceType)
                  (model_version_id : option UUID)
| EvUpdateService (upd : ServiceUpdate)
| EvDeleteService (id : UUID).

End DataModel.

Arguments EvSleep {Endpoint}.
Arguments EvPerformDeploy {Endpoint} id cfg timeout.
Arguments EvGetModelVersion {Endpoint} name version.
Arguments EvListServices {Endpoint} args.
Arguments EvCreateService {Endpoint} cfg ty model_version_id.
Arguments EvDeleteService {Endpoint} id.

(* ------------------------------------------------------------------ *)
(** ** Collaborators *)

(** What a concrete service class and a concrete deployer supply, over a
    world [W] of external resources.  A method that may mutate [self]
    returns the mutated object, also when it raises. *)
Class Backend (W Endpoint : Type) : Type := {
  (** [BaseService.check_status] (abstract): a query on the resource *)
  check_status : Service Endpoint -> W -> Result (ServiceState * string) * W;
  (** [BaseServiceEndpoint.update_status] *)
  endpoint_update_status : Endpoint -> W -> Result unit * Endpoint * W;
  (** [BaseServiceEndpoint.is_active] *)
  endpoint_is_active : Endpoint -> W -> Result bool * Endpoint * W;
  (** [endpoint.status.uri if endpoint.status else None] *)
  endpoint_status_uri : Endpoint -> option string;
  (** the health-check URI of an endpoint with an HTTP health monitor *)
  endpoint_healthcheck_uri : Endpoint -> option string;
  (** [BaseService.provision] / [deprovision], as overridden *)
  provision : Service Endpoint -> W -> Result unit * Service Endpoint * W;
  deprovision :
    Service Endpoint -> bool -> W -> Result unit * Service Endpoint * W;
  (** [isinstance(self, BaseDeploymentService)] and its [prediction_url] *)
  is_deployment_service : Service Endpoint -> bool;
  prediction_url : Service Endpoint -> option string;
  (** [time.sleep(1)] *)
  sleep : W -> W;
  (** [source_utils.load_and_validate_class]: the [__name__] of the class
      a source path resolves to, or an error *)
  load_and_validate_class : string -> Result string;
  (** the abstract operations of [BaseModelDeployer] *)
  perform_deploy_model :
    UUID -> ServiceConfig -> Z -> W -> Result (Service Endpoint) * W;
  perform_stop_model :
    Service Endpoint -> Z -> bool -> W -> Result (Service Endpoint) * W;
  perform_start_model :
    Service Endpoint -> Z -> W -> Result (Service Endpoint) * W;
  perform_delete_model :
    Service Endpoint -> Z -> bool -> W -> Result unit * Service Endpoint * W
}.

(** The store client ([zenml.client.Client]), over a store state [S]. *)
Class StoreClient (S Endpoint : Type) : Type := {
  list_services :
    ListServicesArgs -> S -> Result (list (ServiceResponse Endpoint)) * S;
  create_service :
    ServiceConfig -> ServiceType -> option UUID -> S ->
    Result (ServiceResponse Endpoint) * S;
  update_service : ServiceUpdate Endpoint -> S -> Result unit * S;
  delete_service : UUID -> S -> Result unit * S;
  (** [get_model_version(name, version).id]; [KeyError] when absent *)
  get_model_version : string -> option string -> S -> Result UUID * S
}.

(** The environment of a run: the external world, the store, and the
    trace of calls made so far. *)
Record Env (W S Endpoint : Type) : Type := {
  world : W;
  store : S;
  trace : list (Event Endpoint)
}.

Section EnvOps.
Context {W S Endpoint : Type}.

Definition set_world (g : Env W S Endpoint) (w : W) : Env W S Endpoint :=
  {| world := w; store := store g; trace := trace g |}.

Definition set_store (g : Env W S Endpoint) (x : S) : Env W S Endpoint :=
  {| world := world g; store := x; trace := trace g |}.

Definition record_event (g : Env W S Endpoint) (e : Event Endpoint)
  : Env W S Endpoint :=
  {| world := world g; store := store g; trace := (trace g ++ [e])%list |}.
End EnvOps.


(* ------------------------------------------------------------------ *)
(** ** [zenml/services/service.py] *)

Section Lifecycle.
Context {W S Endpoint : Type} {B : Backend W Endpoint}.

(** The state a method of a service runs in: [self] and the environment. *)
Definition Self : Type := (Service Endpoint * Env W S Endpoint)%type.

Definition Method (A : Type) : Type := SE Self A.

Definition self : Method (Service Endpoint) := fun x => (Ok (fst x), x).

Definition emit (e : Event Endpoint) : Method unit :=
  modify (fun x : Self => (fst x, record_event (snd x) e)).

(** [self.status.update_state(new_state, error)] *)
Definition status_update_state (new_state : ServiceState) (error : string)
  : Method unit :=
  modify (fun x : Self =>
            (set_status (fst x) (update_state (status (fst x)) new_state error),
             snd x)).

(** [self.check_status()] *)
Definition call_check_status : Method (ServiceState * string) :=
  fun x =>
    let g := record_event (snd x) (EvCheckStatus (fst x)) in
    let '(r, w) := check_status (fst x) (world g) in
    (r, (fst x, set_world g w)).

(** [self.endpoint.update_status()] *)
Definition call_endpoint_update_status (ep : Endpoint) : Method unit :=
  fun x =>
    let g := record_event (snd x) (EvEndpointUpdateStatus (fst x)) in
    let '(r, ep', w) := endpoint_update_status ep (world g) in
    (r, (set_endpoint (fst x) (Some ep'), set_world g w)).

(** [self.endpoint.is_active()] *)
Definition call_endpoint_is_active (ep : Endpoint) : Method bool :=
  fun x =>
    let g := record_event (snd x) (EvEndpointIsActive (fst x)) in
    let '(r, ep', w) := endpoint_is_active ep (world g) in
    (r, (set_endpoint (fst x) (Some ep'), set_world g w)).

(** [self.provision()] *)
Definition call_provision : Method unit :=
  fun x =>
    let g := record_event (snd x) (EvProvision (fst x)) in
    let '(r, s', w) := provision (fst x) (world g) in
    (r, (s', set_world g w)).

(** [self.deprovision(force)] *)
Definition call_deprovision (force : bool) : Method unit :=
  fun x =>
    let g := record_event (snd x) (EvDeprovision (fst x) force) in
    let '(r, s', w) := deprovision (fst x) force (world g) in
    (r, (s', set_world g w)).

(** [time.sleep(1)] *)
Definition call_sleep : Method unit :=
  fun x =>
    let g := record_event (snd x) EvSleep in
    (Ok tt, (fst x, set_world g (sleep (world g)))).

(** The decorator [update_service_status(pre_status, post_status,
    error_status)] applied to a method body [func].  A member of
    [ServiceState] is truthy, so [if pre_status:] tests for [None]. *)
Definition update_service_status {A} (pre_status post_status : option ServiceState)
    (error_status : ServiceState) (func : Method A) : Method A :=
  match pre_status with
  | Some p => status_update_state p ""
  | None => ret tt
  end ;;
  try_except
    (result <- func ;;
     match post_status with
     | Some p => status_update_state p ""
     | None => ret tt
     end ;;
     ret result)
    (fun e =>
       status_update_state error_status (str_exc e) ;;
       raise e).

(** [BaseService.update_status] *)
Definition update_status : Method unit :=
  try_except
    (r <- call_check_status ;;
     status_update_state (fst r) (snd r) ;;
     s <- self ;;
     if ServiceState_eqb (state (status s)) INACTIVE then ret tt
     else
       match endpoint s with
       | Some ep => call_endpoint_update_status ep
       | None => ret tt
       end)
    (fun e => status_update_state FAILED (str_exc e)).

(** [BaseService.is_running] *)
Definition is_running : Method bool :=
  update_status ;;
  s <- self ;;
  if ServiceState_eqb (state (status s)) RUNNING then
    match endpoint s with
    | None => ret true
    | Some ep => call_endpoint_is_active ep
    end
  else ret false.

(** [BaseService.is_stopped] *)
Definition is_stopped : Method bool :=
  update_status ;;
  s <- self ;;
  ret (ServiceState_eqb (state (status s)) INACTIVE).

(** [BaseService.is_failed] *)
Definition is_failed : Method bool :=
  update_status ;;
  s <- self ;;
  ret (ServiceState_eqb (state (status s)) FAILED).

(** The [while True:] loop of [poll_service_status], with
    [time_remaining] sleeps left ([time_remaining <= 0] is [0]).  The
    result is [Some b] when the loop executes [return b] and [None] when
    it executes [break]. *)
Fixpoint poll_loop (time_remaining : nat) : Method (option bool) :=
  s <- self ;;
  r <- (if ServiceState_eqb (admin_state s) RUNNING then is_running
        else ret false) ;;
  if r then ret (Some true)
  else
    s <- self ;;
    t <- (if ServiceState_eqb (admin_state s) INACTIVE then is_stopped
          else ret false) ;;
    if t then ret (Some true)
    else
      f <- is_failed ;;
      if f then ret (Some false)
      else
        match time_remaining with
        | O => ret None
        | Datatypes.S n => call_sleep ;; poll_loop n
        end.

(** [BaseService.poll_service_status]; after a [break] the method logs
    when [timeout > 0] and returns [False]. *)
Definition poll_service_status (timeout : Z) : Method bool :=
  r <- poll_loop (Z.to_nat timeout) ;;
  match r with
  | Some b => ret b
  | None => ret false
  end.

(** [BaseService.update] *)
Definition update (cfg : ServiceConfig) : Method unit :=
  s <- self ;;
  emit (EvUpdate s cfg) ;;
  modify (fun x : Self => (set_config (fst x) cfg, snd x)).

(** The service object [start] hands to [provision]: the decorator has
    set the pre-state and the body has set the admin state. *)
Definition starting (s : Service Endpoint) : Service Endpoint :=
  set_admin_state
    (set_status s (update_state (status s) INITIALIZING "")) RUNNING.

(** The service object [stop] hands to [deprovision]. *)
Definition stopping (s : Service Endpoint) : Service Endpoint :=
  set_admin_state
    (set_status s (update_state (status s) TERMINATING "")) INACTIVE.

(** The body of [BaseService.start], under the decorator *)
Definition start_body (timeout : Z) : Method unit :=
  modify (fun x : Self => (set_admin_state (fst x) RUNNING, snd x)) ;;
  call_provision ;;
  if (0 <? timeout)%Z then
    _ <- poll_service_status timeout ;; ret tt
  else ret tt.

(** [BaseService.start] *)
Definition start (timeout : Z) : Method unit :=
  s <- self ;;
  emit (EvStart s timeout) ;;
  update_service_status (Some INITIALIZING) (Some RUNNING) FAILED
    (start_body timeout).

(** The body of [BaseService.stop], under the decorator *)
Definition stop_body (timeout : Z) (force : bool) : Method unit :=
  modify (fun x : Self => (set_admin_state (fst x) INACTIVE, snd x)) ;;
  call_deprovision force ;;
  if (0 <? timeout)%Z then
    _ <- poll_service_status timeout ;;
    _ <- is_stopped ;;
    ret tt
  else ret tt.

(** [BaseService.stop] *)
Definition stop (timeout : Z) (force : bool) : Method unit :=
  s <- self ;;
  emit (EvStop s timeout force) ;;
  update_service_status (Some TERMINATING) (Some INACTIVE) FAILED
    (stop_body timeout force).

(** [BaseService.get_the_prediction_url] *)
Definition get_the_prediction_url (s : Service Endpoint) : option string :=
  if is_deployment_service s && truthy (prediction_url s)
  then prediction_url s
  else
    match endpoint s with
    | Some ep => endpoint_status_uri ep
    | None => None
    end.

(** [BaseService.get_the_healthcheck_url] *)
Definition get_the_healthcheck_url (s : Service Endpoint) : option string :=
  match endpoint s with
  | Some ep => endpoint_healthcheck_uri ep
  | None => None
  end.

(** [BaseService.from_model]: the class is resolved from the stored
    source, then constructed from the stored fields; the fields [status]
    and [admin_state] of the model do not accept [None], and
    [BaseService.__init__] defaults an empty [config.name] to the name of
    the class. *)
Definition from_model (model : ServiceResponse Endpoint)
  : Result (Service Endpoint) :=
  if truthy (resp_service_source model) then
    match resp_service_source model with
    | None => Raise (Exc ValueError "Service source not found in the model.")
    | Some src =>
        match load_and_validate_class src with
        | Raise e => Raise e
        | Ok class_name =>
            match resp_admin_state model, resp_status model with
            | Some a, Some st =>
                let cfg := resp_config model in
                Ok {| uuid := resp_id model;
                      admin_state := a;
                      config := if String.eqb (name cfg) ""
                                then set_name cfg class_name else cfg;
                      status := st;
                      endpoint := resp_endpoint model;
                      service_source := src |}
            | _, _ =>
                Raise (Exc ValidationError "none is not an allowed value")
            end
        end
    end
  else Raise (Exc ValueError "Service source not found in the model.").

End Lifecycle.


(* ------------------------------------------------------------------ *)
(** ** [zenml/model_deployers/base_model_deployer.py] *)

(** Keyword arguments of [find_model_server]. *)
Record FindArgs : Type := {
  f_running : bool;
  f_service_uuid : option UUID;
  f_pipeline_name : option string;
  f_run_name : option string;
  f_pipeline_step_name : option string;
  f_endpoint_name_or_model_name : option string;
  f_model_name : option string;
  f_model_version : option string;
  f_service_type : option ServiceType;
  f_type : option string;
  f_flavor : option string
}.

(** The defaults of [find_model_server] with [service_uuid=uuid]. *)
Definition find_by_uuid (u : UUID) : FindArgs :=
  {| f_running := false; f_service_uuid := Some u;
     f_pipeline_name := None; f_run_name := None;
     f_pipeline_step_name := None;
     f_endpoint_name_or_model_name := None;
     f_model_name := None; f_model_version := None;
     f_service_type := None; f_type := None; f_flavor := None |}.

(** The lookup [deploy_model] makes for a configuration. *)
Definition find_by_identity (cfg : ServiceConfig) (ty : ServiceType)
  : FindArgs :=
  {| f_running := false; f_service_uuid := None;
     f_pipeline_name := Some (pipeline_name cfg);
     f_run_name := Some (run_name cfg);
     f_pipeline_step_name := Some (pipeline_step_name cfg);
     f_endpoint_name_or_model_name := None;
     f_model_name := Some (model_name cfg);
     f_model_version := Some (model_version cfg);
     f_service_type := Some ty; f_type := None; f_flavor := None |}.

(** [x or y if service_type else None], which Python reads as
    [(x or y) if service_type else None]. *)
Definition or_if_service_type (x : option string)
    (service_type : option ServiceType) (y : ServiceType -> string)
  : option string :=
  match service_type with
  | Some ty =>
      Some (match x with
            | Some v => if String.eqb v "" then y ty else v
            | None => y ty
            end)
  | None => None
  end.

Section Deployer.
Context {W S Endpoint : Type}.
Context {B : Backend W Endpoint} {C : StoreClient S Endpoint}.

Definition Deployer (A : Type) : Type := SE (Env W S Endpoint) A.

(** A method call [service.m(...)] made by the deployer.  When the call
    raises, the deployer does not keep the object. *)
Definition on_service {A} (m : Method A) (s : Service Endpoint)
  : Deployer (A * Service Endpoint) :=
  fun g =>
    match m (s, g) with
    | (Ok a, (s', g')) => (Ok (a, s'), g')
    | (Raise e, (_, g')) => (Raise e, g')
    end.

Definition lift_result {A} (r : Result A) : Deployer A := fun g => (r, g).

Definition client_list_services (args : ListServicesArgs)
  : Deployer (list (ServiceResponse Endpoint)) :=
  fun g =>
    let g1 := record_event g (EvListServices args) in
    let '(r, st) := list_services args (store g1) in
    (r, set_store g1 st).

Definition client_create_service (cfg : ServiceConfig) (ty : ServiceType)
    (mv : option UUID) : Deployer (ServiceResponse Endpoint) :=
  fun g =>
    let g1 := record_event g (EvCreateService cfg ty mv) in
    let '(r, st) := create_service cfg ty mv (store g1) in
    (r, set_store g1 st).

Definition client_update_service (upd : ServiceUpdate Endpoint)
  : Deployer unit :=
  fun g =>
    let g1 := record_event g (EvUpdateService upd) in
    let '(r, st) := update_service upd (store g1) in
    (r, set_store g1 st).

Definition client_delete_service (id : UUID) : Deployer unit :=
  fun g =>
    let g1 := record_event g (EvDeleteService id) in
    let '(r, st) := delete_service id (store g1) in
    (r, set_store g1 st).

Definition client_get_model_version (n : string) (v : option string)
  : Deployer UUID :=
  fun g =>
    let g1 := record_event g (EvGetModelVersion n v) in
    let '(r, st) := get_model_version n v (store g1) in
    (r, set_store g1 st).

Definition call_perform_deploy_model (id : UUID) (cfg : ServiceConfig)
    (timeout : Z) : Deployer (Service Endpoint) :=
  fun g =>
    let g1 := record_event g (EvPerformDeploy id cfg timeout) in
    let '(r, w) := perform_deploy_model id cfg timeout (world g1) in
    (r, set_world g1 w).

Definition call_perform_stop_model (s : Service Endpoint) (timeout : Z)
    (force : bool) : Deployer (Service Endpoint) :=
  fun g =>
    let g1 := record_event g (EvPerformStop s timeout force) in
    let '(r, w) := perform_stop_model s timeout force (world g1) in
    (r, set_world g1 w).

Definition call_perform_start_model (s : Service Endpoint) (timeout : Z)
  : Deployer (Service Endpoint) :=
  fun g =>
    let g1 := record_event g (EvPerformStart s timeout) in
    let '(r, w) := perform_start_model s timeout (world g1) in
    (r, set_world g1 w).

(** [self.perform_delete_model(service, timeout, force)]: the service is
    passed by reference and the caller goes on with the same object. *)
Definition call_perform_delete_model (s : Service Endpoint) (timeout : Z)
    (force : bool) : Deployer (Service Endpoint) :=
  fun g =>
    let g1 := record_event g (EvPerformDelete s timeout force) in
    let '(r, s', w) := perform_delete_model s timeout force (world g1) in
    match r with
    | Ok _ => (Ok s', set_world g1 w)
    | Raise e => (Raise e, set_world g1 w)
    end.

(** [_get_model_version_id_if_exists]: only [KeyError] is absorbed. *)
Definition _get_model_version_id_if_exists (model_name model_version : option string)
  : Deployer (option UUID) :=
  match model_name with
  | Some n =>
      if String.eqb n "" then ret None
      else
        fun g =>
          match client_get_model_version n model_version g with
          | (Ok id, g') => (Ok (Some id), g')
          | (Raise e, g') =>
              if is_KeyError e then (Ok None, g') else (Raise e, g')
          end
  | None => ret None
  end.

(** The write-back of [find_model_server], [stop_model_server] and
    [start_model_server]: [config], [id], [admin_state], [status] and
    [endpoint] are passed. *)
Definition status_update_of (s : Service Endpoint) : ServiceUpdate Endpoint :=
  {| upd_id := uuid s; upd_name := None; upd_service_source := None;
     upd_config := Some (config s);
     upd_admin_state := Some (admin_state s);
     upd_status := Some (status s);
     upd_endpoint := endpoint s;
     upd_prediction_url := None; upd_health_check_url := None |}.

(** The full snapshot [deploy_model] writes. *)
Definition snapshot_of (s : Service Endpoint) : ServiceUpdate Endpoint :=
  {| upd_id := uuid s; upd_name := Some (name (config s));
     upd_service_source := Some (service_source s);
     upd_config := Some (config s);
     upd_admin_state := Some (admin_state s);
     upd_status := Some (status s);
     upd_endpoint := endpoint s;
     upd_prediction_url := get_the_prediction_url s;
     upd_health_check_url := get_the_healthcheck_url s |}.

(** [service.status.dict() != service_response.status] *)
Definition status_differs (s : Service Endpoint)
    (r : ServiceResponse Endpoint) : bool :=
  match resp_status r with
  | Some x => negb (ServiceStatus_eqb (status s) x)
  | None => true
  end.

(** One iteration of the [for] loop of [find_model_server]. *)
Definition revive_and_probe (service_response : ServiceResponse Endpoint)
  : Deployer (Service Endpoint) :=
  service <- lift_result (from_model service_response) ;;
  r <- on_service update_status service ;;
  let service := snd r in
  (if status_differs service service_response
   then client_update_service (status_update_of service)
   else ret tt) ;;
  ret service.

Fixpoint find_loop (items : list (ServiceResponse Endpoint))
  : Deployer (list (Service Endpoint)) :=
  match items with
  | [] => ret []
  | service_response :: rest =>
      service <- revive_and_probe service_response ;;
      services <- find_loop rest ;;
      ret (service :: services)
  end.

(** The arguments [find_model_server] passes to [list_services]. *)
Definition list_args_of (a : FindArgs) (model_version_id : option UUID)
  : ListServicesArgs :=
  {| ls_sort_by := "desc:created";
     ls_id := f_service_uuid a;
     ls_running := f_running a;
     ls_endpoint_name_or_model_name := f_endpoint_name_or_model_name a;
     ls_pipeline_name := f_pipeline_name a;
     ls_run_name := f_run_name a;
     ls_pipeline_step_name := f_pipeline_step_name a;
     ls_model_version_id := model_version_id;
     ls_type := or_if_service_type (f_type a) (f_service_type a) st_type;
     ls_flavor := or_if_service_type (f_flavor a) (f_service_type a) st_flavor;
     ls_hydrate := true |}.

(** [BaseModelDeployer.find_model_server] *)
Definition find_model_server (a : FindArgs)
  : Deployer (list (Service Endpoint)) :=
  mv <- _get_model_version_id_if_exists (f_model_name a) (f_model_version a) ;;
  service_responses <- client_list_services (list_args_of a mv) ;;
  find_loop service_responses.

(** [BaseModelDeployer.deploy_model] *)
Definition deploy_model (cfg : ServiceConfig) (service_type : ServiceType)
    (replace : bool) (timeout : Z) : Deployer (Service Endpoint) :=
  services <- find_model_server (find_by_identity cfg service_type) ;;
  service <-
    match services with
    | service :: _ =>
        if replace then
          service <- call_perform_delete_model service timeout true ;;
          r <- on_service (update cfg) service ;;
          r <- on_service (start timeout) (snd r) ;;
          ret (snd r)
        else ret service
    | [] =>
        mv <- _get_model_version_id_if_exists
                (Some (model_name cfg)) (Some (model_version cfg)) ;;
        service_response <- client_create_service cfg service_type mv ;;
        call_perform_deploy_model (resp_id service_response) cfg timeout
    end ;;
  client_update_service (snapshot_of service) ;;
  ret service.

(** What [services[0]] raises on an empty list. *)
Definition index_error : PyExc := Exc IndexError "list index out of range".

(** [services[0]] *)
Definition first_service (services : list (Service Endpoint))
  : Deployer (Service Endpoint) :=
  match services with
  | s :: _ => ret s
  | [] => raise index_error
  end.

Definition wrap_failure (verb : string) (u : UUID) (e : PyExc) : PyExc :=
  ExcFrom RuntimeError
    ("Failed to " ++ verb ++ " model server with UUID " ++ str_uuid u
       ++ ": " ++ str_exc e) e.

(** The write-backs a lookup owes: one for each record whose freshly
    probed status differs from the status on record, in order. *)
Definition write_backs (items : list (ServiceResponse Endpoint))
    (services : list (Service Endpoint)) : list (Event Endpoint) :=
  map (fun x => EvUpdateService (status_update_of (snd x)))
      (filter (fun x => status_differs (snd x) (fst x))
              (combine items services)).

(** [BaseModelDeployer.stop_model_server] *)
Definition stop_model_server (u : UUID) (timeout : Z) (force : bool)
  : Deployer unit :=
  try_except
    (services <- find_model_server (find_by_uuid u) ;;
     service <- first_service services ;;
     updated_service <- call_perform_stop_model service timeout force ;;
     client_update_service (status_update_of updated_service))
    (fun e => raise (wrap_failure "stop" u e)).

(** [BaseModelDeployer.start_model_server] *)
Definition start_model_server (u : UUID) (timeout : Z) : Deployer unit :=
  try_except
    (services <- find_model_server (find_by_uuid u) ;;
     service <- first_service services ;;
     updated_service <- call_perform_start_model service timeout ;;
     client_update_service (status_update_of updated_service))
    (fun e => raise (wrap_failure "start" u e)).

(** [BaseModelDeployer.delete_model_server] *)
Definition delete_model_server (u : UUID) (timeout : Z) (force : bool)
  : Deployer unit :=
  try_except
    (services <- find_model_server (find_by_uuid u) ;;
     service <- first_service services ;;
     _ <- call_perform_delete_model service timeout force ;;
     client_delete_service u)
    (fun e => raise (wrap_failure "delete" u e)).

(** The operations a caller can ask of a deployer, and the environment
    a sequence of them leaves, each one returning or raising. *)
Inductive DeployerCall : Type :=
| CallDeploy (cfg : ServiceConfig) (ty : ServiceType) (replace : bool)
             (timeout : Z)
| CallFind (a : FindArgs)
| CallStop (u : UUID) (timeout : Z) (force : bool)
| CallStart (u : UUID) (timeout : Z)
| CallDelete (u : UUID) (timeout : Z) (force : bool).

Definition run_call (c : DeployerCall) (g : Env W S Endpoint)
  : Env W S Endpoint :=
  match c with
  | CallDeploy cfg ty replace timeout =>
      snd (deploy_model cfg ty replace timeout g)
  | CallFind a => snd (find_model_server a g)
  | CallStop u timeout force => snd (stop_model_server u timeout force g)
  | CallStart u timeout => snd (start_model_server u timeout g)
  | CallDelete u timeout force => snd (delete_model_server u timeout force g)
  end.

Definition run_calls (cs : list DeployerCall) (g : Env W S Endpoint)
  : Env W S Endpoint :=
  fold_left (fun g c => run_call c g) cs g.

End Deployer.


(* ------------------------------------------------------------------ *)
(** ** The store *)

Section SimpleStore.
Variable Endpoint : Type.

(** Modelled from the spec: the store behind [zenml.client.Client] is
    missing.  The specification gives its contract: [list_services]
    filters on id, running, endpoint or model name, pipeline name, run
    name, pipeline step name, model version id, type and flavor, and
    returns the matching records newest-first; [create_service] adds a
    record under a fresh id; [update_service] rewrites the fields it is
    given of the record with that id; [delete_service] removes the
    record; [get_model_version] resolves a model name and version to an
    id, and the absence of a match is a [KeyError].  A filter that is not
    given does not constrain the result, and [running] constrains it only
    when it is true. *)
Record StoreState : Type := {
  records : list (ServiceResponse Endpoint);
  next_id : N;
  clock : N;
  model_versions : list (string * option string * UUID)
}.

Definition filter_eq {A} (eqb : A -> A -> bool) (wanted : option A) (x : A)
  : bool :=
  match wanted with
  | Some v => eqb v x
  | None => true
  end.

Definition is_running_record (r : ServiceResponse Endpoint) : bool :=
  match resp_status r with
  | Some x => ServiceState_eqb (state x) RUNNING
  | None => false
  end.

(** Modelled from the spec: the filters of [list_services]. *)
Definition matches (a : ListServicesArgs) (r : ServiceResponse Endpoint)
  : bool :=
  filter_eq N.eqb (ls_id a) (resp_id r)
  && (if ls_running a then is_running_record r else true)
  && match ls_endpoint_name_or_model_name a with
     | Some v => String.eqb v (name (resp_config r))
                 || String.eqb v (model_name (resp_config r))
     | None => true
     end
  && filter_eq String.eqb (ls_pipeline_name a) (pipeline_name (resp_config r))
  && filter_eq String.eqb (ls_run_name a) (run_name (resp_config r))
  && filter_eq String.eqb (ls_pipeline_step_name a)
       (pipeline_step_name (resp_config r))
  && match ls_model_version_id a with
     | Some v => match resp_model_version_id r with
                 | Some x => N.eqb v x
                 | None => false
                 end
     | None => true
     end
  && filter_eq String.eqb (ls_type a) (st_type (resp_service_type r))
  && filter_eq String.eqb (ls_flavor a) (st_flavor (resp_service_type r)).

(** Insertion into a list that is newest-first. *)
Fixpoint insert_newest_first (r : ServiceResponse Endpoint)
    (l : list (ServiceResponse Endpoint)) : list (ServiceResponse Endpoint) :=
  match l with
  | [] => [r]
  | x :: l' =>
      if (resp_created x <=? resp_created r)%N then r :: x :: l'
      else x :: insert_newest_first r l'
  end.

Fixpoint newest_first (l : list (ServiceResponse Endpoint))
  : list (ServiceResponse Endpoint) :=
  match l with
  | [] => []
  | r :: l' => insert_newest_first r (newest_first l')
  end.

Definition select (a : ListServicesArgs) (st : StoreState)
  : list (ServiceResponse Endpoint) :=
  newest_first (filter (matches a) (records st)).

(** Modelled from the spec: [list_services] answers with the matching
    records, newest-first. *)
Definition store_list_services (a : ListServicesArgs) (st : StoreState)
  : Result (list (ServiceResponse Endpoint)) * StoreState :=
  (Ok (select a st), st).

(** Modelled from the spec: the record [create_service] adds carries a
    fresh id and what the request carries. *)
Definition new_record (cfg : ServiceConfig) (ty : ServiceType)
    (mv : option UUID) (st : StoreState) : ServiceResponse Endpoint :=
  {| resp_id := next_id st;
     resp_created := clock st;
     resp_service_type := ty;
     resp_service_source := None;
     resp_admin_state := None;
     resp_config := cfg;
     resp_status := None;
     resp_endpoint := None;
     resp_model_version_id := mv;
     resp_prediction_url := None;
     resp_health_check_url := None |}.

(** Modelled from the spec: [create_service] *)
Definition store_create_service (cfg : ServiceConfig) (ty : ServiceType)
    (mv : option UUID) (st : StoreState)
  : Result (ServiceResponse Endpoint) * StoreState :=
  let r := new_record cfg ty mv st in
  (Ok r, {| records := r :: records st;
            next_id := N.succ (next_id st);
            clock := N.succ (clock st);
            model_versions := model_versions st |}).

Definition or_keep {A} (new : option A) (old : A) : A :=
  match new with
  | Some x => x
  | None => old
  end.

Definition or_keep_opt {A} (new old : option A) : option A :=
  match new with
  | Some x => Some x
  | None => old
  end.

(** Modelled from the spec: [update_service] rewrites the fields it is
    given of the record with that id; the id, the creation time, the
    service type and the model version are not among them. *)
Definition apply_update (u : ServiceUpdate Endpoint)
    (r : ServiceResponse Endpoint) : ServiceResponse Endpoint :=
  if N.eqb (resp_id r) (upd_id u) then
    {| resp_id := resp_id r;
       resp_created := resp_created r;
       resp_service_type := resp_service_type r;
       resp_service_source :=
         or_keep_opt (upd_service_source u) (resp_service_source r);
       resp_admin_state := or_keep_opt (upd_admin_state u) (resp_admin_state r);
       resp_config :=
         let cfg := or_keep (upd_config u) (resp_config r) in
         match upd_name u with
         | Some n => set_name cfg n
         | None => cfg
         end;
       resp_status := or_keep_opt (upd_status u) (resp_status r);
       resp_endpoint := or_keep_opt (upd_endpoint u) (resp_endpoint r);
       resp_model_version_id := resp_model_version_id r;
       resp_prediction_url :=
         or_keep_opt (upd_prediction_url u) (resp_prediction_url r);
       resp_health_check_url :=
         or_keep_opt (upd_health_check_url u) (resp_health_check_url r) |}
  else r.

Definition has_id (u : UUID) (st : StoreState) : bool :=
  existsb (fun r => N.eqb (resp_id r) u) (records st).

(** Modelled from the spec: [update_service]; an unknown id is a
    [KeyError]. *)
Definition store_update_service (u : ServiceUpdate Endpoint) (st : StoreState)
  : Result unit * StoreState :=
  if has_id (upd_id u) st then
    (Ok tt, {| records := map (apply_update u) (records st);
               next_id := next_id st;
               clock := clock st;
               model_versions := model_versions st |})
  else (Raise (Exc KeyError (str_uuid (upd_id u))), st).

(** Modelled from the spec: [delete_service] removes the record; an
    unknown id is a [KeyError]. *)
Definition store_delete_service (u : UUID) (st : StoreState)
  : Result unit * StoreState :=
  if has_id u st then
    (Ok tt, {| records :=
                 filter (fun r => negb (N.eqb (resp_id r) u)) (records st);
               next_id := next_id st;
               clock := clock st;
               model_versions := model_versions st |})
  else (Raise (Exc KeyError (str_uuid u)), st).

Fixpoint lookup_model_version (n : string) (v : option string)
    (l : list (string * option string * UUID)) : option UUID :=
  match l with
  | [] => None
  | (n', v', id) :: l' =>
      if String.eqb n n'
         && match v, v' with
            | Some a, Some b => String.eqb a b
            | None, None => true
            | _, _ => false
            end
      then Some id
      else lookup_model_version n v l'
  end.

(** Modelled from the spec: [get_model_version]; the absence of a match
    is a [KeyError]. *)
Definition store_get_model_version (n : string) (v : option string)
    (st : StoreState) : Result UUID * StoreState :=
  match lookup_model_version n v (model_versions st) with
  | Some id => (Ok id, st)
  | None => (Raise (Exc KeyError n), st)
  end.

(** What [_get_model_version_id_if_exists] answers over this store. *)
Definition resolved (model_name model_version : option string)
    (st : StoreState) : option UUID :=
  match model_name with
  | Some n =>
      if String.eqb n "" then None
      else lookup_model_version n model_version (model_versions st)
  | None => None
  end.

#[export] Instance SimpleStore : StoreClient StoreState Endpoint := {
  list_services := store_list_services;
  create_service := store_create_service;
  update_service := store_update_service;
  delete_service := store_delete_service;
  get_model_version := store_get_model_version
}.

(** The ids in use are distinct and older than the next fresh one. *)
Definition store_wf (st : StoreState) : Prop :=
  NoDup (map (@resp_id Endpoint) (records st))
  /\ Forall (fun r => (resp_id r < next_id st)%N) (records st).

(** What a lookup by identity reads of a record. *)
Definition key_of (r : ServiceResponse Endpoint) :=
  (resp_id r, resp_created r, resp_service_type r, resp_model_version_id r,
   identity_of (resp_config r)).

(** Two states of the store that such a lookup cannot tell apart. *)
Definition same_keys (st st' : StoreState) : Prop :=
  map key_of (records st') = map key_of (records st)
  /\ next_id st' = next_id st
  /\ model_versions st' = model_versions st.

(** A listing that filters neither on [running] nor on a name. *)
Definition plain (a : ListServicesArgs) : Prop :=
  ls_running a = false /\ ls_endpoint_name_or_model_name a = None.

(** A record of a listing is still in the store, up to its key. *)
Definition listed (st : StoreState) (r : ServiceResponse Endpoint) : Prop :=
  exists x, In x (records st) /\ key_of x = key_of r.

(** The listing [find_model_server] gets over this store. *)
Definition listing_of (a : FindArgs) (st : StoreState)
  : list (ServiceResponse Endpoint) :=
  select (list_args_of a (resolved (f_model_name a) (f_model_version a) st)) st.

(** The ids in use are older than the next fresh one. *)
Definition ids_issued (st : StoreState) : Prop :=
  Forall (fun r => (resp_id r < next_id st)%N) (records st).

(** [u] was issued and no record carries it any more. *)
Definition gone (u : UUID) (st : StoreState) : Prop :=
  (u < next_id st)%N
  /\ Forall (fun r => (resp_id r < next_id st)%N /\ resp_id r <> u)
       (records st).

End SimpleStore.


(* ------------------------------------------------------------------ *)
(** ** A scripted backend

    A fake of the concrete service class and deployer, of the kind the
    specification asks the collaborators to be given as: the outcomes of
    the successive probes are scripted, and so is the failure of each
    operation.  Its endpoint is a flag telling whether it answers. *)

Record FakeWorld : Type := {
  probes : list (Result (ServiceState * string));
  provision_error : option PyExc;
  deprovision_error : option PyExc;
  delete_error : option PyExc;
  slept : nat
}.

Definition FakeEndpoint : Type := bool.

Definition fake_source : string := "fake.services.FakeService".

(** The next scripted outcome of the probe; once the script is over the
    resource is seen stopped. *)
Definition next_probe (w : FakeWorld)
  : Result (ServiceState * string) * FakeWorld :=
  match probes w with
  | [] => (Ok (INACTIVE, ""), w)
  | p :: rest =>
      (p, {| probes := rest; provision_error := provision_error w;
             deprovision_error := deprovision_error w;
             delete_error := delete_error w; slept := slept w |})
  end.

Definition fail_with {A} (err : option PyExc) (a : A) : Result A :=
  match err with
  | Some e => Raise e
  | None => Ok a
  end.

Definition fake_service (id : UUID) (cfg : ServiceConfig)
  : Service FakeEndpoint :=
  {| uuid := id; admin_state := RUNNING;
     config := if String.eqb (name cfg) "" then set_name cfg "FakeService"
               else cfg;
     status := {| state := RUNNING; last_error := "" |};
     endpoint := None;
     service_source := fake_source |}.

#[export] Instance FakeBackend : Backend FakeWorld FakeEndpoint := {
  check_status := fun _ w => next_probe w;
  endpoint_update_status := fun ep w => (Ok tt, ep, w);
  endpoint_is_active := fun ep w => (Ok ep, ep, w);
  endpoint_status_uri := fun _ => Some "http://localhost:8080";
  endpoint_healthcheck_uri := fun _ => None;
  provision := fun s w => (fail_with (provision_error w) tt, s, w);
  deprovision := fun s _ w => (fail_with (deprovision_error w) tt, s, w);
  is_deployment_service := fun _ => true;
  prediction_url := fun _ => None;
  sleep := fun w =>
    {| probes := probes w; provision_error := provision_error w;
       deprovision_error := deprovision_error w;
       delete_error := delete_error w; slept := Datatypes.S (slept w) |};
  load_and_validate_class := fun src =>
    if String.eqb src fake_source then Ok "FakeService"
    else Raise (Exc (OtherException "ImportError") src);
  perform_deploy_model := fun id cfg _ w => (Ok (fake_service id cfg), w);
  perform_stop_model := fun s _ _ w =>
    (Ok (set_status (set_admin_state s INACTIVE)
           {| state := INACTIVE; last_error := "" |}), w);
  perform_start_model := fun s _ w =>
    (Ok (set_status (set_admin_state s RUNNING)
           {| state := RUNNING; last_error := "" |}), w);
  perform_delete_model := fun s _ _ w =>
    (fail_with (delete_error w) tt, s, w)
}.

Definition quiet_world (ps : list (Result (ServiceState * string)))
  : FakeWorld :=
  {| probes := ps; provision_error := None; deprovision_error := None;
     delete_error := None; slept := 0 |}.

Definition FakeEnv : Type := Env FakeWorld (StoreState FakeEndpoint) FakeEndpoint.

Definition empty_store : StoreState FakeEndpoint :=
  {| records := []; next_id := 1%N; clock := 0%N; model_versions := [] |}.

Definition fake_env (w : FakeWorld) (st : StoreState FakeEndpoint) : FakeEnv :=
  {| world := w; store := st; trace := [] |}.

Definition iris_config : ServiceConfig :=
  {| name := ""; description := "";
     pipeline_name := "train"; pipeline_step_name := "deployer";
     run_name := "run-1"; model_name := "iris-clf"; model_version := "1" |}.

Definition fake_type : ServiceType :=
  {| st_name := "fake"; st_type := "model-serving"; st_flavor := "fake";
     st_description := "" |}.

(** A service whose operator asked for it to run. *)
Definition wanted_running : Service FakeEndpoint :=
  {| uuid := 7%N; admin_state := RUNNING; config := iris_config;
     status := {| state := INACTIVE; last_error := "" |};
     endpoint := None; service_source := fake_source |}.


(** *** Scenarios on the scripted backend *)

(** The probe cannot reach the resource. *)
Definition connection_refused : PyExc :=
  Exc (OtherException "ConnectionError") "connection refused".

Definition unreachable_env : FakeEnv :=
  fake_env (quiet_world [Raise connection_refused]) empty_store.

(** Provisioning and deprovisioning fail. *)
Definition no_capacity : PyExc := Exc RuntimeError "no capacity".

Definition saturated_env : FakeEnv :=
  fake_env {| probes := []; provision_error := Some no_capacity;
              deprovision_error := Some no_capacity;
              delete_error := None; slept := 0 |}
           empty_store.

(** The resource is probed as failed, twice. *)
Definition crashing_env : FakeEnv :=
  fake_env (quiet_world [Ok (FAILED, "crashed"); Ok (FAILED, "crashed")])
           empty_store.

(** The resource is probed as running. *)
Definition healthy_env : FakeEnv :=
  fake_env (quiet_world [Ok (RUNNING, "")]) empty_store.

(** The resource is probed as stopped (the script is empty). *)
Definition idle_env : FakeEnv := fake_env (quiet_world []) empty_store.

(** "iris-clf" version 1 is deployed on an empty store. *)
Definition first_deployment : Result (Service FakeEndpoint) * FakeEnv :=
  deploy_model iris_config fake_type false 0 idle_env.

Definition deployed_env : FakeEnv := snd first_deployment.

(** The service that deployment made. *)
Definition deployed_service : Service FakeEndpoint := fake_service 1%N iris_config.

(** The same deployment is asked for again. *)
Definition second_deployment : Result (Service FakeEndpoint) * FakeEnv :=
  deploy_model iris_config fake_type false 0 deployed_env.

(** The lookup [deploy_model] makes once the model is deployed, and the
    service it finds: the probe now sees the resource stopped. *)
Definition lookup : Result (list (Service FakeEndpoint)) * FakeEnv :=
  find_model_server (find_by_identity iris_config fake_type) deployed_env.

Definition found_service : Service FakeEndpoint :=
  set_status deployed_service {| state := INACTIVE; last_error := "" |}.

(** The deployed service is deleted. *)
Definition deletion : Result unit * FakeEnv :=
  delete_model_server 1%N 0 false deployed_env.

(* ------------------------------------------------------------------ *)
(** ** Relations between the states of a run *)

(** [preserved R m]: every run of [m] relates the state it starts in to
    the state it ends in, whether it returns or raises. *)
Definition preserved {St A} (R : St -> St -> Prop) (m : SE St A) : Prop :=
  forall x r x', m x = (r, x') -> R x x'.

(** The trace only grows; [extends_by p] says by which events. *)
Definition extends_by {W S Endpoint} (p : Event Endpoint -> bool)
    (g g' : Env W S Endpoint) : Prop :=
  exists d, trace g' = (trace g ++ d)%list /\ forallb p d = true.

(** What probing leaves of a service object: everything but its status
    and its endpoint. *)
Definition probed {Endpoint} (s s' : Service Endpoint) : Prop :=
  uuid s' = uuid s /\ admin_state s' = admin_state s
  /\ config s' = config s /\ service_source s' = service_source s.

(** A run of a method that only observes: the object is [probed], the
    store is untouched, and the trace grows by events in [p]. *)
Definition observing {W S Endpoint} (p : Event Endpoint -> bool)
    (x x' : Service Endpoint * Env W S Endpoint) : Prop :=
  probed (fst x) (fst x')
  /\ extends_by p (snd x) (snd x')
  /\ store (snd x') = store (snd x).

(** The operations of a backend that receive a service object leave its
    uuid alone (nothing in the sources assigns [uuid] after the object
    is constructed). *)
Definition keeps_uuid {W Endpoint} (B : Backend W Endpoint) : Prop :=
  (forall s w, uuid (snd (fst (provision s w))) = uuid s)
  /\ (forall s force w, uuid (snd (fst (deprovision s force w))) = uuid s)
  /\ (forall s timeout force w,
         uuid (snd (fst (perform_delete_model s timeout force w))) = uuid s).

(** [perform_deploy_model(id, config, timeout)] answers with a service
    that carries the id it was given and the identity of the
    configuration it was given. *)
Definition deploys_as_requested {W Endpoint} (B : Backend W Endpoint) : Prop :=
  forall id cfg timeout w svc w',
    perform_deploy_model id cfg timeout w = (Ok svc, w') ->
    uuid svc = id /\ identity_of (config svc) = identity_of cfg.

(** Classes of events. *)
Section EventClasses.
Context {Endpoint : Type}.

Definition is_probe (e : Event Endpoint) : bool :=
  match e with
  | EvCheckStatus _ | EvEndpointUpdateStatus _ | EvEndpointIsActive _ => true
  | _ => false
  end.

Definition is_check_status (e : Event Endpoint) : bool :=
  match e with EvCheckStatus _ => true | _ => false end.

Definition is_sleep (e : Event Endpoint) : bool :=
  match e with EvSleep => true | _ => false end.

Definition is_provision (e : Event Endpoint) : bool :=
  match e with EvProvision _ => true | _ => false end.

Definition is_perform_deploy (e : Event Endpoint) : bool :=
  match e with EvPerformDeploy _ _ _ => true | _ => false end.

Definition is_perform_delete (e : Event Endpoint) : bool :=
  match e with EvPerformDelete _ _ _ => true | _ => false end.

Definition is_update (e : Event Endpoint) : bool :=
  match e with EvUpdate _ _ => true | _ => false end.

Definition is_start (e : Event Endpoint) : bool :=
  match e with EvStart _ _ => true | _ => false end.

Definition is_create_service (e : Event Endpoint) : bool :=
  match e with EvCreateService _ _ _ => true | _ => false end.

Definition is_update_service (e : Event Endpoint) : bool :=
  match e with EvUpdateService _ => true | _ => false end.

(** What a lookup may do: resolve a model version, list, probe, and
    write a probed status back. *)
Definition is_lookup (e : Event Endpoint) : bool :=
  match e with
  | EvGetModelVersion _ _ | EvListServices _ | EvUpdateService _ => true
  | _ => is_probe e
  end.

(** What the body of [start] or [stop] may do. *)
Definition is_lifecycle (e : Event Endpoint) : bool :=
  match e with
  | EvSleep | EvProvision _ | EvDeprovision _ _ => true
  | _ => is_probe e
  end.

(** A run of [start] or [stop]: the store is untouched, the trace grows
    by life-cycle events, and the uuid stays when the backend keeps it. *)
Definition operating {W S} (B : Backend W Endpoint)
    (x x' : Service Endpoint * Env W S Endpoint) : Prop :=
  (keeps_uuid B -> uuid (fst x') = uuid (fst x))
  /\ extends_by is_lifecycle (snd x) (snd x')
  /\ store (snd x') = store (snd x).

(** A property of the store that a run keeps. *)
Definition keeping {W S} (I : S -> Prop) (g g' : Env W S Endpoint) : Prop :=
  I (store g) -> I (store g').

Definition count (p : Event Endpoint -> bool) (l : list (Event Endpoint))
  : nat :=
  List.length (filter p l).

End EventClasses.


(* ------------------------------------------------------------------ *)
(** ** More of [service.py] and [base_model_deployer.py] *)

Section MoreEventClasses.
Context {Endpoint : Type}.

Definition is_deprovision (e : Event Endpoint) : bool :=
  match e with EvDeprovision _ _ => true | _ => false end.

Definition is_endpoint_is_active (e : Event Endpoint) : bool :=
  match e with EvEndpointIsActive _ => true | _ => false end.

Definition is_endpoint_update_status (e : Event Endpoint) : bool :=
  match e with EvEndpointUpdateStatus _ => true | _ => false end.

Definition is_delete_service (e : Event Endpoint) : bool :=
  match e with EvDeleteService _ => true | _ => false end.

Definition is_perform_stop (e : Event Endpoint) : bool :=
  match e with EvPerformStop _ _ _ => true | _ => false end.

Definition is_perform_start (e : Event Endpoint) : bool :=
  match e with EvPerformStart _ _ => true | _ => false end.

(** What changes the set of records or drives the backend: everything a
    lookup must not do. *)
Definition is_intervention (e : Event Endpoint) : bool :=
  match e with
  | EvSleep | EvProvision _ | EvDeprovision _ _ | EvUpdate _ _
  | EvStart _ _ | EvStop _ _ _ | EvPerformDeploy _ _ _
  | EvPerformStop _ _ _ | EvPerformStart _ _ | EvPerformDelete _ _ _
  | EvCreateService _ _ _ | EvDeleteService _ => true
  | _ => false
  end.

End MoreEventClasses.

Section MoreLifecycle.
Context {W S Endpoint : Type} {B : Backend W Endpoint}.

(** The three tests of one iteration of the loop of
    [poll_service_status], up to the test of [time_remaining]: [Some b]
    when the iteration executes [return b], [None] when it goes on. *)
Definition poll_pass : Method (S := S) (option bool) :=
  s <- self ;;
  r <- (if ServiceState_eqb (admin_state s) RUNNING then is_running
        else ret false) ;;
  if r then ret (Some true)
  else
    s <- self ;;
    t <- (if ServiceState_eqb (admin_state s) INACTIVE then is_stopped
          else ret false) ;;
    if t then ret (Some true)
    else
      f <- is_failed ;;
      if f then ret (Some false) else ret None.

(** The observed state matches the requested one. *)
Definition converged (s : Service Endpoint) : Prop :=
  state (status s) = admin_state s
  /\ (admin_state s = RUNNING \/ admin_state s = INACTIVE).

End MoreLifecycle.

(** The defaults of [find_model_server] with [run_name=...]. *)
Definition find_by_run (run : string) : FindArgs :=
  {| f_running := false; f_service_uuid := None;
     f_pipeline_name := None; f_run_name := Some run;
     f_pipeline_step_name := None;
     f_endpoint_name_or_model_name := None;
     f_model_name := None; f_model_version := None;
     f_service_type := None; f_type := None; f_flavor := None |}.

(** [find_model_server] called without [type] and [flavor]. *)
Definition without_type_filters (a : FindArgs) : FindArgs :=
  {| f_running := f_running a; f_service_uuid := f_service_uuid a;
     f_pipeline_name := f_pipeline_name a; f_run_name := f_run_name a;
     f_pipeline_step_name := f_pipeline_step_name a;
     f_endpoint_name_or_model_name := f_endpoint_name_or_model_name a;
     f_model_name := f_model_name a; f_model_version := f_model_version a;
     f_service_type := f_service_type a; f_type := None; f_flavor := None |}.

(** The lookup of [bentoml_model_deployer_step]: by pipeline, run, step
    and model name, for the service type of the BentoML service, and
    without a model version. *)
Definition find_for_step (pipeline run step model : string)
    (ty : ServiceType) : FindArgs :=
  {| f_running := false; f_service_uuid := None;
     f_pipeline_name := Some pipeline; f_run_name := Some run;
     f_pipeline_step_name := Some step;
     f_endpoint_name_or_model_name := None;
     f_model_name := Some model; f_model_version := None;
     f_service_type := Some ty; f_type := None; f_flavor := None |}.

Section MoreDeployer.
Context {W S Endpoint : Type}.
Context {B : Backend W Endpoint} {C : StoreClient S Endpoint}.

(** The message of [get_model_server_logs] for an unknown uuid. *)
Definition no_model_server (u : UUID) : PyExc :=
  Exc RuntimeError ("No model server found with UUID " ++ str_uuid u).

(** [BaseModelDeployer.get_model_server_logs].  [get_logs] is abstract in
    [BaseService] and answers with a generator: [get_logs s follow tail]
    stands for the generator [s.get_logs(follow=follow, tail=tail)]. *)
Definition get_model_server_logs {Logs : Type}
    (get_logs : Service Endpoint -> bool -> option Z -> Logs)
    (u : UUID) (follow : bool) (tail : option Z) : Deployer Logs :=
  services <- find_model_server (find_by_uuid u) ;;
  match services with
  | [] => raise (no_model_server u)
  | s :: _ => ret (get_logs s follow tail)
  end.

(** [BaseModelDeployer.get_step_run_metadata].  The answer [Some url]
    stands for the dictionary [{METADATA_DEPLOYED_MODEL_URL: Uri(url)}]
    and [None] for the empty dictionary. *)
Definition get_step_run_metadata (run : string)
  : Deployer (option (option string)) :=
  existing_services <- find_model_server (find_by_run run) ;;
  match existing_services with
  | existing_service :: _ =>
      if is_deployment_service existing_service then
        r <- on_service is_running existing_service ;;
        if fst r then ret (Some (prediction_url (snd r)))
        else ret None
      else ret None
  | [] => ret None
  end.

(** [bentoml_model_deployer_step]
    ([integrations/bentoml/steps/bentoml_deployer.py]), from the point
    where the active deployer and the step context are at hand.
    [pipeline], [run] and [step] are the names the step context gives,
    [ty] is [BentoMLDeploymentService.SERVICE_TYPE], and [predictor_cfg]
    is the outcome of building the [BentoMLDeploymentConfig], which loads
    the bento and may raise. *)
Definition bentoml_model_deployer_step (pipeline run step model : string)
    (ty : ServiceType) (predictor_cfg : Result ServiceConfig)
    (deploy_decision : bool) (timeout : Z) : Deployer (Service Endpoint) :=
  existing_services <-
    find_model_server (find_for_step pipeline run step model ty) ;;
  predictor_cfg <- lift_result predictor_cfg ;;
  match existing_services with
  | service :: _ =>
      if negb deploy_decision then
        r <- on_service is_running service ;;
        if fst r then ret (snd r)
        else
          r <- on_service (start timeout) (snd r) ;;
          ret (snd r)
      else deploy_model predictor_cfg ty true timeout
  | [] => deploy_model predictor_cfg ty true timeout
  end.

End MoreDeployer.

(** *** More scenarios on the scripted backend *)

(** A backend like the scripted one, whose endpoint cannot be probed and
    whose deployments fail. *)
Definition BrokenBackend : Backend FakeWorld FakeEndpoint := {|
  check_status := fun _ w => next_probe w;
  endpoint_update_status := fun ep w => (Raise connection_refused, ep, w);
  endpoint_is_active := fun ep w => (Ok ep, ep, w);
  endpoint_status_uri := fun _ => None;
  endpoint_healthcheck_uri := fun _ => None;
  provision := fun s w => (fail_with (provision_error w) tt, s, w);
  deprovision := fun s _ w => (fail_with (deprovision_error w) tt, s, w);
  is_deployment_service := fun _ => true;
  prediction_url := fun _ => None;
  sleep := fun w => w;
  load_and_validate_class := fun src =>
    if String.eqb src fake_source then Ok "FakeService"
    else Raise (Exc (OtherException "ImportError") src);
  perform_deploy_model := fun _ _ _ w => (Raise no_capacity, w);
  perform_stop_model := fun s _ _ w => (Ok s, w);
  perform_start_model := fun s _ w => (Ok s, w);
  perform_delete_model := fun s _ _ w => (fail_with (delete_error w) tt, s, w)
|}.

(** A service with an endpoint, wanted running. *)
Definition guarded_service : Service FakeEndpoint :=
  set_endpoint wanted_running (Some true).

(** The resource is probed as running, twice, and the model is deployed. *)
Definition serving_env : FakeEnv :=
  {| world := quiet_world [Ok (RUNNING, ""); Ok (RUNNING, "")];
     store := store deployed_env; trace := [] |}.

(** The model is deployed and the backend cannot delete it. *)
Definition undeletable_env : FakeEnv :=
  {| world := {| probes := []; provision_error := None;
                 deprovision_error := None;
                 delete_error := Some no_capacity; slept := 0 |};
     store := store deployed_env; trace := [] |}.

(** A record was created and never completed. *)
Definition orphan_env : FakeEnv :=
  fake_env (quiet_world [])
    (snd (store_create_service iris_config fake_type None empty_store)).

(** A service whose operator asked for it to be stopped. *)
Definition wanted_stopped : Service FakeEndpoint :=
  set_admin_state wanted_running INACTIVE.

(** A lookup by type, without a service type. *)
Definition lookup_by_type (t : string) : FindArgs :=
  {| f_running := false; f_service_uuid := None;
     f_pipeline_name := None; f_run_name := None;
     f_pipeline_step_name := None;
     f_endpoint_name_or_model_name := None;
     f_model_name := None; f_model_version := None;
     f_service_type := None; f_type := Some t; f_flavor := None |}.

(* ------------------------------------------------------------------ *)
(** * Properties *)

(** ** Strings *)

Lemma append_empty_r (x : string) : x ++ "" = x.
Proof. induction x as [| c x IH]; simpl; [reflexivity | now rewrite IH]. Qed.

Lemma contains_refl (x : string) : contains x x.
Proof. exists "", "". simpl. now rewrite append_empty_r. Qed.

Lemma append_assoc (x y z : string) : (x ++ y) ++ z = x ++ (y ++ z).
Proof. induction x as [| c x IH]; simpl; [reflexivity | now rewrite IH]. Qed.

(** ** Preorders are kept by sequencing and by exception handling *)

Section Preserved.
Variables (St : Type) (R : St -> St -> Prop).
Hypothesis R_refl : forall x, R x x.
Hypothesis R_trans : forall x y z, R x y -> R y z -> R x z.

Lemma preserved_ret {A} (a : A) : preserved R (ret a).
Proof. intros x r x' H. inversion H; subst. apply R_refl. Qed.

Lemma preserved_raise {A} (e : PyExc) : preserved R (@raise St A e).
Proof. intros x r x' H. inversion H; subst. apply R_refl. Qed.

Lemma preserved_bind {A C} (m : SE St A) (k : A -> SE St C) :
  preserved R m -> (forall a, preserved R (k a)) -> preserved R (bind m k).
Proof.
  intros Hm Hk x r x' H. unfold bind in H.
  destruct (m x) as [[a | e] y] eqn:E.
  - eapply R_trans; [eapply Hm; eassumption | eapply Hk; eassumption].
  - inversion H; subst. eapply Hm; eassumption.
Qed.

Lemma preserved_try_except {A} (m : SE St A) (h : PyExc -> SE St A) :
  preserved R m -> (forall e, preserved R (h e)) ->
  preserved R (try_except m h).
Proof.
  intros Hm Hh x r x' H. unfold try_except in H.
  destruct (m x) as [[a | e] y] eqn:E.
  - inversion H; subst. eapply Hm; eassumption.
  - eapply R_trans; [eapply Hm; eassumption | eapply Hh; eassumption].
Qed.

Lemma preserved_modify (f : St -> St) :
  (forall x, R x (f x)) -> preserved R (modify f).
Proof. intros Hf x r x' H. inversion H; subst. apply Hf. Qed.

End Preserved.

Section Traces.
Context {W S Endpoint : Type}.
Implicit Types (g : Env W S Endpoint) (p : Event Endpoint -> bool).

Lemma extends_by_refl p g : extends_by p g g.
Proof. exists []. split; [now rewrite app_nil_r | reflexivity]. Qed.

Lemma extends_by_trans p g1 g2 g3 :
  extends_by p g1 g2 -> extends_by p g2 g3 -> extends_by p g1 g3.
Proof.
  intros [d1 [E1 F1]] [d2 [E2 F2]]. exists (d1 ++ d2)%list. split.
  - now rewrite E2, E1, app_assoc.
  - now rewrite forallb_app, F1, F2.
Qed.

Lemma extends_by_event p g e (w : W) (st : S) :
  p e = true ->
  extends_by p g {| world := w; store := st; trace := (trace g ++ [e])%list |}.
Proof. intros H. exists [e]. split; [reflexivity | simpl; now rewrite H]. Qed.

Lemma extends_by_same_trace p g g' :
  trace g' = trace g -> extends_by p g g'.
Proof. intros H. exists []. split; [now rewrite app_nil_r | reflexivity]. Qed.

Lemma extends_by_weaken p (q : Event Endpoint -> bool) g g' :
  (forall e, p e = true -> q e = true) ->
  extends_by p g g' -> extends_by q g g'.
Proof.
  intros H [d [E F]]. exists d. split; [assumption |].
  rewrite forallb_forall in *. auto.
Qed.

End Traces.

(** ** The service life cycle *)

Section LifecycleFacts.
Context {W S Endpoint : Type} {B : Backend W Endpoint}.
Implicit Types (s : Service Endpoint) (g : Env W S Endpoint).

Lemma update_status_returns s g :
  exists s' g', update_status (s, g) = (Ok tt, (s', g')).
Proof.
  unfold update_status, try_except, bind, call_check_status,
    status_update_state, modify, self, ret; simpl.
  destruct (check_status s (world g)) as [[[st err] | e] w]; simpl.
  - destruct (ServiceState_eqb st INACTIVE); [eauto |].
    destruct (endpoint s) as [ep |]; [| eauto].
    unfold call_endpoint_update_status; simpl.
    destruct (endpoint_update_status ep w) as [[[[] | e] ep'] w']; eauto.
  - eauto.
Qed.

(** The wrapper leaves the post-state on a normal return and the error
    state, with the text of the exception, on a raise. *)
Lemma update_service_status_exit {A} pre post err (func : Method A)
    (x : Service Endpoint * Env W S Endpoint) r s' g' :
  update_service_status (S := S) pre (Some post) err func x = (r, (s', g')) ->
  match r with
  | Ok _ => status s' = {| state := post; last_error := "" |}
  | Raise e => status s' = {| state := err; last_error := str_exc e |}
  end.
Proof.
  unfold update_service_status, bind, try_except, status_update_state,
    modify, ret, raise.
  intros H.
  destruct pre as [p |]; simpl in H.
  - destruct (func _) as [[a | e] [s1 g1]]; inversion H; subst; reflexivity.
  - destruct (func _) as [[a | e] [s1 g1]]; inversion H; subst; reflexivity.
Qed.

Lemma probed_refl s : probed s s.
Proof. repeat split. Qed.

Lemma probed_trans s1 s2 s3 : probed s1 s2 -> probed s2 s3 -> probed s1 s3.
Proof.
  unfold probed. intros (? & ? & ? & ?) (? & ? & ? & ?).
  repeat split; congruence.
Qed.

Lemma observing_refl p (x : Service Endpoint * Env W S Endpoint) :
  observing p x x.
Proof. repeat split. apply extends_by_refl. Qed.

Lemma observing_trans p (x y z : Service Endpoint * Env W S Endpoint) :
  observing p x y -> observing p y z -> observing p x z.
Proof.
  intros (P1 & T1 & S1) (P2 & T2 & S2). split; [| split].
  - eapply probed_trans; eassumption.
  - eapply extends_by_trans; eassumption.
  - congruence.
Qed.

Lemma observing_self p :
  preserved (observing p) (self (W := W) (S := S) (Endpoint := Endpoint)).
Proof. intros x r x' H. inversion H; subst. apply observing_refl. Qed.

Lemma observing_status_update_state p st err :
  preserved (observing p)
    (status_update_state (W := W) (S := S) (Endpoint := Endpoint) st err).
Proof.
  intros [s g] r x' H. inversion H; subst.
  repeat split. apply extends_by_refl.
Qed.

Lemma observing_check_status p :
  (forall e, is_probe e = true -> p e = true) ->
  preserved (observing p) (call_check_status (S := S)).
Proof.
  intros Hp [s g] r x' H. unfold call_check_status in H; simpl in H.
  destruct (check_status s (world g)) as [r0 w].
  inversion H; subst. repeat split; simpl.
  apply extends_by_event, Hp. reflexivity.
Qed.

Lemma observing_endpoint_update_status p ep :
  (forall e, is_probe e = true -> p e = true) ->
  preserved (observing p) (call_endpoint_update_status (S := S) ep).
Proof.
  intros Hp [s g] r x' H. unfold call_endpoint_update_status in H; simpl in H.
  destruct (endpoint_update_status ep (world g)) as [[r0 ep'] w].
  inversion H; subst. repeat split; simpl.
  apply extends_by_event, Hp. reflexivity.
Qed.

Lemma observing_endpoint_is_active p ep :
  (forall e, is_probe e = true -> p e = true) ->
  preserved (observing p) (call_endpoint_is_active (S := S) ep).
Proof.
  intros Hp [s g] r x' H. unfold call_endpoint_is_active in H; simpl in H.
  destruct (endpoint_is_active ep (world g)) as [[r0 ep'] w].
  inversion H; subst. repeat split; simpl.
  apply extends_by_event, Hp. reflexivity.
Qed.

Lemma observing_sleep p :
  p EvSleep = true ->
  preserved (observing p) (call_sleep (S := S)).
Proof.
  intros Hp [s g] r x' H. unfold call_sleep in H; simpl in H.
  inversion H; subst. repeat split; simpl.
  apply extends_by_event, Hp.
Qed.

Ltac observing_step :=
  match goal with
  | |- preserved _ (ret _) => apply preserved_ret; apply observing_refl
  | |- preserved _ (raise _) => apply preserved_raise; apply observing_refl
  | |- preserved _ (bind _ _) =>
      apply preserved_bind; [apply observing_trans | | intros ?]
  | |- preserved _ (try_except _ _) =>
      apply preserved_try_except; [apply observing_trans | | intros ?]
  | |- preserved _ self => apply observing_self
  | |- preserved _ (status_update_state _ _) =>
      apply observing_status_update_state
  | |- preserved _ call_check_status =>
      apply observing_check_status; assumption
  | |- preserved _ (call_endpoint_update_status _) =>
      apply observing_endpoint_update_status; assumption
  | |- preserved _ (call_endpoint_is_active _) =>
      apply observing_endpoint_is_active; assumption
  | |- preserved _ call_sleep => apply observing_sleep; reflexivity
  | |- preserved _ (if ?c then _ else _) => destruct c
  | |- preserved _ (match ?c with _ => _ end) => destruct c
  end.

Lemma observing_update_status p :
  (forall e, is_probe e = true -> p e = true) ->
  preserved (observing p) (update_status (S := S)).
Proof. intros Hp. unfold update_status. repeat observing_step. Qed.

Lemma observing_is_running p :
  (forall e, is_probe e = true -> p e = true) ->
  preserved (observing p) (is_running (S := S)).
Proof.
  intros Hp. unfold is_running.
  repeat first [apply observing_update_status; assumption | observing_step].
Qed.

Lemma observing_is_stopped p :
  (forall e, is_probe e = true -> p e = true) ->
  preserved (observing p) (is_stopped (S := S)).
Proof.
  intros Hp. unfold is_stopped.
  repeat first [apply observing_update_status; assumption | observing_step].
Qed.

Lemma observing_is_failed p :
  (forall e, is_probe e = true -> p e = true) ->
  preserved (observing p) (is_failed (S := S)).
Proof.
  intros Hp. unfold is_failed.
  repeat first [apply observing_update_status; assumption | observing_step].
Qed.

Ltac observing_poll :=
  repeat first
    [ apply observing_is_running; assumption
    | apply observing_is_stopped; assumption
    | apply observing_is_failed; assumption
    | assumption
    | observing_step ].

(** One pass of the polling loop, as [poll_loop 0] makes it. *)
Lemma observing_poll_loop_0 :
  preserved (observing is_probe) (poll_loop (S := S) 0).
Proof.
  assert (Hp : forall e : Event Endpoint, is_probe e = true -> is_probe e = true)
    by auto.
  simpl. observing_poll.
Qed.

Lemma observing_poll_loop n :
  preserved (observing (fun e => is_probe e || is_sleep e))
    (poll_loop (S := S) n).
Proof.
  assert (Hp : forall e : Event Endpoint,
             is_probe e = true -> is_probe e || is_sleep e = true)
    by (intros e ->; reflexivity).
  induction n as [| n IH]; simpl; observing_poll.
Qed.

Lemma ServiceState_eqb_eq a b : ServiceState_eqb a b = true <-> a = b.
Proof. destruct a, b; simpl; split; intros H; congruence. Qed.

Lemma is_running_true (x : Service Endpoint * Env W S Endpoint) s' g' :
  is_running x = (Ok true, (s', g')) -> state (status s') = RUNNING.
Proof.
  unfold is_running, bind, self, ret. intros H.
  destruct (update_status x) as [[[] | e] [s1 g1]]; [| discriminate].
  simpl in H.
  destruct (ServiceState_eqb (state (status s1)) RUNNING) eqn:E;
    [| discriminate].
  apply ServiceState_eqb_eq in E.
  destruct (endpoint s1) as [ep |].
  - unfold call_endpoint_is_active in H; simpl in H.
    destruct (endpoint_is_active ep (world g1)) as [[r ep'] w].
    inversion H; subst. exact E.
  - inversion H; subst. exact E.
Qed.

Lemma is_stopped_true (x : Service Endpoint * Env W S Endpoint) s' g' :
  is_stopped x = (Ok true, (s', g')) -> state (status s') = INACTIVE.
Proof.
  unfold is_stopped, bind, self, ret. intros H.
  destruct (update_status x) as [[[] | e] [s1 g1]]; [| discriminate].
  simpl in H. inversion H; subst. now apply ServiceState_eqb_eq.
Qed.

Lemma is_running_observes (x x' : Service Endpoint * Env W S Endpoint) r :
  is_running x = (r, x') -> admin_state (fst x') = admin_state (fst x).
Proof.
  intros H.
  assert (P : preserved (observing is_probe) (is_running (S := S)))
    by (apply observing_is_running; auto).
  apply (P _ _ _ H).
Qed.

Lemma is_stopped_observes (x x' : Service Endpoint * Env W S Endpoint) r :
  is_stopped x = (r, x') -> admin_state (fst x') = admin_state (fst x).
Proof.
  intros H.
  assert (P : preserved (observing is_probe) (is_stopped (S := S)))
    by (apply observing_is_stopped; auto).
  apply (P _ _ _ H).
Qed.

(** C3, as the code has it.  [poll_service_status(timeout=0)] makes one
    pass and never sleeps: it only probes, and it answers [True] only
    when the state it has just probed matches [admin_state], which is
    then [RUNNING] or [INACTIVE]. *)
Theorem poll_without_timeout_is_one_pass s g b s' g' :
  poll_service_status 0 (s, g) = (Ok b, (s', g')) ->
  observing is_probe (s, g) (s', g')
  /\ (b = true ->
      state (status s') = admin_state s'
      /\ (admin_state s' = RUNNING \/ admin_state s' = INACTIVE)).
Proof.
  intros H. split.
  - assert (Hpres : preserved (observing is_probe)
                       (poll_service_status (S := S) 0)).
    { unfold poll_service_status. simpl Z.to_nat.
      apply preserved_bind; [apply observing_trans | | intros ?].
      + apply observing_poll_loop_0.
      + destruct a; apply preserved_ret; apply observing_refl. }
    exact (Hpres _ _ _ H).
  - intros ->. unfold poll_service_status in H. simpl Z.to_nat in H.
    simpl in H. unfold bind, self, ret in H. simpl in H.
    destruct (ServiceState_eqb (admin_state s) RUNNING) eqn:Ea.
    + apply ServiceState_eqb_eq in Ea.
      destruct (is_running (s, g)) as [[[|] | e] [s1 g1]] eqn:E1;
        [| | discriminate].
      * inversion H; subst.
        pose proof (is_running_observes _ E1) as Hadm.
        simpl in Hadm. rewrite Hadm, Ea.
        split; [eapply is_running_true; eassumption | now left].
      * simpl in H.
        pose proof (is_running_observes _ E1) as Hadm.
        simpl in Hadm.
        assert (En : ServiceState_eqb (admin_state s1) INACTIVE = false)
          by (rewrite Hadm, Ea; reflexivity).
        rewrite En in H. simpl in H.
        destruct (is_failed (s1, g1)) as [[[|] | e] [s2 g2]];
          simpl in H; discriminate.
    + simpl in H.
      destruct (ServiceState_eqb (admin_state s) INACTIVE) eqn:Ei.
      * apply ServiceState_eqb_eq in Ei.
        destruct (is_stopped (s, g)) as [[[|] | e] [s1 g1]] eqn:E1;
          [| | discriminate].
        -- inversion H; subst.
           pose proof (is_stopped_observes _ E1) as Hadm.
           simpl in Hadm. rewrite Hadm, Ei.
           split; [eapply is_stopped_true; eassumption | now right].
        -- simpl in H.
           destruct (is_failed (s1, g1)) as [[[|] | e] [s2 g2]];
             simpl in H; discriminate.
      * simpl in H.
        destruct (is_failed (s, g)) as [[[|] | e] [s2 g2]];
          simpl in H; discriminate.
Qed.

Lemma operating_refl (x : Service Endpoint * Env W S Endpoint) :
  operating B x x.
Proof. repeat split. apply extends_by_refl. Qed.

Lemma operating_trans (x y z : Service Endpoint * Env W S Endpoint) :
  operating B x y -> operating B y z -> operating B x z.
Proof.
  intros (U1 & T1 & S1) (U2 & T2 & S2). split; [| split].
  - intros K. rewrite (U2 K). exact (U1 K).
  - eapply extends_by_trans; eassumption.
  - congruence.
Qed.

Lemma observing_operating p (x y : Service Endpoint * Env W S Endpoint) :
  (forall e, p e = true -> is_lifecycle e = true) ->
  observing p x y -> operating B x y.
Proof.
  intros Hp ((U & _) & T & St). split; [| split].
  - intros _. exact U.
  - eapply extends_by_weaken; eassumption.
  - exact St.
Qed.

Lemma operating_poll_service_status timeout :
  preserved (operating B) (poll_service_status (S := S) timeout).
Proof.
  intros x r x' H.
  apply observing_operating with (p := fun e => is_probe e || is_sleep e).
  - intros [] E; simpl in *; congruence.
  - revert x r x' H. unfold poll_service_status.
    apply preserved_bind; [apply observing_trans | | intros ?].
    + apply observing_poll_loop.
    + destruct a; apply preserved_ret; apply observing_refl.
Qed.

Lemma operating_is_stopped :
  preserved (operating B) (is_stopped (S := S)).
Proof.
  intros x r x' H.
  apply observing_operating with (p := is_probe).
  - intros [] E; simpl in *; congruence.
  - revert x r x' H. apply observing_is_stopped. auto.
Qed.

Lemma operating_status_update_state st err :
  preserved (operating B) (status_update_state (S := S) st err).
Proof.
  intros [s g] r x' H. inversion H; subst.
  repeat split. apply extends_by_refl.
Qed.

Lemma operating_set_admin_state a :
  preserved (operating B)
    (modify (fun x : Service Endpoint * Env W S Endpoint =>
               (set_admin_state (fst x) a, snd x))).
Proof.
  intros [s g] r x' H. inversion H; subst.
  repeat split. apply extends_by_refl.
Qed.

Lemma operating_provision :
  preserved (operating B) (call_provision (S := S)).
Proof.
  intros [s g] r x' H. unfold call_provision in H; simpl in H.
  destruct (provision s (world g)) as [[r0 s1] w] eqn:E.
  inversion H; subst. split; [| split]; simpl.
  - intros (K & _). specialize (K s (world g)). now rewrite E in K.
  - now apply extends_by_event.
  - reflexivity.
Qed.

Lemma operating_deprovision force :
  preserved (operating B) (call_deprovision (S := S) force).
Proof.
  intros [s g] r x' H. unfold call_deprovision in H; simpl in H.
  destruct (deprovision s force (world g)) as [[r0 s1] w] eqn:E.
  inversion H; subst. split; [| split]; simpl.
  - intros (_ & K & _). specialize (K s force (world g)). now rewrite E in K.
  - now apply extends_by_event.
  - reflexivity.
Qed.

Ltac operating_step :=
  match goal with
  | |- preserved _ (ret _) => apply preserved_ret; apply operating_refl
  | |- preserved _ (raise _) => apply preserved_raise; apply operating_refl
  | |- preserved _ (bind _ _) =>
      apply preserved_bind; [apply operating_trans | | intros ?]
  | |- preserved _ (try_except _ _) =>
      apply preserved_try_except; [apply operating_trans | | intros ?]
  | |- preserved _ (status_update_state _ _) =>
      apply operating_status_update_state
  | |- preserved _ (modify _) => apply operating_set_admin_state
  | |- preserved _ call_provision => apply operating_provision
  | |- preserved _ (call_deprovision _) => apply operating_deprovision
  | |- preserved _ (poll_service_status _) =>
      apply operating_poll_service_status
  | |- preserved _ is_stopped => apply operating_is_stopped
  | |- preserved _ (if ?c then _ else _) => destruct c
  | |- preserved _ (match ?c with _ => _ end) => destruct c
  end.

Lemma operating_update_service_status {A} pre post err (func : Method A) :
  preserved (operating B) func ->
  preserved (operating B) (update_service_status (S := S) pre post err func).
Proof.
  intros Hf. unfold update_service_status.
  repeat first [assumption | operating_step].
Qed.

(** What a call of [start] adds to the trace. *)
Lemma start_trace timeout s g r s' g' :
  start timeout (s, g) = (r, (s', g')) ->
  (keeps_uuid B -> uuid s' = uuid s)
  /\ store g' = store g
  /\ exists d, trace g' = (trace g ++ EvStart s timeout :: d)%list
               /\ forallb is_lifecycle d = true.
Proof.
  unfold start, bind, self, emit, modify; simpl. intros H.
  assert (P : preserved (operating B)
                (update_service_status (S := S) (Some INITIALIZING)
                   (Some RUNNING) FAILED (start_body timeout))).
  { apply operating_update_service_status. unfold start_body.
    repeat operating_step. }
  destruct (P _ _ _ H) as (U & (d & T & F) & St). simpl in *.
  repeat split; try assumption.
  exists d. rewrite T, <- app_assoc. split; [reflexivity | assumption].
Qed.

(** C4.  When the probe [check_status] raises inside [update_status],
    the call returns normally, [status.state] is [FAILED] and
    [status.last_error] is the text of the exception: the failure of the
    probe is absorbed, not propagated. *)
Theorem update_status_absorbs_probe_failure s g e w' :
  check_status s (world g) = (Raise e, w') ->
  exists s' g',
    update_status (s, g) = (Ok tt, (s', g'))
    /\ state (status s') = FAILED
    /\ last_error (status s') = str_exc e
    /\ contains (str_exc e) (last_error (status s')).
Proof.
  intros H.
  unfold update_status, try_except, bind, call_check_status,
    status_update_state, modify; simpl.
  rewrite H; simpl.
  do 2 eexists. split; [reflexivity |]. simpl.
  repeat split. apply contains_refl.
Qed.

(** C5.  An exception raised by [provision] inside [start], or by
    [deprovision] inside [stop], is re-raised to the caller as it is,
    and on that exit [status.state] is [FAILED] and [status.last_error]
    is the text of the exception; more generally, every raising exit of
    [start] or [stop] leaves that status. *)
Theorem lifecycle_failure_recorded_and_reraised :
  (forall s g timeout e s1 w1,
      provision (starting s) (world g) = (Raise e, s1, w1) ->
      exists s' g',
        start timeout (s, g) = (Raise e, (s', g'))
        /\ status s' = {| state := FAILED; last_error := str_exc e |})
  /\ (forall s g timeout force e s1 w1,
         deprovision (stopping s) force (world g) = (Raise e, s1, w1) ->
         exists s' g',
           stop timeout force (s, g) = (Raise e, (s', g'))
           /\ status s' = {| state := FAILED; last_error := str_exc e |})
  /\ (forall s g timeout e s' g',
         start timeout (s, g) = (Raise e, (s', g')) ->
         status s' = {| state := FAILED; last_error := str_exc e |})
  /\ (forall s g timeout force e s' g',
         stop timeout force (s, g) = (Raise e, (s', g')) ->
         status s' = {| state := FAILED; last_error := str_exc e |}).
Proof.
  repeat split.
  - intros s g timeout e s1 w1 H.
    unfold start, update_service_status, start_body, bind, try_except,
      call_provision, status_update_state, modify, self, emit, raise; simpl.
    unfold starting in H. simpl in H. rewrite H; simpl.
    do 2 eexists. split; reflexivity.
  - intros s g timeout force e s1 w1 H.
    unfold stop, update_service_status, stop_body, bind, try_except,
      call_deprovision, status_update_state, modify, self, emit, raise; simpl.
    unfold stopping in H. simpl in H. rewrite H; simpl.
    do 2 eexists. split; reflexivity.
  - intros s g timeout e s' g' H.
    unfold start, bind, self, emit, modify in H; simpl in H.
    apply update_service_status_exit in H. exact H.
  - intros s g timeout force e s' g' H.
    unfold stop, bind, self, emit, modify in H; simpl in H.
    apply update_service_status_exit in H. exact H.
Qed.

(** C10.  Whenever [start] or [stop] returns without raising, the
    post-state the decorator declares is the last write to the status:
    [RUNNING] after [start], [INACTIVE] after [stop], with an empty
    [last_error], whatever the probes made inside the call observed. *)
Theorem lifecycle_post_state_is_last_write :
  (forall s g timeout s' g',
      start timeout (s, g) = (Ok tt, (s', g')) ->
      status s' = {| state := RUNNING; last_error := "" |})
  /\ (forall s g timeout force s' g',
         stop timeout force (s, g) = (Ok tt, (s', g')) ->
         status s' = {| state := INACTIVE; last_error := "" |}).
Proof.
  split.
  - intros s g timeout s' g' H.
    unfold start, bind, self, emit, modify in H; simpl in H.
    apply update_service_status_exit in H. exact H.
  - intros s g timeout force s' g' H.
    unfold stop, bind, self, emit, modify in H; simpl in H.
    apply update_service_status_exit in H. exact H.
Qed.

(** C6.  [start(timeout=0)] sets [admin_state] to [RUNNING] and calls
    [provision] exactly once, on the object whose admin state is already
    [RUNNING], and makes no other call: no probe, no sleep, whatever
    [provision] does and whatever a probe would have answered.  The
    call ends as [provision] ended (it returns, or raises the same
    exception), and the service it leaves is the object [provision]
    left, with nothing but its status overwritten by the decorator: its
    admin state is the one [provision] left, hence [RUNNING] unless
    [provision] itself has reassigned it. *)
Theorem start_without_timeout_provisions_once s g :
  let p := provision (starting s) (world g) in
  let r := fst (fst p) in
  let s1 := snd (fst p) in
  admin_state (starting s) = RUNNING
  /\ start 0 (s, g)
     = (r,
        (set_status s1
           match r with
           | Ok _ => {| state := RUNNING; last_error := "" |}
           | Raise e => {| state := FAILED; last_error := str_exc e |}
           end,
         {| world := snd p; store := store g;
            trace := (trace g ++ [EvStart s 0; EvProvision (starting s)])%list
         |}))
  /\ admin_state (fst (snd (start 0 (s, g)))) = admin_state s1
  /\ (admin_state s1 = admin_state (starting s) ->
      admin_state (fst (snd (start 0 (s, g)))) = RUNNING)
  /\ count is_provision [EvStart s 0; EvProvision (starting s)] = 1
  /\ count is_probe [EvStart s 0; EvProvision (starting s)] = 0
  /\ count is_sleep [EvStart s 0; EvProvision (starting s)] = 0.
Proof.
  cbv zeta.
  assert (E : start 0 (s, g)
              = (fst (fst (provision (starting s) (world g))),
                 (set_status (snd (fst (provision (starting s) (world g))))
                    match fst (fst (provision (starting s) (world g))) with
                    | Ok _ => {| state := RUNNING; last_error := "" |}
                    | Raise e => {| state := FAILED; last_error := str_exc e |}
                    end,
                  {| world := snd (provision (starting s) (world g));
                     store := store g;
                     trace := (trace g
                               ++ [EvStart s 0; EvProvision (starting s)])%list
                  |}))).
  { unfold start, update_service_status, start_body, bind, try_except,
      call_provision, status_update_state, modify, self, emit, raise, ret;
      simpl.
    fold (starting s).
    destruct (provision (starting s) (world g)) as [[[[] | e] s1] w1]; simpl;
      unfold set_world, record_event, update_state; simpl;
      rewrite <- app_assoc; reflexivity. }
  split; [reflexivity |].
  split; [exact E |].
  rewrite E. simpl.
  split; [reflexivity |].
  split; [intros H; rewrite H; reflexivity |].
  repeat split.
Qed.

End LifecycleFacts.

(** ** The deployer: lookups *)

Section DeployerFacts.
Context {W S Endpoint : Type}.
Context {B : Backend W Endpoint} {C : StoreClient S Endpoint}.
Implicit Types (s : Service Endpoint) (g : Env W S Endpoint).

(** What one call of [update_status] adds to the trace. *)
Lemma update_status_trace s g r s' g' :
  update_status (s, g) = (r, (s', g')) ->
  r = Ok tt /\ probed s s' /\ store g' = store g
  /\ exists d, trace g' = (trace g ++ EvCheckStatus s :: d)%list
               /\ filter is_check_status d = []
               /\ filter is_update_service d = [].
Proof.
  assert (K : forall (r0 : Result unit) s0 g0 d,
             r0 = Ok tt -> probed s s0 -> store g0 = store g ->
             trace g0 = (trace g ++ EvCheckStatus s :: d)%list ->
             filter is_check_status d = [] ->
             filter is_update_service d = [] ->
             r0 = Ok tt /\ probed s s0 /\ store g0 = store g
             /\ exists d, trace g0 = (trace g ++ EvCheckStatus s :: d)%list
                          /\ filter is_check_status d = []
                          /\ filter is_update_service d = [])
    by (intros; repeat (split; [assumption |]); eauto).
  unfold update_status, try_except, bind, call_check_status,
    status_update_state, modify, self, ret; simpl.
  destruct (check_status s (world g)) as [[[st err] | e] w]; simpl.
  - destruct (ServiceState_eqb st INACTIVE).
    + intros H; inversion H; subst.
      apply K with (d := []); try reflexivity. repeat split.
    + destruct (endpoint s) as [ep |].
      * unfold call_endpoint_update_status; simpl.
        destruct (endpoint_update_status ep w) as [[[[] | e] ep'] w'];
          intros H; inversion H; subst;
          (eapply K with (d := [_]);
           [reflexivity | repeat split | reflexivity
           | simpl; rewrite <- app_assoc; reflexivity
           | reflexivity | reflexivity]).
      * intros H; inversion H; subst.
        apply K with (d := []); try reflexivity. repeat split.
  - intros H; inversion H; subst.
    apply K with (d := []); try reflexivity. repeat split.
Qed.

Lemma wrap_failure_names_uuid verb u e :
  exc_class (wrap_failure verb u e) = RuntimeError
  /\ exc_cause (wrap_failure verb u e) = Some e
  /\ contains (str_uuid u) (str_exc (wrap_failure verb u e))
  /\ contains (str_exc e) (str_exc (wrap_failure verb u e)).
Proof.
  repeat split; simpl.
  - exists ("Failed to " ++ verb ++ " model server with UUID "),
      (": " ++ str_exc e).
    now rewrite !append_assoc.
  - exists ("Failed to " ++ verb ++ " model server with UUID "
              ++ str_uuid u ++ ": "), "".
    now rewrite !append_assoc, append_empty_r.
Qed.

Lemma from_model_uuid (r : ServiceResponse Endpoint) s :
  from_model r = Ok s -> uuid s = resp_id r.
Proof.
  unfold from_model.
  destruct (truthy _); [| discriminate].
  destruct (resp_service_source r) as [src |]; [| discriminate].
  destruct (load_and_validate_class src); [| discriminate].
  destruct (resp_admin_state r), (resp_status r); try discriminate.
  intros H; inversion H; reflexivity.
Qed.

(** One iteration of the loop of [find_model_server] that returns. *)
Lemma revive_and_probe_spec (r : ServiceResponse Endpoint) g s g' :
  revive_and_probe r g = (Ok s, g') ->
  exists s0 d,
    from_model r = Ok s0 /\ probed s0 s
    /\ trace g' = (trace g ++ d)%list
    /\ filter is_check_status d = [EvCheckStatus s0]
    /\ filter is_update_service d
       = if status_differs s r then [EvUpdateService (status_update_of s)]
         else [].
Proof.
  unfold revive_and_probe, bind, lift_result, on_service, ret.
  destruct (from_model r) as [s0 | e] eqn:E0; [| discriminate].
  destruct (update_status (s0, g)) as [r1 [s1 g1]] eqn:E1.
  destruct (update_status_trace _ _ E1) as (-> & Hp & _ & d & Ht & Hc & Hu).
  simpl.
  destruct (status_differs s1 r) eqn:Ed.
  - unfold client_update_service; simpl.
    destruct (update_service (status_update_of s1) (store g1)) as [[[] | e] st];
      [| discriminate].
    intros H; inversion H; subst.
    exists s0, (EvCheckStatus s0 :: d ++ [EvUpdateService (status_update_of s)])%list.
    rewrite Ed. repeat (split; [assumption || reflexivity |]). simpl.
    rewrite Ht, <- !app_assoc. simpl.
    rewrite !filter_app, Hc, Hu. simpl. repeat split.
  - intros H; inversion H; subst.
    exists s0, (EvCheckStatus s0 :: d)%list.
    rewrite Ed. repeat (split; [assumption || reflexivity |]). simpl.
    rewrite Hc, Hu. repeat split.
Qed.

Lemma find_loop_spec (items : list (ServiceResponse Endpoint)) :
  forall g svcs g',
    find_loop items g = (Ok svcs, g') ->
    exists revived d,
      map from_model items = map Ok revived
      /\ Forall2 probed revived svcs
      /\ trace g' = (trace g ++ d)%list
      /\ filter is_check_status d = map (@EvCheckStatus Endpoint) revived
      /\ filter is_update_service d = write_backs items svcs.
Proof.
  induction items as [| r items IH]; intros g svcs g' H; simpl in H.
  - inversion H; subst. exists [], []. rewrite app_nil_r.
    repeat split. constructor.
  - unfold bind in H.
    destruct (revive_and_probe r g) as [[s | e] g1] eqn:E1; [| discriminate].
    destruct (find_loop items g1) as [[l | e] g2] eqn:E2; [| discriminate].
    inversion H; subst.
    destruct (revive_and_probe_spec _ _ E1) as (s0 & d1 & F0 & P0 & T1 & C1 & U1).
    destruct (IH _ _ _ E2) as (rev & d2 & F & P & T2 & C2 & U2).
    exists (s0 :: rev), (d1 ++ d2)%list. simpl.
    rewrite F0, F, T2, T1, <- app_assoc, !filter_app, C1, C2, U1, U2.
    repeat split.
    + constructor; assumption.
    + unfold write_backs. simpl. destruct (status_differs s r); reflexivity.
Qed.

Lemma Forall2_probed_uuid (l1 l2 : list (Service Endpoint)) :
  Forall2 probed l1 l2 ->
  map (@uuid Endpoint) l2 = map (@uuid Endpoint) l1.
Proof.
  induction 1 as [| a b l1 l2 Hab _ IH]; simpl; [reflexivity |].
  destruct Hab as (-> & _). now rewrite IH.
Qed.

Lemma revived_uuids (items : list (ServiceResponse Endpoint)) :
  forall revived,
    map from_model items = map Ok revived ->
    map (@uuid Endpoint) revived = map (@resp_id Endpoint) items.
Proof.
  induction items as [| r items IH]; intros [| s0 rev] H; simpl in *;
    try discriminate; [reflexivity |].
  inversion H. erewrite from_model_uuid by eassumption.
  f_equal. now apply IH.
Qed.

(** The services of a lookup that returns carry, in order, the ids of the
    records the store listed. *)
Lemma find_model_server_uuids a g svcs g' :
  find_model_server a g = (Ok svcs, g') ->
  exists mv items g0 g1,
    _get_model_version_id_if_exists (f_model_name a) (f_model_version a) g
    = (Ok mv, g0)
    /\ client_list_services (list_args_of a mv) g0 = (Ok items, g1)
    /\ map (@uuid Endpoint) svcs = map (@resp_id Endpoint) items.
Proof.
  unfold find_model_server, bind. intros H.
  destruct (_get_model_version_id_if_exists _ _ g) as [[mv | e] g0] eqn:E0;
    [| discriminate].
  destruct (client_list_services _ g0) as [[items | e] g1] eqn:E1;
    [| discriminate].
  destruct (find_loop_spec _ _ H) as (rev & d & F & P & _).
  exists mv, items, g0, g1. split; [reflexivity |]. split; [assumption |].
  rewrite (Forall2_probed_uuid P). now apply revived_uuids.
Qed.

(** C7.  A lookup that returns has, for every record the store listed
    (the listing is asked newest-created-first), revived a service from
    the record and probed it afresh, exactly once; it has written back
    to the store exactly the records whose freshly probed status differs
    from the status on record; and it returns the revived services, one
    for each record, in the order of the listing. *)
Theorem find_model_server_reconciles a g svcs g' :
  find_model_server a g = (Ok svcs, g') ->
  exists mv items g0 g1 revived d,
    _get_model_version_id_if_exists (f_model_name a) (f_model_version a) g
    = (Ok mv, g0)
    /\ client_list_services (list_args_of a mv) g0 = (Ok items, g1)
    /\ ls_sort_by (list_args_of a mv) = "desc:created"
    /\ map from_model items = map Ok revived
    /\ Forall2 probed revived svcs
    /\ map (@uuid Endpoint) svcs = map (@resp_id Endpoint) items
    /\ trace g' = (trace g1 ++ d)%list
    /\ filter is_check_status d = map (@EvCheckStatus Endpoint) revived
    /\ filter is_update_service d = write_backs items svcs.
Proof.
  unfold find_model_server, bind. intros H.
  destruct (_get_model_version_id_if_exists _ _ g) as [[mv | e] g0] eqn:E0;
    [| discriminate].
  destruct (client_list_services _ g0) as [[items | e] g1] eqn:E1;
    [| discriminate].
  destruct (find_loop_spec _ _ H) as (rev & d & F & P & T & Cs & U).
  exists mv, items, g0, g1, rev, d.
  repeat (split; [assumption || reflexivity |]).
  split; [| repeat split; assumption].
  rewrite (Forall2_probed_uuid P). now apply revived_uuids.
Qed.

Lemma count_0_of_class (p q : Event Endpoint -> bool) d :
  (forall e, p e = true -> q e = false) ->
  forallb p d = true -> count q d = 0.
Proof.
  intros Hpq. unfold count.
  induction d as [| e d IH]; simpl; [reflexivity |].
  intros H. apply andb_true_iff in H as [He Hd].
  rewrite (Hpq _ He). now apply IH.
Qed.

Lemma count_app (q : Event Endpoint -> bool) d1 d2 :
  count q (d1 ++ d2)%list = count q d1 + count q d2.
Proof. unfold count. now rewrite filter_app, length_app. Qed.

Ltac no_such_event F :=
  unfold count; simpl; rewrite ?filter_app; simpl; rewrite ?app_nil_r;
  try reflexivity;
  apply count_0_of_class with (p := is_lifecycle);
  [intros [] ?; simpl in *; congruence | exact F].

(** C1.  When the lookup of [deploy_model(config, service_type,
    replace=True, timeout)] finds existing services, the deployer calls
    [perform_delete_model] exactly once, with [force=True], on the first
    (newest) of them, and neither creates a record nor calls
    [perform_deploy_model]; once that call has returned it calls
    [update(config)] exactly once and [start(timeout)] exactly once on
    that same object; and the service it returns is the one it has
    written back to the store, with the uuid of the existing one (the
    backend leaving the uuid of the object alone). *)
Theorem deploy_model_replaces_in_place cfg ty timeout g s rest g1 :
  find_model_server (find_by_identity cfg ty) g = (Ok (s :: rest), g1) ->
  exists r g' d,
    deploy_model cfg ty true timeout g = (r, g')
    /\ trace g' = (trace g1 ++ EvPerformDelete s timeout true :: d)%list
    /\ count is_perform_delete d = 0
    /\ count is_create_service d = 0
    /\ count is_perform_deploy d = 0
    /\ (forall s1 w1,
          perform_delete_model s timeout true (world g1) = (Ok tt, s1, w1) ->
          exists d',
            d = (EvUpdate s1 cfg :: EvStart (set_config s1 cfg) timeout :: d')%list
            /\ count is_update d' = 0
            /\ count is_start d' = 0)
    /\ (forall s', r = Ok s' ->
          (exists d', d = (d' ++ [EvUpdateService (snapshot_of s')])%list)
          /\ (keeps_uuid B -> uuid s' = uuid s)).
Proof.
  intros H.
  unfold deploy_model, bind. rewrite H. simpl.
  unfold call_perform_delete_model; simpl.
  destruct (perform_delete_model s timeout true (world g1))
    as [[[[] | e] s1] w1] eqn:Ed.
  2:{ do 2 eexists. exists []. split; [reflexivity |].
      repeat (split; [reflexivity |]).
      split; intros; discriminate. }
  unfold on_service at 1. unfold update, bind, self, emit, modify; simpl.
  unfold on_service.
  match goal with
  | |- context [start timeout ?x] =>
      destruct (start timeout x) as [[[] | e] [s3 g3]] eqn:Es
  end.
  2:{ destruct (start_trace _ _ _ Es) as (_ & _ & d & T & F). simpl in T.
      do 2 eexists.
      exists (EvUpdate s1 cfg :: EvStart (set_config s1 cfg) timeout :: d)%list.
      split; [reflexivity |].
      split; [rewrite T, <- !app_assoc; reflexivity |].
      split; [no_such_event F |].
      split; [no_such_event F |].
      split; [no_such_event F |].
      split; [| intros; discriminate].
      intros s1' w1' E. inversion E; subst s1' w1'.
      exists d. split; [reflexivity |].
      split; no_such_event F. }
  destruct (start_trace _ _ _ Es) as (U & _ & d & T & F). simpl in T, U.
  unfold client_update_service; simpl.
  assert (Hd : forall s1' w1',
             (Ok tt, s1, w1) = (Ok tt, s1', w1') ->
             exists d',
               (EvUpdate s1 cfg :: EvStart (set_config s1 cfg) timeout
                  :: d ++ [EvUpdateService (snapshot_of s3)])%list
               = (EvUpdate s1' cfg :: EvStart (set_config s1' cfg) timeout
                    :: d')%list
               /\ count is_update d' = 0 /\ count is_start d' = 0).
  { intros s1' w1' E. inversion E; subst s1' w1'.
    exists (d ++ [EvUpdateService (snapshot_of s3)])%list.
    split; [reflexivity |]. split; no_such_event F. }
  destruct (update_service (snapshot_of s3) (store g3)) as [[[] | e] st4];
    do 2 eexists;
    exists (EvUpdate s1 cfg :: EvStart (set_config s1 cfg) timeout
              :: d ++ [EvUpdateService (snapshot_of s3)])%list;
    (split; [reflexivity |]);
    (split; [simpl; rewrite T, <- !app_assoc; reflexivity |]);
    (split; [no_such_event F |]);
    (split; [no_such_event F |]);
    (split; [no_such_event F |]);
    (split; [exact Hd |]);
    intros s' Hs; inversion Hs; subst s'.
  split.
  - exists (EvUpdate s1 cfg :: EvStart (set_config s1 cfg) timeout :: d)%list.
    reflexivity.
  - intros K. rewrite (U K). simpl.
    destruct K as (_ & _ & K). specialize (K s timeout true (world g1)).
    now rewrite Ed in K.
Qed.

(** A lookup by uuid that the store answers with no record. *)
Lemma find_by_uuid_nothing u g st' :
  list_services (list_args_of (find_by_uuid u) None) (store g) = (Ok [], st') ->
  find_model_server (find_by_uuid u) g
  = (Ok [],
     {| world := world g; store := st';
        trace := (trace g
                  ++ [EvListServices (list_args_of (find_by_uuid u) None)])%list
     |}).
Proof.
  intros H.
  unfold find_model_server, bind, client_list_services; simpl.
  rewrite H. reflexivity.
Qed.

(** C9.  For a uuid that has no record in the store, [stop_model_server],
    [start_model_server] and [delete_model_server] each fail with a
    [RuntimeError] whose cause is the original error (the [IndexError]
    of [services[0]]) and whose message names the uuid; the store was
    asked once and no backend operation was attempted. *)
Theorem unknown_uuid_is_fatal u g st' :
  list_services (list_args_of (find_by_uuid u) None) (store g) = (Ok [], st') ->
  let g' := {| world := world g; store := st';
               trace := (trace g ++ [EvListServices
                                       (list_args_of (find_by_uuid u) None)])%list
            |} in
  (forall timeout force,
      stop_model_server u timeout force g
      = (Raise (wrap_failure "stop" u index_error), g'))
  /\ (forall timeout,
         start_model_server u timeout g
         = (Raise (wrap_failure "start" u index_error), g'))
  /\ (forall timeout force,
         delete_model_server u timeout force g
         = (Raise (wrap_failure "delete" u index_error), g'))
  /\ (forall verb,
         exc_class (wrap_failure verb u index_error) = RuntimeError
         /\ exc_cause (wrap_failure verb u index_error) = Some index_error
         /\ contains (str_uuid u) (str_exc (wrap_failure verb u index_error))).
Proof.
  intros H g'. repeat split.
  - intros. unfold stop_model_server, try_except, bind.
    rewrite (find_by_uuid_nothing _ _ H). reflexivity.
  - intros. unfold start_model_server, try_except, bind.
    rewrite (find_by_uuid_nothing _ _ H). reflexivity.
  - intros. unfold delete_model_server, try_except, bind.
    rewrite (find_by_uuid_nothing _ _ H). reflexivity.
  - apply wrap_failure_names_uuid.
Qed.

End DeployerFacts.

(** ** Properties of the store that every operation keeps *)

Section StoreInvariants.
Context {W S Endpoint : Type}.
Context {B : Backend W Endpoint} {C : StoreClient S Endpoint}.
Variable I : S -> Prop.
Hypothesis I_list : forall a st, I st -> I (snd (list_services a st)).
Hypothesis I_create :
  forall cfg ty mv st, I st -> I (snd (create_service cfg ty mv st)).
Hypothesis I_update : forall u st, I st -> I (snd (update_service u st)).
Hypothesis I_delete : forall u st, I st -> I (snd (delete_service u st)).
Hypothesis I_resolve :
  forall n v st, I st -> I (snd (get_model_version n v st)).

Implicit Types (s : Service Endpoint) (g : Env W S Endpoint).

#[local] Abbreviation kept := (@keeping Endpoint W S I).

Lemma keeping_refl g : keeping I g g.
Proof. intros H; exact H. Qed.

Lemma keeping_trans g1 g2 g3 :
  keeping I g1 g2 -> keeping I g2 g3 -> keeping I g1 g3.
Proof. unfold keeping. auto. Qed.

Lemma keeping_same_store g g' : store g' = store g -> keeping I g g'.
Proof. intros E H. now rewrite E. Qed.

Lemma keeping_list_services a : preserved kept (client_list_services a).
Proof.
  intros g r g' H. unfold client_list_services in H; simpl in H.
  destruct (list_services a (store g)) as [r0 st] eqn:E.
  inversion H; subst. intros HI; simpl.
  specialize (I_list a HI). now rewrite E in I_list.
Qed.

Lemma keeping_create_service cfg ty mv :
  preserved kept (client_create_service cfg ty mv).
Proof.
  intros g r g' H. unfold client_create_service in H; simpl in H.
  destruct (create_service cfg ty mv (store g)) as [r0 st] eqn:E.
  inversion H; subst. intros HI; simpl.
  specialize (I_create cfg ty mv HI). now rewrite E in I_create.
Qed.

Lemma keeping_update_service u : preserved kept (client_update_service u).
Proof.
  intros g r g' H. unfold client_update_service in H; simpl in H.
  destruct (update_service u (store g)) as [r0 st] eqn:E.
  inversion H; subst. intros HI; simpl.
  specialize (I_update u HI). now rewrite E in I_update.
Qed.

Lemma keeping_delete_service u : preserved kept (client_delete_service u).
Proof.
  intros g r g' H. unfold client_delete_service in H; simpl in H.
  destruct (delete_service u (store g)) as [r0 st] eqn:E.
  inversion H; subst. intros HI; simpl.
  specialize (I_delete u HI). now rewrite E in I_delete.
Qed.

Lemma keeping_resolve mn mv :
  preserved kept (_get_model_version_id_if_exists mn mv).
Proof.
  intros g r g' H. unfold _get_model_version_id_if_exists in H.
  destruct mn as [n |]; [| inversion H; subst; apply keeping_refl].
  destruct (String.eqb n ""); [inversion H; subst; apply keeping_refl |].
  unfold client_get_model_version in H; simpl in H.
  destruct (get_model_version n mv (store g)) as [r0 st] eqn:E.
  intros HI. specialize (I_resolve n mv HI). rewrite E in I_resolve.
  destruct r0 as [id | e]; [inversion H; subst; exact I_resolve |].
  destruct (is_KeyError e); inversion H; subst; exact I_resolve.
Qed.

Lemma keeping_perform_deploy id cfg timeout :
  preserved kept (call_perform_deploy_model id cfg timeout).
Proof.
  intros g r g' H. unfold call_perform_deploy_model in H; simpl in H.
  destruct (perform_deploy_model id cfg timeout (world g)).
  inversion H; subst. now apply keeping_same_store.
Qed.

Lemma keeping_perform_stop s timeout force :
  preserved kept (call_perform_stop_model s timeout force).
Proof.
  intros g r g' H. unfold call_perform_stop_model in H; simpl in H.
  destruct (perform_stop_model s timeout force (world g)).
  inversion H; subst. now apply keeping_same_store.
Qed.

Lemma keeping_perform_start s timeout :
  preserved kept (call_perform_start_model s timeout).
Proof.
  intros g r g' H. unfold call_perform_start_model in H; simpl in H.
  destruct (perform_start_model s timeout (world g)).
  inversion H; subst. now apply keeping_same_store.
Qed.

Lemma keeping_perform_delete s timeout force :
  preserved kept (call_perform_delete_model s timeout force).
Proof.
  intros g r g' H. unfold call_perform_delete_model in H; simpl in H.
  destruct (perform_delete_model s timeout force (world g)) as [[[|] ?] ?];
    inversion H; subst; now apply keeping_same_store.
Qed.

(** A method of a service never touches the store. *)
Lemma keeping_on_service {A} (m : Method A) s :
  (forall x r x', m x = (r, x') -> store (snd x') = store (snd x)) ->
  preserved kept (on_service m s).
Proof.
  intros Hm g r g' H. unfold on_service in H.
  destruct (m (s, g)) as [[a | e] [s1 g1]] eqn:E;
    inversion H; subst; apply keeping_same_store;
    exact (Hm _ _ _ E).
Qed.

Lemma update_status_store (x x' : Service Endpoint * Env W S Endpoint) r :
  update_status x = (r, x') -> store (snd x') = store (snd x).
Proof.
  destruct x as [s g], x' as [s' g']. intros H.
  now destruct (update_status_trace _ _ H) as (_ & _ & E & _).
Qed.

Lemma update_store cfg (x x' : Service Endpoint * Env W S Endpoint) r :
  update cfg x = (r, x') -> store (snd x') = store (snd x).
Proof. intros H. inversion H; subst. reflexivity. Qed.

Lemma start_store timeout (x x' : Service Endpoint * Env W S Endpoint) r :
  start timeout x = (r, x') -> store (snd x') = store (snd x).
Proof.
  destruct x as [s g], x' as [s' g']. intros H.
  now destruct (start_trace _ _ _ H) as (_ & E & _).
Qed.

Ltac keeping_step :=
  match goal with
  | |- preserved _ (ret _) => apply preserved_ret; apply keeping_refl
  | |- preserved _ (raise _) => apply preserved_raise; apply keeping_refl
  | |- preserved _ (bind _ _) =>
      apply preserved_bind; [apply keeping_trans | | intros ?]
  | |- preserved _ (try_except _ _) =>
      apply preserved_try_except; [apply keeping_trans | | intros ?]
  | |- preserved _ (client_list_services _) => apply keeping_list_services
  | |- preserved _ (client_create_service _ _ _) =>
      apply keeping_create_service
  | |- preserved _ (client_update_service _) => apply keeping_update_service
  | |- preserved _ (client_delete_service _) => apply keeping_delete_service
  | |- preserved _ (_get_model_version_id_if_exists _ _) =>
      apply keeping_resolve
  | |- preserved _ (call_perform_deploy_model _ _ _) =>
      apply keeping_perform_deploy
  | |- preserved _ (call_perform_stop_model _ _ _) =>
      apply keeping_perform_stop
  | |- preserved _ (call_perform_start_model _ _) =>
      apply keeping_perform_start
  | |- preserved _ (call_perform_delete_model _ _ _) =>
      apply keeping_perform_delete
  | |- preserved _ (on_service update_status _) =>
      apply keeping_on_service; intros ? ? ?; apply update_status_store
  | |- preserved _ (on_service (update _) _) =>
      apply keeping_on_service; intros ? ? ?; apply update_store
  | |- preserved _ (on_service (start _) _) =>
      apply keeping_on_service; intros ? ? ?; apply start_store
  | |- preserved _ (lift_result _) =>
      let H := fresh in
      intros ? ? ? H; inversion H; subst; apply keeping_refl
  | |- preserved _ (first_service ?l) => destruct l; simpl
  | |- preserved _ (if ?c then _ else _) => destruct c
  | |- preserved _ (match ?c with _ => _ end) => destruct c
  end.

Lemma keeping_find_loop items : preserved kept (find_loop items).
Proof.
  induction items as [| r items IH]; simpl.
  - keeping_step.
  - unfold revive_and_probe. repeat first [exact IH | keeping_step].
Qed.

Lemma keeping_find_model_server a :
  preserved kept (find_model_server a).
Proof.
  unfold find_model_server.
  repeat first [apply keeping_find_loop | keeping_step].
Qed.

Lemma keeping_deploy_model cfg ty replace timeout :
  preserved kept (deploy_model cfg ty replace timeout).
Proof.
  unfold deploy_model.
  repeat first [apply keeping_find_model_server | keeping_step].
Qed.

Lemma keeping_stop_model_server u timeout force :
  preserved kept (stop_model_server u timeout force).
Proof.
  unfold stop_model_server.
  repeat first [apply keeping_find_model_server | keeping_step].
Qed.

Lemma keeping_start_model_server u timeout :
  preserved kept (start_model_server u timeout).
Proof.
  unfold start_model_server.
  repeat first [apply keeping_find_model_server | keeping_step].
Qed.

Lemma keeping_delete_model_server u timeout force :
  preserved kept (delete_model_server u timeout force).
Proof.
  unfold delete_model_server.
  repeat first [apply keeping_find_model_server | keeping_step].
Qed.

Lemma keeping_run_call c g : keeping I g (run_call c g).
Proof.
  destruct c; simpl.
  - destruct (deploy_model cfg ty replace timeout g) eqn:E.
    eapply keeping_deploy_model; eassumption.
  - destruct (find_model_server a g) eqn:E.
    eapply keeping_find_model_server; eassumption.
  - destruct (stop_model_server u timeout force g) eqn:E.
    eapply keeping_stop_model_server; eassumption.
  - destruct (start_model_server u timeout g) eqn:E.
    eapply keeping_start_model_server; eassumption.
  - destruct (delete_model_server u timeout force g) eqn:E.
    eapply keeping_delete_model_server; eassumption.
Qed.

Lemma keeping_run_calls cs : forall g, keeping I g (run_calls cs g).
Proof.
  induction cs as [| c cs IH]; intros g; simpl.
  - apply keeping_refl.
  - eapply keeping_trans; [apply keeping_run_call | apply IH].
Qed.

End StoreInvariants.

(** ** The store of record *)

Section SimpleStoreFacts.
Context {Endpoint : Type}.
Implicit Types (st : StoreState Endpoint) (r : ServiceResponse Endpoint).

Lemma In_insert_newest_first r x (l : list (ServiceResponse Endpoint)) :
  In x (insert_newest_first r l) <-> x = r \/ In x l.
Proof.
  induction l as [| y l IH]; simpl.
  - intuition congruence.
  - destruct (resp_created y <=? resp_created r)%N; simpl.
    + intuition congruence.
    + rewrite IH. intuition congruence.
Qed.

Lemma In_newest_first x (l : list (ServiceResponse Endpoint)) :
  In x (newest_first l) <-> In x l.
Proof.
  induction l as [| y l IH]; simpl; [tauto |].
  rewrite In_insert_newest_first, IH. intuition congruence.
Qed.

Lemma In_select a st x :
  In x (select a st) -> In x (records st) /\ matches a x = true.
Proof.
  unfold select. rewrite In_newest_first, filter_In. tauto.
Qed.

Lemma apply_update_id u r : resp_id (apply_update u r) = resp_id r.
Proof. unfold apply_update. destruct (N.eqb _ _); reflexivity. Qed.

Lemma has_id_true u st :
  has_id u st = true -> exists r, In r (records st) /\ resp_id r = u.
Proof.
  unfold has_id. rewrite existsb_exists.
  intros (r & Hin & E). exists r. split; [assumption |].
  now apply N.eqb_eq.
Qed.

Lemma ids_issued_list a st : ids_issued st -> ids_issued (snd (list_services a st)).
Proof. auto. Qed.

Lemma ids_issued_create cfg ty mv st :
  ids_issued st -> ids_issued (snd (create_service cfg ty mv st)).
Proof.
  unfold ids_issued; simpl. intros H. constructor; simpl; [lia |].
  eapply Forall_impl; [| exact H]. simpl. intros; lia.
Qed.

Lemma ids_issued_update u st :
  ids_issued st -> ids_issued (snd (update_service u st)).
Proof.
  unfold ids_issued; simpl. unfold store_update_service.
  destruct (has_id _ _); simpl; [| auto].
  intros H. rewrite Forall_map.
  eapply Forall_impl; [| exact H]. simpl. intros r.
  now rewrite apply_update_id.
Qed.

Lemma ids_issued_delete u st :
  ids_issued st -> ids_issued (snd (delete_service u st)).
Proof.
  unfold ids_issued; simpl. unfold store_delete_service.
  destruct (has_id _ _); simpl; [| auto].
  intros H. rewrite Forall_forall in *. intros r Hr.
  apply filter_In in Hr as [Hr _]. auto.
Qed.

Lemma ids_issued_resolve n v st :
  ids_issued st -> ids_issued (snd (get_model_version n v st)).
Proof.
  simpl. unfold store_get_model_version.
  destruct (lookup_model_version _ _ _); auto.
Qed.

Lemma gone_list u a st : gone u st -> gone u (snd (list_services a st)).
Proof. auto. Qed.

Lemma gone_create u cfg ty mv st :
  gone u st -> gone u (snd (create_service cfg ty mv st)).
Proof.
  unfold gone; simpl. intros [Hu H]. split; [lia |].
  constructor; simpl; [lia |].
  eapply Forall_impl; [| exact H]. simpl. intros r [? ?]. split; [lia | auto].
Qed.

Lemma gone_update u upd st :
  gone u st -> gone u (snd (update_service upd st)).
Proof.
  unfold gone; simpl. unfold store_update_service.
  destruct (has_id _ _); simpl; [| auto].
  intros [Hu H]. split; [assumption |]. rewrite Forall_map.
  eapply Forall_impl; [| exact H]. simpl. intros r.
  now rewrite apply_update_id.
Qed.

Lemma gone_delete u id st :
  gone u st -> gone u (snd (delete_service id st)).
Proof.
  unfold gone; simpl. unfold store_delete_service.
  destruct (has_id _ _); simpl; [| auto].
  intros [Hu H]. split; [assumption |]. rewrite Forall_forall in *.
  intros r Hr. apply filter_In in Hr as [Hr _]. auto.
Qed.

Lemma gone_resolve u n v st :
  gone u st -> gone u (snd (get_model_version n v st)).
Proof.
  simpl. unfold store_get_model_version.
  destruct (lookup_model_version _ _ _); auto.
Qed.

(** Deleting a record that was issued leaves its id gone. *)
Lemma delete_makes_gone u st st' :
  ids_issued st ->
  store_delete_service u st = (Ok tt, st') ->
  gone u st' /\ has_id u st' = false.
Proof.
  unfold store_delete_service, ids_issued.
  destruct (has_id u st) eqn:E; [| discriminate].
  intros H Hd. inversion Hd; subst; clear Hd.
  apply has_id_true in E as (r0 & Hin & Er).
  rewrite Forall_forall in H.
  split; [split |]; simpl.
  - rewrite <- Er. auto.
  - rewrite Forall_forall. intros r Hr.
    apply filter_In in Hr as [Hr Hne]. split; [auto |].
    apply negb_true_iff, N.eqb_neq in Hne. exact Hne.
  - unfold has_id; simpl.
    apply not_true_is_false. intros Hex.
    apply existsb_exists in Hex as (r & Hr & Eq).
    apply filter_In in Hr as [_ Hne].
    rewrite Eq in Hne. discriminate.
Qed.

End SimpleStoreFacts.

(** ** Deletion *)

Section Deletion.
Context {W Endpoint : Type} {B : Backend W Endpoint}.
Implicit Types (g : Env W (StoreState Endpoint) Endpoint).

Lemma delete_model_server_gone u timeout force g g' :
  ids_issued (store g) ->
  delete_model_server u timeout force g = (Ok tt, g') ->
  gone u (store g') /\ has_id u (store g') = false.
Proof.
  intros Hwf H.
  unfold delete_model_server, try_except, bind in H.
  destruct (find_model_server (find_by_uuid u) g) as [[l | e] g1] eqn:E1;
    [| discriminate].
  assert (H1 : ids_issued (store g1)).
  { eapply (keeping_find_model_server (@ids_issued Endpoint));
      eauto using ids_issued_list, ids_issued_update, ids_issued_resolve. }
  destruct l as [| s l]; simpl in H; [discriminate |].
  unfold call_perform_delete_model in H; simpl in H.
  destruct (perform_delete_model s timeout force (world g1))
    as [[[[] | e] s1] w1]; [| discriminate].
  unfold client_delete_service in H; simpl in H.
  destruct (store_delete_service u (store g1)) as [[[] | e] st'] eqn:Ed;
    [| discriminate].
  inversion H; subst; simpl.
  eapply delete_makes_gone; eassumption.
Qed.

Lemma find_model_server_skips_gone u a g svcs g' :
  gone u (store g) ->
  find_model_server a g = (Ok svcs, g') ->
  ~ In u (map (@uuid Endpoint) svcs).
Proof.
  intros Hg H.
  destruct (find_model_server_uuids _ _ H)
    as (mv & items & g0 & g1 & E0 & E1 & Hu).
  rewrite Hu.
  assert (H0 : gone u (store g0)).
  { eapply (keeping_resolve (@gone Endpoint u)); eauto using gone_resolve. }
  unfold client_list_services in E1; simpl in E1.
  inversion E1; subst; clear E1.
  rewrite in_map_iff. intros (r & Er & Hin).
  apply In_select in Hin as [Hin _].
  destruct H0 as [_ H0]. rewrite Forall_forall in H0.
  now apply (H0 r Hin).
Qed.

(** C8.  After [delete_model_server(uuid)] has completed, the store has
    no record for that uuid, and whatever the deployer is asked next
    (deployments, lookups, stops, starts, deletions, returning or
    raising), no lookup returns a service with that uuid, whatever its
    filters. *)
Theorem deleted_service_never_found u timeout force g g' :
  ids_issued (store g) ->
  delete_model_server u timeout force g = (Ok tt, g') ->
  has_id u (store g') = false
  /\ forall calls a svcs g'',
      find_model_server a (run_calls calls g') = (Ok svcs, g'') ->
      ~ In u (map (@uuid Endpoint) svcs).
Proof.
  intros Hwf H.
  destruct (delete_model_server_gone _ _ _ _ Hwf H) as [Hg Hn].
  split; [exact Hn |].
  intros calls a svcs g'' Hf.
  eapply find_model_server_skips_gone; [| exact Hf].
  eapply (keeping_run_calls (@gone Endpoint u));
    eauto using gone_list, gone_create, gone_update, gone_delete, gone_resolve.
Qed.

End Deletion.

(** ** Lookups by identity read only the key of a record *)

Section Keys.
Context {Endpoint : Type}.
Implicit Types (st : StoreState Endpoint) (r : ServiceResponse Endpoint).
Implicit Types (l : list (ServiceResponse Endpoint)).

Lemma same_keys_refl st : same_keys st st.
Proof. repeat split. Qed.

Lemma same_keys_trans st1 st2 st3 :
  same_keys st1 st2 -> same_keys st2 st3 -> same_keys st1 st3.
Proof.
  unfold same_keys. intros (? & ? & ?) (? & ? & ?).
  repeat split; congruence.
Qed.

Lemma cons_eq_inv {A} (a b : A) (l l' : list A) :
  a :: l = b :: l' -> a = b /\ l = l'.
Proof. intros H. now inversion H. Qed.

Lemma key_of_id r r' : key_of r = key_of r' -> resp_id r = resp_id r'.
Proof. unfold key_of. intros H. now inversion H. Qed.

Lemma map_key_of_ids l l' :
  map (@key_of Endpoint) l = map (@key_of Endpoint) l' ->
  map (@resp_id Endpoint) l = map (@resp_id Endpoint) l'.
Proof.
  revert l'. induction l as [| r l IH]; intros [| r' l'] H; simpl in *;
    try discriminate; [reflexivity |].
  apply cons_eq_inv in H as [Hk Hl]. rewrite (key_of_id Hk). f_equal.
  now apply IH.
Qed.

Lemma matches_key a r r' :
  plain a -> key_of r = key_of r' -> matches a r = matches a r'.
Proof.
  intros [Hr Hn] H. unfold key_of, identity_of in H.
  inversion H as [[E1 E2 E3 E4 E5 E6 E7 E8 E9]].
  unfold matches. rewrite Hr, Hn, E1, E3, E4, E5, E6, E7. reflexivity.
Qed.

Lemma filter_keys a l :
  plain a ->
  forall l',
    map (@key_of Endpoint) l = map (@key_of Endpoint) l' ->
    map (@key_of Endpoint) (filter (matches a) l)
    = map (@key_of Endpoint) (filter (matches a) l').
Proof.
  intros Hp. induction l as [| r l IH]; intros [| r' l'] H; simpl in *;
    try discriminate; [reflexivity |].
  apply cons_eq_inv in H as [Hk Hl].
  rewrite (matches_key Hp Hk).
  destruct (matches a r'); simpl; [rewrite Hk; f_equal |]; now apply IH.
Qed.

Lemma insert_keys r r' l :
  key_of r = key_of r' ->
  forall l',
    map (@key_of Endpoint) l = map (@key_of Endpoint) l' ->
    map (@key_of Endpoint) (insert_newest_first r l)
    = map (@key_of Endpoint) (insert_newest_first r' l').
Proof.
  intros Hk. induction l as [| x l IH]; intros [| x' l'] H; simpl in *;
    try discriminate.
  - now rewrite Hk.
  - apply cons_eq_inv in H as [Hx Hl].
    assert (Ec : resp_created x = resp_created x')
      by (unfold key_of in Hx; now inversion Hx).
    assert (Er : resp_created r = resp_created r')
      by (unfold key_of in Hk; now inversion Hk).
    rewrite Ec, Er.
    destruct (resp_created x' <=? resp_created r')%N; simpl.
    + now rewrite Hk, Hx, Hl.
    + rewrite Hx. f_equal. now apply IH.
Qed.

Lemma newest_first_keys l :
  forall l',
    map (@key_of Endpoint) l = map (@key_of Endpoint) l' ->
    map (@key_of Endpoint) (newest_first l)
    = map (@key_of Endpoint) (newest_first l').
Proof.
  induction l as [| r l IH]; intros [| r' l'] H; simpl in *;
    try discriminate; [reflexivity |].
  apply cons_eq_inv in H as [Hk Hl].
  apply insert_keys; [assumption | now apply IH].
Qed.

(** Two stores with the same keys answer a plain listing with the same
    ids, in the same order. *)
Lemma select_same_keys a st st' :
  plain a -> same_keys st st' ->
  map (@resp_id Endpoint) (select a st') = map (@resp_id Endpoint) (select a st).
Proof.
  intros Hp (Hk & _). apply map_key_of_ids. unfold select.
  apply newest_first_keys. now apply filter_keys.
Qed.

Lemma newest_first_nil l : newest_first l = [] -> l = [].
Proof.
  destruct l as [| r l]; [reflexivity |]. simpl.
  destruct (newest_first l) as [| x l0]; simpl; [discriminate |].
  destruct (resp_created x <=? resp_created r)%N; discriminate.
Qed.

Lemma NoDup_map_inj {A K} (f : A -> K) (l : list A) a b :
  NoDup (map f l) -> In a l -> In b l -> f a = f b -> a = b.
Proof.
  induction l as [| x l IH]; simpl; [tauto |].
  intros Hn Ha Hb E. inversion Hn as [| ? ? Hx Hl]; subst.
  destruct Ha as [-> | Ha], Hb as [-> | Hb]; auto.
  - exfalso. apply Hx. rewrite E. now apply in_map.
  - exfalso. apply Hx. rewrite <- E. now apply in_map.
Qed.

Lemma set_name_identity c n : identity_of (set_name c n) = identity_of c.
Proof. reflexivity. Qed.

(** Writing back to a record a configuration with the identity it
    already has keeps the keys. *)
Lemma update_same_keys (u : ServiceUpdate Endpoint) st :
  (forall x c, In x (records st) -> resp_id x = upd_id u ->
               upd_config u = Some c ->
               identity_of c = identity_of (resp_config x)) ->
  same_keys st (snd (store_update_service u st)).
Proof.
  intros H. unfold store_update_service.
  destruct (has_id _ _); simpl; [| apply same_keys_refl].
  repeat split; simpl. rewrite map_map. apply map_ext_in.
  intros x Hx. unfold apply_update.
  destruct (N.eqb (resp_id x) (upd_id u)) eqn:E; [| reflexivity].
  apply N.eqb_eq in E. unfold key_of; simpl. f_equal.
  destruct (upd_config u) as [c |] eqn:Ec; simpl.
  - destruct (upd_name u); rewrite ?set_name_identity; eapply H; eauto.
  - destruct (upd_name u); rewrite ?set_name_identity; reflexivity.
Qed.

Lemma same_keys_ids st st' :
  same_keys st st' ->
  map (@resp_id Endpoint) (records st') = map (@resp_id Endpoint) (records st).
Proof. intros (H & _). now apply map_key_of_ids. Qed.

Lemma same_keys_wf st st' : same_keys st st' -> store_wf st -> store_wf st'.
Proof.
  intros K [Hn Hi]. pose proof (same_keys_ids K) as E.
  destruct K as (_ & En & _). split.
  - now rewrite E.
  - rewrite Forall_forall in *. intros r Hr. rewrite En.
    apply (in_map (@resp_id Endpoint)) in Hr. rewrite E in Hr.
    apply in_map_iff in Hr as (r0 & <- & Hr0). auto.
Qed.

(** A record of a store has a counterpart with the same key in a store
    with the same keys. *)
Lemma same_keys_In st st' r :
  same_keys st st' -> In r (records st) ->
  exists r', In r' (records st') /\ key_of r' = key_of r.
Proof.
  intros (H & _) Hr.
  apply (in_map (@key_of Endpoint)) in Hr. rewrite <- H in Hr.
  apply in_map_iff in Hr as (r' & E & Hr'). eauto.
Qed.

End Keys.

(** ** What a lookup adds to the trace *)

Section LookupTrace.
Context {W S Endpoint : Type}.
Context {B : Backend W Endpoint} {C : StoreClient S Endpoint}.
Implicit Types (s : Service Endpoint) (g : Env W S Endpoint).

#[local] Abbreviation looking := (@extends_by W S Endpoint is_lookup).

Lemma looking_resolve mn mv :
  preserved looking (_get_model_version_id_if_exists mn mv).
Proof.
  intros g r g' H. unfold _get_model_version_id_if_exists in H.
  destruct mn as [n |]; [| inversion H; subst; apply extends_by_refl].
  destruct (String.eqb n ""); [inversion H; subst; apply extends_by_refl |].
  unfold client_get_model_version in H; simpl in H.
  destruct (get_model_version n mv (store g)) as [[id | e] st].
  - inversion H; subst. now apply extends_by_event.
  - destruct (is_KeyError e); inversion H; subst; now apply extends_by_event.
Qed.

Lemma looking_list_services a : preserved looking (client_list_services a).
Proof.
  intros g r g' H. unfold client_list_services in H; simpl in H.
  destruct (list_services a (store g)).
  inversion H; subst. now apply extends_by_event.
Qed.

Lemma looking_update_service u : preserved looking (client_update_service u).
Proof.
  intros g r g' H. unfold client_update_service in H; simpl in H.
  destruct (update_service u (store g)).
  inversion H; subst. now apply extends_by_event.
Qed.

Lemma looking_update_status s : preserved looking (on_service update_status s).
Proof.
  intros g r g' H. unfold on_service in H.
  destruct (update_status (s, g)) as [r0 [s1 g1]] eqn:E.
  assert (P : preserved (observing is_lookup) (update_status (S := S))).
  { apply observing_update_status. intros [] He; simpl in *; congruence. }
  destruct (P _ _ _ E) as (_ & T & _). simpl in T.
  destruct r0; inversion H; subst; exact T.
Qed.

Lemma looking_find_loop items : preserved looking (find_loop items).
Proof.
  induction items as [| r items IH]; simpl.
  - apply preserved_ret. apply extends_by_refl.
  - unfold revive_and_probe.
    repeat first
      [ exact IH
      | apply looking_update_status
      | apply looking_update_service
      | apply preserved_ret; apply extends_by_refl
      | apply preserved_bind; [apply extends_by_trans | | intros ?]
      | match goal with
        | |- preserved _ (lift_result _) =>
            let H := fresh in
            intros ? ? ? H; inversion H; subst; apply extends_by_refl
        | |- preserved _ (if ?c then _ else _) => destruct c
        end ].
Qed.

Lemma looking_find_model_server a : preserved looking (find_model_server a).
Proof.
  unfold find_model_server.
  apply preserved_bind; [apply extends_by_trans | | intros ?].
  - apply looking_resolve.
  - apply preserved_bind; [apply extends_by_trans | | intros ?].
    + apply looking_list_services.
    + apply looking_find_loop.
Qed.

End LookupTrace.

(** ** Deploying twice *)

Section Idempotence.
Context {W Endpoint : Type} {B : Backend W Endpoint}.
Implicit Types (s : Service Endpoint) (r : ServiceResponse Endpoint).
Implicit Types (g : Env W (StoreState Endpoint) Endpoint).

Lemma resolve_spec mn mv g :
  _get_model_version_id_if_exists mn mv g
  = (Ok (resolved mn mv (store g)),
     snd (_get_model_version_id_if_exists mn mv g))
  /\ store (snd (_get_model_version_id_if_exists mn mv g)) = store g.
Proof.
  unfold _get_model_version_id_if_exists, resolved.
  destruct mn as [n |]; [| split; reflexivity].
  destruct (String.eqb n ""); [split; reflexivity |].
  unfold client_get_model_version; simpl. unfold store_get_model_version.
  destruct (lookup_model_version n mv _); simpl; split; reflexivity.
Qed.

Lemma from_model_identity r s :
  from_model r = Ok s ->
  uuid s = resp_id r /\ identity_of (config s) = identity_of (resp_config r).
Proof.
  intros H. split; [now apply from_model_uuid |].
  unfold from_model in H.
  destruct (truthy _); [| discriminate].
  destruct (resp_service_source r) as [src |]; [| discriminate].
  destruct (load_and_validate_class src); [| discriminate].
  destruct (resp_admin_state r), (resp_status r); try discriminate.
  inversion H; subst; simpl.
  destruct (String.eqb _ _); reflexivity.
Qed.

Lemma listed_same_keys st st' r :
  same_keys st st' -> listed st r -> listed st' r.
Proof.
  intros K (x & Hx & E).
  destruct (@same_keys_In Endpoint st st' x K Hx) as (x' & Hx' & E').
  exists x'. split; [assumption | congruence].
Qed.

Lemma write_back_same_keys (st : StoreState Endpoint) r s
    (u : ServiceUpdate Endpoint) :
  NoDup (map (@resp_id Endpoint) (records st)) ->
  listed st r ->
  uuid s = resp_id r ->
  identity_of (config s) = identity_of (resp_config r) ->
  upd_id u = uuid s -> upd_config u = Some (config s) ->
  same_keys st (snd (store_update_service u st)).
Proof.
  intros Hn (x & Hx & E) Hu Hi Eid Ec.
  apply update_same_keys. intros x' c Hx' Ex' Hc.
  rewrite Ec in Hc. inversion Hc; subst c.
  assert (x' = x).
  { eapply NoDup_map_inj; eauto.
    rewrite Ex', Eid, Hu. symmetry. now apply key_of_id. }
  subst x'. rewrite Hi.
  unfold key_of in E. inversion E. unfold identity_of. congruence.
Qed.

Lemma revive_and_probe_same_keys r g res g' :
  NoDup (map (@resp_id Endpoint) (records (store g))) ->
  listed (store g) r ->
  revive_and_probe r g = (res, g') ->
  same_keys (store g) (store g').
Proof.
  intros Hn Hl. unfold revive_and_probe, bind, lift_result, on_service, ret.
  destruct (from_model r) as [s0 | e] eqn:E0;
    [| intros H; inversion H; subst; apply same_keys_refl].
  destruct (from_model_identity _ E0) as [Hu Hi].
  destruct (update_status (s0, g)) as [r1 [s1 g1]] eqn:E1.
  destruct (update_status_trace _ _ E1) as (-> & (Pu & _ & Pc & _) & Es & _).
  simpl.
  destruct (status_differs s1 r).
  - unfold client_update_service; simpl. rewrite Es.
    destruct (store_update_service (status_update_of s1) (store g))
      as [r2 st2] eqn:E2.
    assert (K : same_keys (store g) st2).
    { change st2 with (snd (r2, st2)). rewrite <- E2.
      eapply write_back_same_keys with (s := s1); eauto; try congruence. }
    destruct r2; intros H; inversion H; subst; exact K.
  - intros H; inversion H; subst. rewrite Es. apply same_keys_refl.
Qed.

Lemma find_loop_same_keys items :
  forall g res g',
    NoDup (map (@resp_id Endpoint) (records (store g))) ->
    Forall (listed (store g)) items ->
    find_loop items g = (res, g') ->
    same_keys (store g) (store g').
Proof.
  induction items as [| r items IH]; intros g res g' Hn Hl H; simpl in H.
  - inversion H; subst. apply same_keys_refl.
  - inversion Hl as [| ? ? Hr Hrest]; subst. unfold bind in H.
    destruct (revive_and_probe r g) as [[s | e] g1] eqn:E1.
    + pose proof (revive_and_probe_same_keys _ Hn Hr E1) as K1.
      destruct (find_loop items g1) as [[l | e] g2] eqn:E2.
      * inversion H; subst. eapply same_keys_trans; [exact K1 |].
        eapply IH; [| | exact E2].
        -- now rewrite (same_keys_ids K1).
        -- eapply Forall_impl; [| exact Hrest].
           intros a. now apply listed_same_keys.
      * inversion H; subst. eapply same_keys_trans; [exact K1 |].
        eapply IH; [| | exact E2].
        -- now rewrite (same_keys_ids K1).
        -- eapply Forall_impl; [| exact Hrest].
           intros a. now apply listed_same_keys.
    + inversion H; subst.
      exact (revive_and_probe_same_keys _ Hn Hr E1).
Qed.

Lemma find_model_server_unfold a g :
  find_model_server a g
  = find_loop (listing_of a (store g))
      (record_event (snd (_get_model_version_id_if_exists
                            (f_model_name a) (f_model_version a) g))
         (EvListServices
            (list_args_of a (resolved (f_model_name a) (f_model_version a)
                               (store g))))).
Proof.
  unfold find_model_server, bind.
  destruct (resolve_spec (f_model_name a) (f_model_version a) g) as [E Es].
  rewrite E. unfold client_list_services; simpl.
  unfold store_list_services, listing_of. rewrite Es.
  destruct (snd _) as [w st tr]; simpl in *. subst st. reflexivity.
Qed.

Lemma find_model_server_same_keys a g res g' :
  NoDup (map (@resp_id Endpoint) (records (store g))) ->
  find_model_server a g = (res, g') ->
  same_keys (store g) (store g')
  /\ (forall svcs, res = Ok svcs ->
        map (@uuid Endpoint) svcs
        = map (@resp_id Endpoint) (listing_of a (store g))).
Proof.
  intros Hn H. rewrite find_model_server_unfold in H.
  destruct (resolve_spec (f_model_name a) (f_model_version a) g) as [_ Es].
  split.
  - apply find_loop_same_keys in H; simpl in *.
    + now rewrite Es in H.
    + now rewrite Es.
    + rewrite Es. apply Forall_forall. intros r Hr.
      apply In_select in Hr as [Hr _]. exists r. auto.
  - intros svcs ->.
    destruct (find_loop_spec _ _ H) as (rev & d & F & P & _).
    rewrite (Forall2_probed_uuid P). now apply revived_uuids.
Qed.

Lemma listing_same_keys cfg ty (st st' : StoreState Endpoint) :
  same_keys st st' ->
  map (@resp_id Endpoint) (listing_of (find_by_identity cfg ty) st')
  = map (@resp_id Endpoint) (listing_of (find_by_identity cfg ty) st).
Proof.
  intros K. unfold listing_of.
  assert (E : resolved (f_model_name (find_by_identity cfg ty))
                (f_model_version (find_by_identity cfg ty)) st'
              = resolved (f_model_name (find_by_identity cfg ty))
                  (f_model_version (find_by_identity cfg ty)) st).
  { unfold resolved. destruct K as (_ & _ & ->). reflexivity. }
  rewrite E. apply select_same_keys; [split; reflexivity | exact K].
Qed.

(** The branch of [deploy_model] that finds a service and does not
    replace it. *)
Lemma deploy_model_found cfg ty timeout g s rest gf res g' :
  find_model_server (find_by_identity cfg ty) g = (Ok (s :: rest), gf) ->
  deploy_model cfg ty false timeout g = (res, g') ->
  trace g' = (trace gf ++ [EvUpdateService (snapshot_of s)])%list
  /\ store g' = snd (store_update_service (snapshot_of s) (store gf))
  /\ (forall s', res = Ok s' -> s' = s).
Proof.
  intros Hf H. unfold deploy_model, bind in H. rewrite Hf in H. simpl in H.
  unfold client_update_service in H; simpl in H.
  destruct (store_update_service (snapshot_of s) (store gf)) as [[[] | e] st];
    inversion H; subst; simpl; repeat split; congruence.
Qed.

(** The head of a lookup that returns is the service of the head of the
    listing. *)
Lemma find_model_server_head a g s rest gf :
  find_model_server a g = (Ok (s :: rest), gf) ->
  exists r items,
    listing_of a (store g) = r :: items
    /\ uuid s = resp_id r
    /\ identity_of (config s) = identity_of (resp_config r).
Proof.
  intros H. rewrite find_model_server_unfold in H.
  destruct (find_loop_spec _ _ H) as (rev & d & F & P & _).
  destruct (listing_of a (store g)) as [| r items]; simpl in F.
  - destruct rev; [inversion P | discriminate].
  - destruct rev as [| s0 rev]; [discriminate |].
    apply cons_eq_inv in F as [F0 _].
    inversion P as [| ? ? ? ? (Hu & _ & Hc & _) _]; subst.
    destruct (from_model_identity _ F0) as [Eu Ei].
    exists r, items. repeat split; congruence.
Qed.

(** Over a store that lists nothing for an identity, creating a record
    for it and writing back the service that was deployed for it leaves
    a store that lists exactly that record. *)
Lemma listing_after_create cfg ty (st : StoreState Endpoint) svc :
  store_wf st ->
  listing_of (find_by_identity cfg ty) st = [] ->
  uuid svc = next_id st ->
  identity_of (config svc) = identity_of cfg ->
  let mv := resolved (Some (model_name cfg)) (Some (model_version cfg)) st in
  let st1 := snd (store_create_service cfg ty mv st) in
  fst (store_update_service (snapshot_of svc) st1) = Ok tt
  /\ NoDup (map (@resp_id Endpoint)
              (records (snd (store_update_service (snapshot_of svc) st1))))
  /\ map (@resp_id Endpoint)
       (listing_of (find_by_identity cfg ty)
          (snd (store_update_service (snapshot_of svc) st1)))
     = [next_id st].
Proof.
  intros [Hn Hi] Hl Hu Hid mv st1.
  assert (Hh : has_id (upd_id (snapshot_of svc)) st1 = true).
  { unfold has_id; simpl. rewrite Hu, N.eqb_refl. reflexivity. }
  unfold store_update_service. rewrite Hh. simpl.
  assert (Eold : map (apply_update (snapshot_of svc)) (records st) = records st).
  { rewrite <- (map_id (records st)) at 2. apply map_ext_in.
    intros x Hx. unfold apply_update; simpl.
    rewrite Forall_forall in Hi. specialize (Hi _ Hx).
    destruct (N.eqb (resp_id x) (uuid svc)) eqn:E; [| reflexivity].
    apply N.eqb_eq in E. lia. }
  rewrite Eold.
  assert (Eid : resp_id (apply_update (snapshot_of svc) (new_record cfg ty mv st))
                = next_id st) by (rewrite apply_update_id; reflexivity).
  split; [reflexivity |]. split.
  - rewrite Eid. constructor; [| exact Hn].
    rewrite in_map_iff. intros (x & Ex & Hx).
    rewrite Forall_forall in Hi. specialize (Hi _ Hx). lia.
  - unfold listing_of in *. unfold resolved in *. simpl in *.
    fold mv in Hl. fold mv.
    unfold select in *; simpl in *.
    apply newest_first_nil in Hl. rewrite Hl.
    assert (Em : matches
                   (list_args_of (find_by_identity cfg ty) mv)
                   (apply_update (snapshot_of svc) (new_record cfg ty mv st))
                 = true).
    { unfold apply_update; simpl. rewrite Hu, N.eqb_refl.
      unfold identity_of in Hid. inversion Hid as [[E1 E2 E3 E4 E5]].
      unfold matches; simpl. rewrite E1, E2, E3, !String.eqb_refl.
      destruct mv as [v |]; [rewrite N.eqb_refl |]; reflexivity. }
    rewrite Em. simpl. now rewrite Eid.
Qed.

(** What the first of two deployments leaves behind: a store whose
    listing for the identity starts with the service it returned. *)
Lemma first_deploy_listing cfg ty timeout g s1 g1 :
  store_wf (store g) ->
  deploys_as_requested B ->
  deploy_model cfg ty false timeout g = (Ok s1, g1) ->
  NoDup (map (@resp_id Endpoint) (records (store g1)))
  /\ exists rr,
      map (@resp_id Endpoint) (listing_of (find_by_identity cfg ty) (store g1))
      = uuid s1 :: rr.
Proof.
  intros Hwf Hb H.
  destruct (find_model_server (find_by_identity cfg ty) g) as [[l | e] gf] eqn:Ef.
  2:{ unfold deploy_model, bind in H. rewrite Ef in H. discriminate. }
  pose proof Ef as X.
  apply find_model_server_same_keys in X; [| exact (proj1 Hwf)].
  destruct X as [K Hl]. specialize (Hl _ eq_refl).
  destruct l as [| s rest].
  - (* nothing found: a record is created and the model deployed *)
    simpl in Hl. symmetry in Hl. apply map_eq_nil in Hl.
    assert (Egf : store gf = store g).
    { rewrite find_model_server_unfold, Hl in Ef. simpl in Ef.
      inversion Ef; subst; simpl.
      apply (resolve_spec (f_model_name (find_by_identity cfg ty))
               (f_model_version (find_by_identity cfg ty)) g). }
    unfold deploy_model, bind in H. rewrite Ef in H. cbv beta iota in H.
    pose proof (resolve_spec (Some (model_name cfg)) (Some (model_version cfg)) gf)
      as [Er Es].
    destruct (_get_model_version_id_if_exists (Some (model_name cfg))
                (Some (model_version cfg)) gf) as [rm gm].
    simpl in Er, Es. inversion Er; subst rm; clear Er.
    unfold client_create_service in H; simpl in H.
    unfold call_perform_deploy_model in H; simpl in H.
    rewrite Es, Egf in H.
    destruct (perform_deploy_model (next_id (store g)) cfg timeout _)
      as [[svc | e] w] eqn:Ed; [| discriminate].
    pose proof Ed as X. apply Hb in X. destruct X as [Hu Hid].
    unfold client_update_service in H; simpl in H.
    pose proof (@listing_after_create cfg ty (store g) svc Hwf Hl Hu Hid)
      as (Eok & Hn & Els).
    destruct (store_update_service (snapshot_of svc) _) as [r2 st2] eqn:E2.
    simpl in Eok, Hn, Els. subst r2.
    inversion H; subst; simpl.
    split; [exact Hn |]. exists []. now rewrite Els, Hu.
  - (* found: the service is returned and its snapshot written *)
    pose proof H as X. eapply deploy_model_found in X; [| exact Ef].
    destruct X as (_ & Est & Hs).
    specialize (Hs _ eq_refl). subst s1.
    pose proof Ef as Y. apply find_model_server_head in Y.
    destruct Y as (r & items & El & Eu & Ei).
    assert (Hr : listed (store gf) r).
    { apply listed_same_keys with (st := store g); [exact K |].
      exists r. split; [| reflexivity].
      assert (In r (listing_of (find_by_identity cfg ty) (store g)))
        by (rewrite El; now left).
      unfold listing_of in H0. now apply In_select in H0. }
    assert (K2 : same_keys (store gf) (store g1)).
    { rewrite Est. eapply write_back_same_keys with (s := s).
      - rewrite (same_keys_ids K). apply Hwf.
      - exact Hr.
      - exact Eu.
      - exact Ei.
      - reflexivity.
      - reflexivity. }
    pose proof (same_keys_trans K K2) as K3.
    split.
    + rewrite (same_keys_ids K3). apply Hwf.
    + rewrite (listing_same_keys cfg ty K3), El. simpl.
      exists (map (@resp_id Endpoint) items). now rewrite Eu.
Qed.

(** C2.  Two successive calls of [deploy_model] with the same
    configuration and [replace=False] that return, return services with
    the same uuid; the second call only looks up: it neither creates a
    record nor calls [perform_deploy_model], [update] or [provision],
    and it returns the first service of its lookup as it found it,
    writing back that service's own snapshot, not the caller's
    configuration. *)
Theorem deploy_model_twice_same_service cfg ty t1 t2 g s1 g1 s2 g2 :
  store_wf (store g) ->
  deploys_as_requested B ->
  deploy_model cfg ty false t1 g = (Ok s1, g1) ->
  deploy_model cfg ty false t2 g1 = (Ok s2, g2) ->
  uuid s2 = uuid s1
  /\ (exists rest gf,
        find_model_server (find_by_identity cfg ty) g1 = (Ok (s2 :: rest), gf)
        /\ trace g2 = (trace gf ++ [EvUpdateService (snapshot_of s2)])%list)
  /\ exists d,
      trace g2 = (trace g1 ++ d)%list
      /\ forallb is_lookup d = true
      /\ count is_perform_deploy d = 0
      /\ count is_create_service d = 0
      /\ count is_update d = 0
      /\ count is_provision d = 0.
Proof.
  intros Hwf Hb H1 H2.
  pose proof H1 as Z0. apply first_deploy_listing in Z0; [| exact Hwf | exact Hb].
  destruct Z0 as (Hn & rr & El).
  destruct (find_model_server (find_by_identity cfg ty) g1) as [[l | e] gf] eqn:Ef.
  2:{ unfold deploy_model, bind in H2. rewrite Ef in H2. discriminate. }
  pose proof Ef as X.
  apply find_model_server_same_keys in X; [| exact Hn].
  destruct X as [_ Hl]. specialize (Hl _ eq_refl). rewrite El in Hl.
  destruct l as [| s rest]; [discriminate |].
  apply cons_eq_inv in Hl as [Hu _].
  pose proof H2 as Y. eapply deploy_model_found in Y; [| exact Ef].
  destruct Y as (T & _ & Hs).
  specialize (Hs _ eq_refl). subst s2.
  split; [exact Hu |]. split; [exists rest, gf; auto |].
  pose proof Ef as X. apply looking_find_model_server in X.
  destruct X as (d & Td & Fd).
  exists (d ++ [EvUpdateService (snapshot_of s)])%list.
  assert (F : forallb is_lookup (d ++ [EvUpdateService (snapshot_of s)])%list
              = true)
    by (rewrite forallb_app, Fd; reflexivity).
  split; [now rewrite T, Td, app_assoc |].
  split; [exact F |].
  repeat split;
    (apply count_0_of_class with (p := is_lookup); [| exact F];
     intros [] E; simpl in *; congruence).
Qed.

End Idempotence.

(** ** The properties at work on the scripted backend *)

(** C3, as stated, fails: polled with [timeout=0], a service that is
    wanted running and probed as stopped answers [False]. *)
Lemma poll_without_timeout_can_answer_false :
  fst (poll_service_status 0 (wanted_running, idle_env)) = Ok false.
Proof. vm_compute. reflexivity. Qed.

Lemma poll_without_timeout_is_one_pass_witness :
  poll_service_status 0 (wanted_running, healthy_env)
  = (Ok true, snd (poll_service_status 0 (wanted_running, healthy_env)))
  /\ (observing is_probe (wanted_running, healthy_env)
        (snd (poll_service_status 0 (wanted_running, healthy_env)))
      /\ (true = true ->
          state (status (fst (snd (poll_service_status 0
                                     (wanted_running, healthy_env)))))
          = admin_state (fst (snd (poll_service_status 0
                                     (wanted_running, healthy_env))))
          /\ (admin_state (fst (snd (poll_service_status 0
                                       (wanted_running, healthy_env))))
              = RUNNING
              \/ admin_state (fst (snd (poll_service_status 0
                                          (wanted_running, healthy_env))))
                 = INACTIVE))).
Proof.
  split; [vm_compute; reflexivity |].
  apply (@poll_without_timeout_is_one_pass _ _ _ FakeBackend
           wanted_running healthy_env true
           (fst (snd (poll_service_status 0 (wanted_running, healthy_env))))
           (snd (snd (poll_service_status 0 (wanted_running, healthy_env))))).
  vm_compute. reflexivity.
Defined.

Lemma update_status_absorbs_probe_failure_witness :
  check_status wanted_running (world unreachable_env)
  = (Raise connection_refused, quiet_world [])
  /\ exists s' g',
      update_status (wanted_running, unreachable_env) = (Ok tt, (s', g'))
      /\ state (status s') = FAILED
      /\ last_error (status s') = str_exc connection_refused
      /\ contains (str_exc connection_refused) (last_error (status s')).
Proof.
  split; [reflexivity |].
  apply (@update_status_absorbs_probe_failure _ _ _ FakeBackend
           wanted_running unreachable_env connection_refused (quiet_world [])).
  reflexivity.
Defined.

Lemma lifecycle_failure_recorded_and_reraised_witness :
  provision (starting wanted_running) (world saturated_env)
  = (Raise no_capacity, starting wanted_running, world saturated_env)
  /\ exists s' g',
      start 0 (wanted_running, saturated_env) = (Raise no_capacity, (s', g'))
      /\ status s' = {| state := FAILED; last_error := "no capacity" |}.
Proof.
  split; [reflexivity |].
  apply (proj1 (@lifecycle_failure_recorded_and_reraised
                  _ (StoreState FakeEndpoint) _ FakeBackend)
           wanted_running saturated_env 0%Z no_capacity
           (starting wanted_running) (world saturated_env)).
  reflexivity.
Defined.

Lemma lifecycle_post_state_is_last_write_witness :
  start 2 (wanted_running, crashing_env)
  = (Ok tt, snd (start 2 (wanted_running, crashing_env)))
  /\ status (fst (snd (start 2 (wanted_running, crashing_env))))
     = {| state := RUNNING; last_error := "" |}.
Proof.
  split; [vm_compute; reflexivity |].
  apply (proj1 (@lifecycle_post_state_is_last_write
                  _ (StoreState FakeEndpoint) _ FakeBackend)
           wanted_running crashing_env 2%Z
           (fst (snd (start 2 (wanted_running, crashing_env))))
           (snd (snd (start 2 (wanted_running, crashing_env))))).
  vm_compute. reflexivity.
Defined.

Lemma unknown_uuid_is_fatal_witness :
  list_services (list_args_of (find_by_uuid 42%N) None) (store deployed_env)
  = (Ok [], store deployed_env)
  /\ (forall timeout force,
         stop_model_server 42%N timeout force deployed_env
         = (Raise (wrap_failure "stop" 42%N index_error),
            {| world := world deployed_env; store := store deployed_env;
               trace := (trace deployed_env
                         ++ [EvListServices
                               (list_args_of (find_by_uuid 42%N) None)])%list
            |})).
Proof.
  split; [vm_compute; reflexivity |].
  apply (@unknown_uuid_is_fatal _ _ _ FakeBackend (SimpleStore FakeEndpoint)
           42%N deployed_env (store deployed_env)).
  vm_compute. reflexivity.
Defined.

Lemma find_model_server_reconciles_witness :
  find_model_server (find_by_identity iris_config fake_type) deployed_env
  = (Ok [found_service], snd lookup)
  /\ exists mv items g0 g1 revived d,
      _get_model_version_id_if_exists
        (f_model_name (find_by_identity iris_config fake_type))
        (f_model_version (find_by_identity iris_config fake_type)) deployed_env
      = (Ok mv, g0)
      /\ client_list_services
           (list_args_of (find_by_identity iris_config fake_type) mv) g0
         = (Ok items, g1)
      /\ ls_sort_by (list_args_of (find_by_identity iris_config fake_type) mv)
         = "desc:created"
      /\ map from_model items = map Ok revived
      /\ Forall2 probed revived [found_service]
      /\ map (@uuid FakeEndpoint) [found_service]
         = map (@resp_id FakeEndpoint) items
      /\ trace (snd lookup) = (trace g1 ++ d)%list
      /\ filter is_check_status d = map (@EvCheckStatus FakeEndpoint) revived
      /\ filter is_update_service d = write_backs items [found_service].
Proof.
  split; [vm_compute; reflexivity |].
  apply (@find_model_server_reconciles _ _ _ FakeBackend
           (SimpleStore FakeEndpoint)
           (find_by_identity iris_config fake_type) deployed_env
           [found_service] (snd lookup)).
  vm_compute. reflexivity.
Defined.

Lemma deploy_model_replaces_in_place_witness :
  find_model_server (find_by_identity iris_config fake_type) deployed_env
  = (Ok [found_service], snd lookup)
  /\ exists r g' d,
      deploy_model iris_config fake_type true 5 deployed_env = (r, g')
      /\ trace g'
         = (trace (snd lookup) ++ EvPerformDelete found_service 5 true :: d)%list
      /\ count is_perform_delete d = 0
      /\ count is_create_service d = 0
      /\ count is_perform_deploy d = 0
      /\ (forall s1 w1,
            perform_delete_model found_service 5 true (world (snd lookup))
            = (Ok tt, s1, w1) ->
            exists d',
              d = (EvUpdate s1 iris_config
                     :: EvStart (set_config s1 iris_config) 5 :: d')%list
              /\ count is_update d' = 0
              /\ count is_start d' = 0)
      /\ (forall s', r = Ok s' ->
            (exists d', d = (d' ++ [EvUpdateService (snapshot_of s')])%list)
            /\ (keeps_uuid FakeBackend -> uuid s' = uuid found_service)).
Proof.
  split; [vm_compute; reflexivity |].
  apply (@deploy_model_replaces_in_place _ _ _ FakeBackend
           (SimpleStore FakeEndpoint) iris_config fake_type 5%Z deployed_env
           found_service [] (snd lookup)).
  vm_compute. reflexivity.
Defined.

Lemma deleted_service_never_found_witness :
  ids_issued (store deployed_env)
  /\ delete_model_server 1%N 0 false deployed_env = (Ok tt, snd deletion)
  /\ has_id 1%N (store (snd deletion)) = false
  /\ forall calls a svcs g'',
      find_model_server a (run_calls calls (snd deletion)) = (Ok svcs, g'') ->
      ~ In 1%N (map (@uuid FakeEndpoint) svcs).
Proof.
  assert (Hi : ids_issued (store deployed_env)).
  { unfold ids_issued. vm_compute. constructor; [reflexivity | constructor]. }
  assert (Hd : delete_model_server 1%N 0 false deployed_env
               = (Ok tt, snd deletion)) by (vm_compute; reflexivity).
  split; [exact Hi |]. split; [exact Hd |].
  exact (@deleted_service_never_found _ _ FakeBackend 1%N 0%Z false
           deployed_env (snd deletion) Hi Hd).
Defined.

Lemma deploy_model_twice_same_service_witness :
  store_wf (store idle_env)
  /\ deploys_as_requested FakeBackend
  /\ deploy_model iris_config fake_type false 0 idle_env
     = (Ok deployed_service, deployed_env)
  /\ deploy_model iris_config fake_type false 0 deployed_env
     = (Ok found_service, snd second_deployment)
  /\ uuid found_service = uuid deployed_service
  /\ (exists rest gf,
         find_model_server (find_by_identity iris_config fake_type) deployed_env
         = (Ok (found_service :: rest), gf)
         /\ trace (snd second_deployment)
            = (trace gf ++ [EvUpdateService (snapshot_of found_service)])%list)
  /\ exists d,
      trace (snd second_deployment) = (trace deployed_env ++ d)%list
      /\ forallb is_lookup d = true
      /\ count is_perform_deploy d = 0
      /\ count is_create_service d = 0
      /\ count is_update d = 0
      /\ count is_provision d = 0.
Proof.
  assert (Hw : store_wf (store idle_env)).
  { split; simpl; constructor. }
  assert (Hb : deploys_as_requested FakeBackend).
  { intros id cfg timeout w svc w' H. simpl in H.
    inversion H; subst. split; [reflexivity |].
    unfold fake_service; simpl.
    destruct (String.eqb (name cfg) ""); reflexivity. }
  assert (H1 : deploy_model iris_config fake_type false 0 idle_env
               = (Ok deployed_service, deployed_env))
    by (vm_compute; reflexivity).
  assert (H2 : deploy_model iris_config fake_type false 0 deployed_env
               = (Ok found_service, snd second_deployment))
    by (vm_compute; reflexivity).
  split; [exact Hw |]. split; [exact Hb |].
  split; [exact H1 |]. split; [exact H2 |].
  exact (@deploy_model_twice_same_service _ _ FakeBackend iris_config fake_type
           0%Z 0%Z idle_env deployed_service deployed_env found_service
           (snd second_deployment) Hw Hb H1 H2).
Defined.

Lemma start_without_timeout_provisions_once_witness :
  admin_state wanted_stopped = INACTIVE
  /\ start 0 (wanted_stopped, idle_env)
     = (Ok tt,
        (set_status (starting wanted_stopped)
           {| state := RUNNING; last_error := "" |},
         {| world := world idle_env; store := store idle_env;
            trace := [EvStart wanted_stopped 0;
                      EvProvision (starting wanted_stopped)] |}))
  /\ admin_state (fst (snd (start 0 (wanted_stopped, idle_env)))) = RUNNING.
Proof.
  pose proof (@start_without_timeout_provisions_once _
                (StoreState FakeEndpoint) _ FakeBackend wanted_stopped
                idle_env) as T.
  cbv zeta in T. destruct T as (_ & E & _ & K & _).
  split; [reflexivity |].
  split; [exact E | apply K; reflexivity].
Defined.

(* ------------------------------------------------------------------ *)
(** * More properties of the service life cycle *)

Section MoreLifecycleFacts.
Context {W S Endpoint : Type} {B : Backend W Endpoint}.
Implicit Types (s : Service Endpoint) (g : Env W S Endpoint).

(** What [update_status] does, outcome by outcome of the probes. *)
Lemma update_status_cases s g :
  match check_status s (world g) with
  | (Raise e, w) =>
      update_status (s, g)
      = (Ok tt,
         (set_status s {| state := FAILED; last_error := str_exc e |},
          {| world := w; store := store g;
             trace := (trace g ++ [EvCheckStatus s])%list |}))
  | (Ok (st, msg), w) =>
      let s1 := set_status s {| state := st; last_error := msg |} in
      let g1 := {| world := w; store := store g;
                   trace := (trace g ++ [EvCheckStatus s])%list |} in
      match ServiceState_eqb st INACTIVE, endpoint s with
      | true, _ | false, None => update_status (s, g) = (Ok tt, (s1, g1))
      | false, Some ep =>
          let g2 w' := {| world := w'; store := store g;
                          trace := (trace g ++ [EvCheckStatus s;
                                                 EvEndpointUpdateStatus s1])%list
                       |} in
          match endpoint_update_status ep w with
          | (Ok _, ep', w') =>
              update_status (s, g) = (Ok tt, (set_endpoint s1 (Some ep'), g2 w'))
          | (Raise e, ep', w') =>
              update_status (s, g)
              = (Ok tt,
                 (set_status (set_endpoint s1 (Some ep'))
                    {| state := FAILED; last_error := str_exc e |}, g2 w'))
          end
      end
  end.
Proof.
  unfold update_status, try_except, bind, call_check_status,
    status_update_state, modify, self, ret; simpl.
  destruct (check_status s (world g)) as [[[st msg] | e] w]; simpl;
    [| reflexivity].
  destruct (ServiceState_eqb st INACTIVE); [reflexivity |].
  destruct (endpoint s) as [ep |]; [| reflexivity].
  unfold call_endpoint_update_status; simpl.
  destruct (endpoint_update_status ep w) as [[[[] | e] ep'] w']; simpl;
    unfold set_world, record_event, update_state; simpl;
    rewrite <- app_assoc; reflexivity.
Qed.

(** A call of [update_status] returns, and after the probe of the
    resource it asks nothing but the endpoint for its status. *)
Lemma update_status_asks_endpoint_only s g :
  exists s' g' d,
    update_status (s, g) = (Ok tt, (s', g'))
    /\ trace g' = (trace g ++ EvCheckStatus s :: d)%list
    /\ forallb is_endpoint_update_status d = true.
Proof.
  pose proof (update_status_cases s g) as H.
  destruct (check_status s (world g)) as [[[st msg] | e] w]; simpl in H.
  - destruct (ServiceState_eqb st INACTIVE).
    + rewrite H. do 2 eexists. exists []. repeat split.
    + destruct (endpoint s) as [ep |].
      * destruct (endpoint_update_status ep w) as [[[[] | e] ep'] w'];
          rewrite H; do 2 eexists; eexists [_]; repeat split.
      * rewrite H. do 2 eexists. exists []. repeat split.
  - rewrite H. do 2 eexists. exists []. repeat split.
Qed.

(** X1.  [update_status] never raises: whatever the probe of the resource and
    the probe of the endpoint do, it returns, having called
    [check_status] exactly once and the endpoint at most once; it leaves
    the uuid, the admin state and the configuration of the service, and
    the store, as they were. *)
Theorem update_status_never_raises s g :
  exists s' g' d,
    update_status (s, g) = (Ok tt, (s', g'))
    /\ probed s s'
    /\ store g' = store g
    /\ trace g' = (trace g ++ EvCheckStatus s :: d)%list
    /\ count is_check_status d = 0
    /\ count is_endpoint_update_status d <= 1
    /\ forallb is_endpoint_update_status d = true.
Proof.
  assert (K : forall s' g' d,
             update_status (s, g) = (Ok tt, (s', g')) ->
             probed s s' -> store g' = store g ->
             trace g' = (trace g ++ EvCheckStatus s :: d)%list ->
             forallb is_endpoint_update_status d = true ->
             List.length d <= 1 ->
             exists s' g' d,
               update_status (s, g) = (Ok tt, (s', g'))
               /\ probed s s'
               /\ store g' = store g
               /\ trace g' = (trace g ++ EvCheckStatus s :: d)%list
               /\ count is_check_status d = 0
               /\ count is_endpoint_update_status d <= 1
               /\ forallb is_endpoint_update_status d = true).
  { intros s' g' d E P St T F L. exists s', g', d.
    repeat (split; [assumption |]). split; [| split; [| assumption]].
    - apply count_0_of_class with (p := is_endpoint_update_status);
        [| exact F].
      intros [] X; simpl in *; congruence.
    - unfold count. pose proof (filter_length_le is_endpoint_update_status d).
      lia. }
  pose proof (update_status_cases s g) as H.
  destruct (check_status s (world g)) as [[[st msg] | e] w]; simpl in H.
  - destruct (ServiceState_eqb st INACTIVE).
    + eapply K with (d := []); [exact H | repeat split | | | |];
        simpl; auto.
    + destruct (endpoint s) as [ep |].
      * destruct (endpoint_update_status ep w) as [[[[] | e] ep'] w'];
          (eapply K with (d := [_]); [exact H | repeat split | | | |];
           simpl; auto).
      * eapply K with (d := []); [exact H | repeat split | | | |];
          simpl; auto.
  - eapply K with (d := []); [exact H | repeat split | | | |]; simpl; auto.
Qed.

(** X2.  The endpoint of a service is probed exactly when the resource is
    probed in a state other than [INACTIVE] and the service has an
    endpoint; a service probed [INACTIVE] gets exactly the probed status
    and keeps its endpoint as it is. *)
Theorem update_status_probes_endpoint_unless_inactive s g st msg w :
  check_status s (world g) = (Ok (st, msg), w) ->
  exists s' g' d,
    update_status (s, g) = (Ok tt, (s', g'))
    /\ trace g' = (trace g ++ EvCheckStatus s :: d)%list
    /\ count is_endpoint_update_status d
       = (if ServiceState_eqb st INACTIVE then 0
          else match endpoint s with Some _ => 1 | None => 0 end)
    /\ (st = INACTIVE ->
        s' = set_status s {| state := INACTIVE; last_error := msg |}).
Proof.
  intros Hc. pose proof (update_status_cases s g) as H.
  rewrite Hc in H. simpl in H.
  destruct (ServiceState_eqb st INACTIVE) eqn:E.
  - rewrite H. do 2 eexists. exists []. repeat split.
    intros ->. reflexivity.
  - assert (Hn : st = INACTIVE -> False)
      by (intros ->; discriminate).
    destruct (endpoint s) as [ep |].
    + destruct (endpoint_update_status ep w) as [[[[] | e] ep'] w'];
        rewrite H; do 2 eexists; eexists [_];
        (split; [reflexivity |]); repeat split; intros K; destruct (Hn K).
    + rewrite H. do 2 eexists. exists []. repeat split.
      intros K; destruct (Hn K).
Qed.

(** X3.  A failure of the probe of the endpoint is absorbed like a failure of
    the probe of the resource: the status becomes [FAILED] with the text
    of the exception, although the resource itself was probed in the
    state [st], and the call returns. *)
Theorem update_status_absorbs_endpoint_failure s g st msg w ep e ep' w' :
  check_status s (world g) = (Ok (st, msg), w) ->
  st <> INACTIVE ->
  endpoint s = Some ep ->
  endpoint_update_status ep w = (Raise e, ep', w') ->
  exists s' g',
    update_status (s, g) = (Ok tt, (s', g'))
    /\ status s' = {| state := FAILED; last_error := str_exc e |}
    /\ endpoint s' = Some ep'.
Proof.
  intros Hc Hn He Hu. pose proof (update_status_cases s g) as H.
  rewrite Hc in H. simpl in H.
  destruct (ServiceState_eqb st INACTIVE) eqn:E.
  - apply ServiceState_eqb_eq in E. contradiction.
  - rewrite He, Hu in H. rewrite H. do 2 eexists. repeat split.
Qed.

(** X4.  [is_running] answers [False] without asking the endpoint whenever
    the state it has just probed is not [RUNNING]. *)
Theorem is_running_false_without_asking_endpoint s g r s' g' :
  is_running (s, g) = (r, (s', g')) ->
  state (status s') <> RUNNING ->
  r = Ok false
  /\ exists d, trace g' = (trace g ++ d)%list
               /\ count is_endpoint_is_active d = 0.
Proof.
  unfold is_running, bind, self, ret. intros H Hn.
  destruct (update_status_asks_endpoint_only s g) as (s1 & g1 & d & E & T & F).
  rewrite E in H. simpl in H.
  destruct (ServiceState_eqb (state (status s1)) RUNNING) eqn:Er.
  - apply ServiceState_eqb_eq in Er. exfalso. apply Hn.
    destruct (endpoint s1) as [ep |].
    + unfold call_endpoint_is_active in H; simpl in H.
      destruct (endpoint_is_active ep (world g1)) as [[r0 ep'] w0].
      inversion H; subst. exact Er.
    + inversion H; subst. exact Er.
  - inversion H; subst. split; [reflexivity |].
    exists (EvCheckStatus s :: d)%list. split; [exact T |].
    unfold count; simpl.
    change (count is_endpoint_is_active d = 0).
    apply count_0_of_class with (p := is_endpoint_update_status);
      [| exact F].
    intros [] K; simpl in *; congruence.
Qed.

(** X5.  [stop(timeout=0)] sets [admin_state] to [INACTIVE] and calls
    [deprovision] exactly once, with the [force] it was given, on the
    object whose admin state is already [INACTIVE]; it makes no other
    call: no probe, no sleep, whether [deprovision] returns or raises.
    The call ends as [deprovision] ended, and the service it leaves is
    the object [deprovision] left, with nothing but its status
    overwritten by the decorator: its admin state is the one
    [deprovision] left, hence [INACTIVE] unless [deprovision] itself has
    reassigned it. *)
Theorem stop_without_timeout_deprovisions_once s g force :
  let p := deprovision (stopping s) force (world g) in
  let r := fst (fst p) in
  let s1 := snd (fst p) in
  admin_state (stopping s) = INACTIVE
  /\ stop 0 force (s, g)
     = (r,
        (set_status s1
           match r with
           | Ok _ => {| state := INACTIVE; last_error := "" |}
           | Raise e => {| state := FAILED; last_error := str_exc e |}
           end,
         {| world := snd p; store := store g;
            trace := (trace g ++ [EvStop s 0 force;
                                  EvDeprovision (stopping s) force])%list |}))
  /\ admin_state (fst (snd (stop 0 force (s, g)))) = admin_state s1
  /\ (admin_state s1 = admin_state (stopping s) ->
      admin_state (fst (snd (stop 0 force (s, g)))) = INACTIVE).
Proof.
  cbv zeta.
  assert (E : stop 0 force (s, g)
              = (fst (fst (deprovision (stopping s) force (world g))),
                 (set_status
                    (snd (fst (deprovision (stopping s) force (world g))))
                    match fst (fst (deprovision (stopping s) force (world g)))
                    with
                    | Ok _ => {| state := INACTIVE; last_error := "" |}
                    | Raise e => {| state := FAILED; last_error := str_exc e |}
                    end,
                  {| world := snd (deprovision (stopping s) force (world g));
                     store := store g;
                     trace := (trace g
                               ++ [EvStop s 0 force;
                                   EvDeprovision (stopping s) force])%list
                  |}))).
  { unfold stop, update_service_status, stop_body, bind, try_except,
      call_deprovision, status_update_state, modify, self, emit, raise, ret;
      simpl.
    fold (stopping s).
    destruct (deprovision (stopping s) force (world g))
      as [[[[] | e] s1] w1]; simpl;
      unfold set_world, record_event, update_state; simpl;
      rewrite <- app_assoc; reflexivity. }
  split; [reflexivity |].
  split; [exact E |].
  rewrite E. simpl.
  split; [reflexivity |].
  intros H; rewrite H; reflexivity.
Qed.

End MoreLifecycleFacts.

(** ** Polling *)

Section PollingFacts.
Context {W S Endpoint : Type} {B : Backend W Endpoint}.
Implicit Types (s : Service Endpoint) (g : Env W S Endpoint).
Implicit Types (x : Service Endpoint * Env W S Endpoint).

(** The loop is an iteration of passes separated by sleeps. *)
Lemma poll_loop_unfold n x :
  poll_loop n x
  = match poll_pass x with
    | (Ok (Some b), x') => (Ok (Some b), x')
    | (Ok None, x') =>
        match n with
        | O => (Ok None, x')
        | Datatypes.S m => poll_loop m (snd (call_sleep x'))
        end
    | (Raise e, x') => (Raise e, x')
    end.
Proof.
  destruct n as [| m]; simpl; unfold poll_pass, bind, self, ret; simpl;
    destruct (ServiceState_eqb (admin_state (fst x)) RUNNING);
    repeat
      match goal with
      | |- context [is_running ?y] =>
          destruct (is_running y) as [[[|] | ?] ?]; simpl
      | |- context [ServiceState_eqb ?a INACTIVE] =>
          destruct (ServiceState_eqb a INACTIVE); simpl
      | |- context [is_stopped ?y] =>
          destruct (is_stopped y) as [[[|] | ?] ?]; simpl
      | |- context [is_failed ?y] =>
          destruct (is_failed y) as [[[|] | ?] ?]; simpl
      end;
    reflexivity.
Qed.

Lemma is_failed_true x s' g' :
  is_failed x = (Ok true, (s', g')) -> state (status s') = FAILED.
Proof.
  unfold is_failed, bind, self, ret. intros H.
  destruct (update_status x) as [[[] | e] [s1 g1]]; [| discriminate].
  simpl in H. inversion H; subst. now apply ServiceState_eqb_eq.
Qed.

Lemma is_failed_observes x x' r :
  is_failed x = (r, x') -> admin_state (fst x') = admin_state (fst x).
Proof.
  intros H.
  assert (P : preserved (observing is_probe) (is_failed (S := S)))
    by (apply observing_is_failed; auto).
  apply (P _ _ _ H).
Qed.

(** One pass only probes, and what it decides is what it has just
    observed. *)
Lemma poll_pass_spec x r x' :
  poll_pass x = (r, x') ->
  observing is_probe x x'
  /\ match r with
     | Ok (Some true) => converged (fst x')
     | Ok (Some false) => state (status (fst x')) = FAILED
     | _ => True
     end.
Proof.
  intros H. split.
  - pose proof (poll_loop_unfold 0 x) as U. rewrite H in U.
    assert (E : exists r0, poll_loop 0 x = (r0, x'))
      by (destruct r as [[b |] | e]; eauto).
    destruct E as [r0 E]. exact (observing_poll_loop_0 _ E).
  - unfold poll_pass, bind, self, ret in H. simpl in H.
    destruct x as [s g]. simpl in H.
    destruct (ServiceState_eqb (admin_state s) RUNNING) eqn:Ea.
    + apply ServiceState_eqb_eq in Ea.
      destruct (is_running (s, g)) as [[[|] | e] [s1 g1]] eqn:E1.
      * inversion H; subst. simpl.
        pose proof (is_running_observes _ E1) as Hadm. simpl in Hadm.
        split; [| left; congruence].
        rewrite Hadm, Ea. eapply is_running_true; eassumption.
      * simpl in H.
        pose proof (is_running_observes _ E1) as Hadm. simpl in Hadm.
        assert (En : ServiceState_eqb (admin_state s1) INACTIVE = false)
          by (rewrite Hadm, Ea; reflexivity).
        rewrite En in H. simpl in H.
        destruct (is_failed (s1, g1)) as [[[|] | e] [s2 g2]] eqn:E2;
          simpl in H; inversion H; subst; simpl; auto.
        eapply is_failed_true; eassumption.
      * inversion H; subst. exact I.
    + simpl in H.
      destruct (ServiceState_eqb (admin_state s) INACTIVE) eqn:Ei.
      * apply ServiceState_eqb_eq in Ei.
        destruct (is_stopped (s, g)) as [[[|] | e] [s1 g1]] eqn:E1.
        -- inversion H; subst. simpl.
           pose proof (is_stopped_observes _ E1) as Hadm. simpl in Hadm.
           split; [| right; congruence].
           rewrite Hadm, Ei. eapply is_stopped_true; eassumption.
        -- simpl in H.
           destruct (is_failed (s1, g1)) as [[[|] | e] [s2 g2]] eqn:E2;
             simpl in H; inversion H; subst; simpl; auto.
           eapply is_failed_true; eassumption.
        -- inversion H; subst. exact I.
      * simpl in H.
        destruct (is_failed (s, g)) as [[[|] | e] [s2 g2]] eqn:E2;
          simpl in H; inversion H; subst; simpl; auto.
        eapply is_failed_true; eassumption.
Qed.

Lemma count_sleep_probes (d : list (Event Endpoint)) :
  forallb is_probe d = true -> count is_sleep d = 0.
Proof.
  apply count_0_of_class. intros [] K; simpl in *; congruence.
Qed.

(** The loop sleeps at most [n] times, exactly [n] times when it gives
    up, and what it returns is what it has last observed. *)
Lemma poll_loop_spec n :
  forall x r x',
    poll_loop n x = (r, x') ->
    exists d,
      trace (snd x') = (trace (snd x) ++ d)%list
      /\ forallb (fun e => is_probe e || is_sleep e) d = true
      /\ count is_sleep d <= n
      /\ match r with
         | Ok (Some true) => converged (fst x')
         | Ok (Some false) => state (status (fst x')) = FAILED
         | Ok None => count is_sleep d = n
         | Raise _ => True
         end.
Proof.
  induction n as [| n IH]; intros x r x' H; rewrite poll_loop_unfold in H;
    destruct (poll_pass x) as [rp xp] eqn:Ep;
    destruct (poll_pass_spec _ Ep) as ((_ & (d1 & T1 & F1) & _) & O1);
    pose proof (count_sleep_probes _ F1) as C1;
    assert (F1' : forallb (fun e : Event Endpoint => is_probe e || is_sleep e) d1
                  = true)
      by (rewrite forallb_forall in *; intros e He; now rewrite (F1 e He)).
  - destruct rp as [[b |] | e]; inversion H; subst; exists d1;
      (split; [exact T1 |]); (split; [exact F1' |]); (split; [lia |]);
      try exact O1; try exact C1; exact I.
  - destruct rp as [[b |] | e].
    + inversion H; subst; exists d1;
        (split; [exact T1 |]); (split; [exact F1' |]); (split; [lia |]);
        exact O1.
    + destruct (IH _ _ _ H) as (d2 & T2 & F2 & C2 & O2).
      exists (d1 ++ EvSleep :: d2)%list.
      split; [| split; [| split]].
      * rewrite T2. simpl. rewrite T1, <- !app_assoc. reflexivity.
      * rewrite forallb_app. simpl. now rewrite F1', F2.
      * rewrite count_app. unfold count in *. simpl. lia.
      * destruct r as [[[|] |] | e]; try exact O2; try exact I.
        rewrite count_app. unfold count in *. simpl. lia.
    + inversion H; subst; exists d1;
        (split; [exact T1 |]); (split; [exact F1' |]); (split; [lia |]);
        exact I.
Qed.

(** X6.  [poll_service_status(timeout)] sleeps at most [timeout] times (not at
    all when [timeout <= 0]) and besides only probes: it leaves the
    uuid, the admin state and the configuration of the service, and the
    store, as they were, whether it returns or raises. *)
Theorem poll_service_status_bounded timeout s g :
  let r := poll_service_status timeout (s, g) in
  probed s (fst (snd r))
  /\ store (snd (snd r)) = store g
  /\ exists d,
      trace (snd (snd r)) = (trace g ++ d)%list
      /\ forallb (fun e => is_probe e || is_sleep e) d = true
      /\ count is_sleep d <= Z.to_nat timeout.
Proof.
  simpl. destruct (poll_service_status timeout (s, g)) as [r [s' g']] eqn:E.
  simpl.
  destruct (operating_poll_service_status _ _ E) as (_ & _ & St).
  unfold poll_service_status, bind in E.
  destruct (poll_loop (Z.to_nat timeout) (s, g)) as [rl [sl gl]] eqn:El.
  assert (P : observing (fun e => is_probe e || is_sleep e) (s, g) (sl, gl))
    by exact (observing_poll_loop _ _ El).
  destruct (poll_loop_spec _ _ El) as (d & T & F & Cn & _).
  assert (Es : (sl, gl) = (s', g')).
  { destruct rl as [[b |] | e]; inversion E; reflexivity. }
  inversion Es; subst sl gl.
  split; [apply P |]. split; [exact St |].
  exists d. auto.
Qed.

(** X7.  Whatever the timeout, [poll_service_status] answers [True] only when
    the state it has last probed matches the admin state, which is then
    [RUNNING] or [INACTIVE]. *)
Theorem poll_service_status_true_means_converged timeout s g s' g' :
  poll_service_status timeout (s, g) = (Ok true, (s', g')) ->
  converged s'.
Proof.
  unfold poll_service_status, bind. intros E.
  destruct (poll_loop (Z.to_nat timeout) (s, g)) as [rl [sl gl]] eqn:El.
  destruct (poll_loop_spec _ _ El) as (d & _ & _ & _ & O).
  destruct rl as [[[|] |] | e]; inversion E; subst. exact O.
Qed.

(** X8.  [poll_service_status] answers [False] only for one of two reasons:
    it has just probed the service [FAILED], or it has slept the whole
    timeout without the states matching. *)
Theorem poll_service_status_false_means_failed_or_timed_out
    timeout s g s' g' :
  poll_service_status timeout (s, g) = (Ok false, (s', g')) ->
  state (status s') = FAILED
  \/ exists d,
      trace g' = (trace g ++ d)%list
      /\ count is_sleep d = Z.to_nat timeout.
Proof.
  unfold poll_service_status, bind. intros E.
  destruct (poll_loop (Z.to_nat timeout) (s, g)) as [rl [sl gl]] eqn:El.
  destruct (poll_loop_spec _ _ El) as (d & T & _ & _ & O).
  destruct rl as [[[|] |] | e]; inversion E; subst.
  - left. exact O.
  - right. exists d. auto.
Qed.

End PollingFacts.

(* ------------------------------------------------------------------ *)
(** * More properties of the deployer *)

Section MoreDeployerFacts.
Context {W S Endpoint : Type}.
Context {B : Backend W Endpoint} {C : StoreClient S Endpoint}.
Implicit Types (s : Service Endpoint) (g : Env W S Endpoint).

(** X9.  [_get_model_version_id_if_exists] never lets a [KeyError] out, and
    without a model name ([None] or empty) it answers [None] without
    asking the client. *)
Theorem model_version_lookup_absorbs_key_error mn mv g r g' :
  _get_model_version_id_if_exists mn mv g = (r, g') ->
  (forall e, r = Raise e -> is_KeyError e = false)
  /\ (truthy mn = false -> r = Ok None /\ g' = g)
  /\ (forall n e st,
         mn = Some n -> n <> "" ->
         get_model_version n mv (store g) = (Raise e, st) ->
         is_KeyError e = true -> r = Ok None).
Proof.
  unfold _get_model_version_id_if_exists. intros H.
  destruct mn as [n |].
  - destruct (String.eqb n "") eqn:En.
    + inversion H; subst. split; [intros; discriminate |].
      split; [auto |].
      intros n0 e st Hn Hne. inversion Hn; subst n0.
      apply String.eqb_eq in En. contradiction.
    + unfold client_get_model_version in H; simpl in H.
      assert (Ht : truthy (Some n) = false -> False)
        by (simpl; rewrite En; discriminate).
      destruct (get_model_version n mv (store g)) as [[id | e0] st0] eqn:Eg.
      * inversion H; subst. split; [intros; discriminate |].
        split; [intros K; destruct (Ht K) |].
        intros n0 e st Hn _ Hg. inversion Hn; subst n0. congruence.
      * destruct (is_KeyError e0) eqn:Ek; inversion H; subst.
        -- split; [intros; discriminate |].
           split; [intros K; destruct (Ht K) | reflexivity].
        -- split; [intros e He; inversion He; subst; exact Ek |].
           split; [intros K; destruct (Ht K) |].
           intros n0 e st Hn _ Hg Hk. inversion Hn; subst n0.
           rewrite Eg in Hg. inversion Hg; subst. congruence.
  - inversion H; subst. split; [intros; discriminate |].
    split; [auto | intros; discriminate].
Qed.

(** X10.  When [find_model_server] is given no [service_type], the [type] and
    the [flavor] it is given are dropped: the lookup is the one made
    without them. *)
Theorem find_model_server_drops_type_without_service_type (a : FindArgs) g :
  f_service_type a = None ->
  find_model_server a g = find_model_server (without_type_filters a) g.
Proof.
  intros H. unfold find_model_server.
  assert (E : forall mv, list_args_of a mv
                         = list_args_of (without_type_filters a) mv).
  { intros mv. unfold list_args_of, or_if_service_type; simpl.
    rewrite H. reflexivity. }
  simpl. unfold bind.
  destruct (_get_model_version_id_if_exists _ _ g) as [[mv | e] g0];
    [| reflexivity].
  now rewrite E.
Qed.

(** X11.  A lookup only looks up: besides resolving the model version and
    listing, it probes the services and writes probed statuses back; it
    never creates or deletes a record, never calls a [perform_*]
    operation, never provisions, never sleeps. *)
Theorem find_model_server_only_looks_up (a : FindArgs) g :
  exists d,
    trace (snd (find_model_server a g)) = (trace g ++ d)%list
    /\ forallb is_lookup d = true
    /\ count is_intervention d = 0.
Proof.
  destruct (find_model_server a g) as [r g'] eqn:E. simpl.
  destruct (looking_find_model_server _ _ E) as (d & T & F).
  exists d. split; [exact T |]. split; [exact F |].
  apply count_0_of_class with (p := is_lookup); [| exact F].
  intros [] K; simpl in *; congruence.
Qed.

(** X12.  A lookup is all or nothing: if one of the records the store lists
    cannot be revived, the lookup returns no service at all; and when it
    is the first record, the lookup raises the error of the revival
    before any probe. *)
Theorem find_model_server_all_or_nothing (a : FindArgs) g mv g0 items g1 r e :
  _get_model_version_id_if_exists (f_model_name a) (f_model_version a) g
  = (Ok mv, g0) ->
  client_list_services (list_args_of a mv) g0 = (Ok items, g1) ->
  In r items ->
  from_model r = Raise e ->
  (forall svcs g', find_model_server a g <> (Ok svcs, g'))
  /\ (forall rest, items = r :: rest ->
        find_model_server a g = (Raise e, g1)).
Proof.
  intros E0 E1 Hin Hr.
  unfold find_model_server, bind. rewrite E0, E1. split.
  - intros svcs g' H.
    destruct (find_loop_spec _ _ H) as (rev & d & F & _).
    clear H E1. revert rev F. induction items as [| x items IH];
      intros rev F; [destruct Hin |].
    destruct rev as [| s0 rev]; [discriminate |].
    apply cons_eq_inv in F as [F0 F1].
    destruct Hin as [-> | Hin]; [congruence |].
    eapply IH; eauto.
  - intros rest ->. simpl.
    unfold bind, revive_and_probe, bind, lift_result. rewrite Hr. reflexivity.
Qed.

(** X13.  When the lookup of [deploy_model] finds nothing, [replace] makes no
    difference, nothing is deleted, updated or started, and a call that
    returns has created one record, called [perform_deploy_model] with
    the id of that record, returned the service this has answered, and
    written the snapshot of that service to the store, in this order. *)
Theorem deploy_model_creates_when_nothing_found cfg ty replace timeout g g1 :
  find_model_server (find_by_identity cfg ty) g = (Ok [], g1) ->
  deploy_model cfg ty replace timeout g = deploy_model cfg ty false timeout g
  /\ forall svc g',
      deploy_model cfg ty replace timeout g = (Ok svc, g') ->
      exists mv g2 resp st3 w3,
        _get_model_version_id_if_exists
          (Some (model_name cfg)) (Some (model_version cfg)) g1 = (Ok mv, g2)
        /\ create_service cfg ty mv (store g2) = (Ok resp, st3)
        /\ perform_deploy_model (resp_id resp) cfg timeout (world g2)
           = (Ok svc, w3)
        /\ trace g'
           = (trace g2 ++ [EvCreateService cfg ty mv;
                           EvPerformDeploy (resp_id resp) cfg timeout;
                           EvUpdateService (snapshot_of svc)])%list.
Proof.
  intros H. split.
  - unfold deploy_model, bind. rewrite H. reflexivity.
  - intros svc g' D. unfold deploy_model, bind in D. rewrite H in D.
    cbv beta iota in D.
    destruct (_get_model_version_id_if_exists _ _ g1) as [[mv | e] g2];
      [| discriminate].
    unfold client_create_service in D; simpl in D.
    destruct (create_service cfg ty mv (store g2)) as [[resp | e] st3] eqn:Ec;
      [| discriminate].
    unfold call_perform_deploy_model in D; simpl in D.
    destruct (perform_deploy_model (resp_id resp) cfg timeout (world g2))
      as [[svc0 | e] w3] eqn:Ed; [| discriminate].
    unfold client_update_service in D; simpl in D.
    destruct (update_service (snapshot_of svc0) st3) as [[[] | e] st4];
      [| discriminate].
    inversion D; subst.
    exists mv, g2, resp, st3, w3.
    split; [reflexivity |]. split; [exact Ec |]. split; [exact Ed |]. simpl.
    rewrite <- !app_assoc. reflexivity.
Qed.

(** X14.  A deployment that fails leaves its record behind: when
    [perform_deploy_model] raises, [deploy_model] raises the same
    exception, and the store is as [create_service] left it; the record
    is neither completed nor removed. *)
Theorem deploy_model_leaves_record_when_deployment_fails
    cfg ty replace timeout g g1 mv g2 resp st3 e w3 :
  find_model_server (find_by_identity cfg ty) g = (Ok [], g1) ->
  _get_model_version_id_if_exists
    (Some (model_name cfg)) (Some (model_version cfg)) g1 = (Ok mv, g2) ->
  create_service cfg ty mv (store g2) = (Ok resp, st3) ->
  perform_deploy_model (resp_id resp) cfg timeout (world g2) = (Raise e, w3) ->
  deploy_model cfg ty replace timeout g
  = (Raise e,
     {| world := w3; store := st3;
        trace := (trace g2 ++ [EvCreateService cfg ty mv;
                               EvPerformDeploy (resp_id resp) cfg timeout])%list
     |}).
Proof.
  intros H Hr Hc Hd. unfold deploy_model, bind. rewrite H.
  cbv beta iota. rewrite Hr.
  unfold client_create_service; simpl. rewrite Hc.
  unfold call_perform_deploy_model; simpl. rewrite Hd.
  unfold set_world, set_store, record_event; simpl.
  rewrite <- app_assoc. reflexivity.
Qed.

(** X15.  Whatever fails inside [stop_model_server], [start_model_server] or
    [delete_model_server] (the lookup, the backend or the store), the
    caller gets a [RuntimeError] chained to the original exception, whose
    message names the operation and the uuid. *)
Theorem model_server_failures_are_wrapped u timeout force g e g' :
  stop_model_server u timeout force g = (Raise e, g')
  \/ start_model_server u timeout g = (Raise e, g')
  \/ delete_model_server u timeout force g = (Raise e, g') ->
  exists verb cause,
    e = wrap_failure verb u cause
    /\ exc_class e = RuntimeError
    /\ exc_cause e = Some cause
    /\ contains (str_uuid u) (str_exc e)
    /\ contains (str_exc cause) (str_exc e).
Proof.
  assert (K : forall verb cause,
             e = wrap_failure verb u cause ->
             exists verb cause,
               e = wrap_failure verb u cause
               /\ exc_class e = RuntimeError
               /\ exc_cause e = Some cause
               /\ contains (str_uuid u) (str_exc e)
               /\ contains (str_exc cause) (str_exc e)).
  { intros verb cause ->. exists verb, cause.
    split; [reflexivity |]. apply wrap_failure_names_uuid. }
  intros [H | [H | H]].
  - unfold stop_model_server, try_except in H.
    match type of H with
    | match ?m with _ => _ end = _ => destruct m as [[a | e0] g0]
    end; inversion H; subst. eapply K; reflexivity.
  - unfold start_model_server, try_except in H.
    match type of H with
    | match ?m with _ => _ end = _ => destruct m as [[a | e0] g0]
    end; inversion H; subst. eapply K; reflexivity.
  - unfold delete_model_server, try_except in H.
    match type of H with
    | match ?m with _ => _ end = _ => destruct m as [[a | e0] g0]
    end; inversion H; subst. eapply K; reflexivity.
Qed.

(** X16.  [stop_model_server] and [start_model_server] act on the first
    service of the lookup by uuid, hand the backend the timeout (and the
    force) they were given, and write back the status of the service the
    backend has answered, under the uuid of that service. *)
Theorem stop_and_start_write_back_what_the_backend_answers
    u timeout force g s rest g1 :
  find_model_server (find_by_uuid u) g = (Ok (s :: rest), g1) ->
  (forall s2 w2 st3,
      perform_stop_model s timeout force (world g1) = (Ok s2, w2) ->
      update_service (status_update_of s2) (store g1) = (Ok tt, st3) ->
      stop_model_server u timeout force g
      = (Ok tt,
         {| world := w2; store := st3;
            trace := (trace g1 ++ [EvPerformStop s timeout force;
                                   EvUpdateService (status_update_of s2)])%list
         |}))
  /\ (forall s2 w2 st3,
         perform_start_model s timeout (world g1) = (Ok s2, w2) ->
         update_service (status_update_of s2) (store g1) = (Ok tt, st3) ->
         start_model_server u timeout g
         = (Ok tt,
            {| world := w2; store := st3;
               trace := (trace g1 ++ [EvPerformStart s timeout;
                                      EvUpdateService (status_update_of s2)])%list
            |})).
Proof.
  intros H. split; intros s2 w2 st3 Hp Hu.
  - unfold stop_model_server, try_except, bind. rewrite H. simpl.
    unfold call_perform_stop_model; simpl. rewrite Hp.
    unfold client_update_service; simpl. rewrite Hu.
    unfold set_world, set_store, record_event; simpl.
    rewrite <- app_assoc. reflexivity.
  - unfold start_model_server, try_except, bind. rewrite H. simpl.
    unfold call_perform_start_model; simpl. rewrite Hp.
    unfold client_update_service; simpl. rewrite Hu.
    unfold set_world, set_store, record_event; simpl.
    rewrite <- app_assoc. reflexivity.
Qed.

(** X17.  When the backend fails to delete the model server,
    [delete_model_server] does not touch the store: [delete_service] is
    not called and the record stays. *)
Theorem delete_model_server_keeps_record_when_backend_fails
    u timeout force g s rest g1 e s1 w1 :
  find_model_server (find_by_uuid u) g = (Ok (s :: rest), g1) ->
  perform_delete_model s timeout force (world g1) = (Raise e, s1, w1) ->
  delete_model_server u timeout force g
  = (Raise (wrap_failure "delete" u e),
     {| world := w1; store := store g1;
        trace := (trace g1 ++ [EvPerformDelete s timeout force])%list |}).
Proof.
  intros H Hp. unfold delete_model_server, try_except, bind. rewrite H.
  simpl. unfold call_perform_delete_model; simpl. rewrite Hp. reflexivity.
Qed.

(** X18.  For a uuid the store lists no record for, [get_model_server_logs]
    raises a [RuntimeError] that names the uuid and, unlike the failures
    of stop, start and delete, has no cause; it asks the store once and
    never asks a service for its logs. *)
Theorem get_model_server_logs_unknown_uuid {Logs : Type}
    (get_logs : Service Endpoint -> bool -> option Z -> Logs)
    u follow tail g st' :
  list_services (list_args_of (find_by_uuid u) None) (store g) = (Ok [], st') ->
  get_model_server_logs get_logs u follow tail g
  = (Raise (no_model_server u),
     {| world := world g; store := st';
        trace := (trace g
                  ++ [EvListServices (list_args_of (find_by_uuid u) None)])%list
     |})
  /\ exc_class (no_model_server u) = RuntimeError
  /\ exc_cause (no_model_server u) = None
  /\ contains (str_uuid u) (str_exc (no_model_server u)).
Proof.
  intros H. unfold get_model_server_logs, bind.
  rewrite (find_by_uuid_nothing _ _ H). simpl.
  repeat split. exists "No model server found with UUID ", "".
  now rewrite append_empty_r.
Qed.

End MoreDeployerFacts.

(** ** Callers of the lookup *)

Section CallerFacts.
Context {W S Endpoint : Type}.
Context {B : Backend W Endpoint} {C : StoreClient S Endpoint}.
Implicit Types (s : Service Endpoint) (g : Env W S Endpoint).

Lemma is_running_observing s g r s' g' :
  is_running (s, g) = (r, (s', g')) ->
  probed s s' /\ store g' = store g
  /\ exists d, trace g' = (trace g ++ d)%list /\ forallb is_probe d = true.
Proof.
  intros H.
  assert (P : preserved (observing is_probe) (is_running (S := S)))
    by (apply observing_is_running; auto).
  destruct (P _ _ _ H) as (Hp & T & St). auto.
Qed.

(** X19.  [get_step_run_metadata] reports a deployed model URL only for a
    service that is a deployment service and that [is_running] has just
    found running: the first service of the lookup by run name; the URL
    is the [prediction_url] of that service. *)
Theorem step_run_metadata_only_for_running_service run g url g' :
  get_step_run_metadata run g = (Ok (Some url), g') ->
  exists s rest g1 s',
    find_model_server (find_by_run run) g = (Ok (s :: rest), g1)
    /\ is_deployment_service s = true
    /\ is_running (s, g1) = (Ok true, (s', g'))
    /\ state (status s') = RUNNING
    /\ url = prediction_url s'.
Proof.
  unfold get_step_run_metadata, bind. intros H.
  destruct (find_model_server (find_by_run run) g) as [[l | e] g1];
    [| discriminate].
  destruct l as [| s rest]; [discriminate |].
  destruct (is_deployment_service s) eqn:Ed; [| discriminate].
  unfold on_service in H.
  destruct (is_running (s, g1)) as [[[|] | e] [s1 g2]] eqn:Er;
    simpl in H; try discriminate.
  inversion H; subst.
  exists s, rest, g1, s1. split; [reflexivity |].
  split; [exact Ed |]. split; [exact Er |].
  split; [| reflexivity]. eapply is_running_true; eassumption.
Qed.

Lemma no_deployment_in_probes (d : list (Event Endpoint)) :
  forallb is_probe d = true ->
  count is_perform_delete d = 0 /\ count is_perform_deploy d = 0
  /\ count is_update d = 0 /\ count is_start d = 0
  /\ count is_update_service d = 0.
Proof.
  intros F.
  repeat split;
    (apply count_0_of_class with (p := is_probe); [| exact F];
     intros [] K; simpl in *; congruence).
Qed.

Lemma no_deployment_in_lifecycle (d : list (Event Endpoint)) :
  forallb is_lifecycle d = true ->
  count is_perform_delete d = 0 /\ count is_perform_deploy d = 0
  /\ count is_update d = 0 /\ count is_start d = 0
  /\ count is_update_service d = 0.
Proof.
  intros F.
  repeat split;
    (apply count_0_of_class with (p := is_lifecycle); [| exact F];
     intros [] K; simpl in *; congruence).
Qed.

(** X20.  With [deploy_decision=False] and a service already deployed, the
    BentoML deployer step deploys nothing: it does not call
    [perform_delete_model] or [perform_deploy_model], does not apply the
    new configuration and does not write to the store; it starts the
    existing service, once, exactly when [is_running] answers [False],
    and returns that same service (a service it does not start is
    running). *)
Theorem bentoml_step_reuses_existing_service
    pipeline run step model ty cfg timeout g s rest g1 :
  find_model_server (find_for_step pipeline run step model ty) g
  = (Ok (s :: rest), g1) ->
  exists res g' d,
    bentoml_model_deployer_step pipeline run step model ty (Ok cfg) false
      timeout g = (res, g')
    /\ trace g' = (trace g1 ++ d)%list
    /\ store g' = store g1
    /\ count is_perform_delete d = 0
    /\ count is_perform_deploy d = 0
    /\ count is_update d = 0
    /\ count is_update_service d = 0
    /\ count is_start d
       = match fst (is_running (s, g1)) with Ok false => 1 | _ => 0 end
    /\ (forall s', res = Ok s' ->
          (keeps_uuid B -> uuid s' = uuid s)
          /\ (count is_start d = 0 -> state (status s') = RUNNING)).
Proof.
  intros H. unfold bentoml_model_deployer_step, bind. rewrite H.
  unfold lift_result. simpl. unfold on_service at 1.
  destruct (is_running (s, g1)) as [[[|] | e] [s1 g2]] eqn:Er.
  - destruct (is_running_observing _ _ Er) as ((Hu & _) & St & d & T & F).
    destruct (no_deployment_in_probes _ F) as (C1 & C2 & C3 & C4 & C5).
    simpl. do 2 eexists. exists d. split; [reflexivity |].
    repeat (split; [cbn [fst]; (assumption || lia) |]).
    intros s' Hs. inversion Hs; subst s'. split; [intros _; exact Hu |].
    intros _. eapply is_running_true; eassumption.
  - destruct (is_running_observing _ _ Er) as ((Hu & _) & St & d & T & F).
    destruct (no_deployment_in_probes _ F) as (C1 & C2 & C3 & C4 & C5).
    simpl. unfold on_service.
    destruct (start timeout (s1, g2)) as [rs [s3 g3]] eqn:Es.
    destruct (start_trace _ _ _ Es) as (U & St2 & dl & T2 & F2).
    destruct (no_deployment_in_lifecycle _ F2) as (L1 & L2 & L3 & L4 & L5).
    assert (Hc : forall q : Event Endpoint -> bool,
               q (EvStart s1 timeout) = false ->
               count q d = 0 -> count q dl = 0 ->
               count q (d ++ EvStart s1 timeout :: dl)%list = 0).
    { intros q Hq Hd Hl. rewrite count_app. unfold count in *. simpl.
      rewrite Hq. lia. }
    assert (Hs1 : count is_start (d ++ EvStart s1 timeout :: dl)%list = 1).
    { rewrite count_app. unfold count in *. simpl. lia. }
    destruct rs as [[] | e]; simpl; do 2 eexists;
      exists (d ++ EvStart s1 timeout :: dl)%list;
      (split; [reflexivity |]);
      (split; [rewrite T2, T, <- app_assoc; reflexivity |]);
      (split; [congruence |]);
      (split; [apply Hc; auto |]);
      (split; [apply Hc; auto |]);
      (split; [apply Hc; auto |]);
      (split; [apply Hc; auto |]);
      (split; [cbn [fst]; exact Hs1 |]);
      intros s' Hs; inversion Hs; subst s'.
    split; [intros K; rewrite (U K); exact Hu | intros K; lia].
  - destruct (is_running_observing _ _ Er) as ((Hu & _) & St & d & T & F).
    destruct (no_deployment_in_probes _ F) as (C1 & C2 & C3 & C4 & C5).
    simpl. do 2 eexists. exists d. split; [reflexivity |].
    repeat (split; [cbn [fst]; (assumption || lia) |]).
    intros s' Hs. discriminate.
Qed.

(** X21.  With nothing deployed yet, [deploy_decision] is ignored: the BentoML
    deployer step deploys the model, by [deploy_model] with
    [replace=True], even when the decision is not to deploy; and when
    building the configuration fails the step raises after its lookup. *)
Theorem bentoml_step_deploys_when_nothing_exists
    pipeline run step model ty predictor_cfg deploy_decision timeout g g1 :
  find_model_server (find_for_step pipeline run step model ty) g
  = (Ok [], g1) ->
  bentoml_model_deployer_step pipeline run step model ty predictor_cfg
    deploy_decision timeout g
  = match predictor_cfg with
    | Ok cfg => deploy_model cfg ty true timeout g1
    | Raise e => (Raise e, g1)
    end.
Proof.
  intros H. unfold bentoml_model_deployer_step, bind. rewrite H.
  unfold lift_result. destruct predictor_cfg; reflexivity.
Qed.

End CallerFacts.

(** ** The store of record, again *)

Section MoreStoreFacts.
Context {W Endpoint : Type} {B : Backend W Endpoint}.
Implicit Types (g : Env W (StoreState Endpoint) Endpoint).

Lemma update_keeps_ids (u : ServiceUpdate Endpoint) (st : StoreState Endpoint) :
  map (@resp_id Endpoint) (records (snd (store_update_service u st)))
  = map (@resp_id Endpoint) (records st).
Proof.
  unfold store_update_service. destruct (has_id _ _); simpl; [| reflexivity].
  rewrite map_map. apply map_ext. intros r. apply apply_update_id.
Qed.

(** X22.  Stopping and starting are reversible in the store: whether they
    return or raise, [stop_model_server] and [start_model_server] leave
    the store with the same records (by id, in the same order); no
    record is added or removed. *)
Theorem stop_and_start_keep_the_records u timeout force g :
  map (@resp_id Endpoint)
    (records (store (snd (stop_model_server u timeout force g))))
  = map (@resp_id Endpoint) (records (store g))
  /\ map (@resp_id Endpoint)
       (records (store (snd (start_model_server u timeout g))))
     = map (@resp_id Endpoint) (records (store g)).
Proof.
  set (I := fun st : StoreState Endpoint =>
              map (@resp_id Endpoint) (records st)
              = map (@resp_id Endpoint) (records (store g))).
  assert (I_list : forall a st, I st -> I (snd (list_services a st)))
    by (intros; assumption).
  assert (I_update : forall u0 st, I st -> I (snd (update_service u0 st))).
  { unfold I. intros u0 st H. simpl. now rewrite update_keeps_ids. }
  assert (I_resolve : forall n v st, I st -> I (snd (get_model_version n v st))).
  { unfold I. intros n v st H. simpl. unfold store_get_model_version.
    destruct (lookup_model_version _ _ _); exact H. }
  split.
  - destruct (stop_model_server u timeout force g) as [r g'] eqn:E. simpl.
    eapply (keeping_stop_model_server I); eauto. reflexivity.
  - destruct (start_model_server u timeout g) as [r g'] eqn:E. simpl.
    eapply (keeping_start_model_server I); eauto. reflexivity.
Qed.

Lemma nothing_found_means_nothing_listed a g g1 :
  find_model_server a g = (Ok [], g1) ->
  listing_of a (store g) = [] /\ store g1 = store g.
Proof.
  intros H. rewrite find_model_server_unfold in H.
  destruct (find_loop_spec _ _ H) as (rev & d & F & P & _).
  inversion P; subst. simpl in F. apply map_eq_nil in F.
  split; [exact F |].
  rewrite F in H. simpl in H. inversion H; subst; simpl.
  apply (resolve_spec (f_model_name a) (f_model_version a) g).
Qed.

(** The record a deployment creates is listed for the identity of that
    deployment, alone when nothing was listed before. *)
Lemma listing_after_create_only cfg ty (st : StoreState Endpoint) :
  listing_of (find_by_identity cfg ty) st = [] ->
  let mv := resolved (Some (model_name cfg)) (Some (model_version cfg)) st in
  listing_of (find_by_identity cfg ty)
    (snd (store_create_service cfg ty mv st))
  = [new_record cfg ty mv st].
Proof.
  intros Hl mv. unfold listing_of in *. unfold resolved in *. simpl in *.
  fold mv in Hl. fold mv. unfold select in *; simpl in *.
  apply newest_first_nil in Hl. rewrite Hl.
  assert (Em : matches (list_args_of (find_by_identity cfg ty) mv)
                 (new_record cfg ty mv st) = true).
  { unfold matches; simpl. rewrite !String.eqb_refl.
    destruct mv as [v |]; [rewrite N.eqb_refl |]; reflexivity. }
  rewrite Em. reflexivity.
Qed.

(** X23.  Over the store modelled from the spec, a deployment that fails after
    its record was created blocks the next ones: when the lookup of
    [deploy_model] found nothing and the call raised, every later
    [deploy_model] for the same configuration raises the [ValueError] of
    [from_model] on the record that was left without a source. *)
Theorem failed_deployment_blocks_the_next
    cfg ty replace timeout g g1 e g' replace' timeout' :
  find_model_server (find_by_identity cfg ty) g = (Ok [], g1) ->
  deploy_model cfg ty replace timeout g = (Raise e, g') ->
  fst (deploy_model cfg ty replace' timeout' g')
  = Raise (Exc ValueError "Service source not found in the model.").
Proof.
  intros Hf Hd.
  destruct (nothing_found_means_nothing_listed _ _ Hf) as [Hl Hs].
  set (mv := resolved (Some (model_name cfg)) (Some (model_version cfg))
               (store g)).
  assert (Est : store g' = snd (store_create_service cfg ty mv (store g))).
  { unfold deploy_model, bind in Hd. rewrite Hf in Hd. cbv beta iota in Hd.
    pose proof (resolve_spec (Some (model_name cfg))
                  (Some (model_version cfg)) g1) as [Er Es].
    destruct (_get_model_version_id_if_exists (Some (model_name cfg))
                (Some (model_version cfg)) g1) as [rm gm].
    simpl in Er, Es. inversion Er; subst rm; clear Er.
    unfold client_create_service in Hd; simpl in Hd.
    unfold call_perform_deploy_model in Hd; simpl in Hd.
    rewrite Es, Hs in Hd. fold mv in Hd.
    destruct (perform_deploy_model (next_id (store g)) cfg timeout _)
      as [[svc | e0] w].
    - unfold client_update_service in Hd; simpl in Hd.
      unfold store_update_service in Hd.
      destruct (has_id _ _); simpl in Hd; inversion Hd; subst; reflexivity.
    - inversion Hd; subst; reflexivity. }
  pose proof (listing_after_create_only cfg ty (store g) Hl) as Hn.
  cbv zeta in Hn. fold mv in Hn. rewrite <- Est in Hn.
  unfold deploy_model, bind.
  rewrite find_model_server_unfold, Hn. simpl.
  unfold bind, revive_and_probe, bind, lift_result. simpl. reflexivity.
Qed.

End MoreStoreFacts.

(** ** These properties at work on the scripted backend *)

Lemma update_status_probes_endpoint_unless_inactive_witness :
  check_status guarded_service (world idle_env) = (Ok (INACTIVE, ""), quiet_world [])
  /\ exists s' g' d,
      update_status (guarded_service, idle_env) = (Ok tt, (s', g'))
      /\ trace g' = (trace idle_env ++ EvCheckStatus guarded_service :: d)%list
      /\ count is_endpoint_update_status d = 0
      /\ (INACTIVE = INACTIVE ->
          s' = set_status guarded_service
                 {| state := INACTIVE; last_error := "" |}).
Proof.
  split; [reflexivity |].
  apply (@update_status_probes_endpoint_unless_inactive _ _ _ FakeBackend
           guarded_service idle_env INACTIVE "" (quiet_world [])).
  reflexivity.
Defined.

Lemma update_status_absorbs_endpoint_failure_witness :
  exists s' g',
    @update_status _ (StoreState FakeEndpoint) _ BrokenBackend
      (guarded_service, healthy_env) = (Ok tt, (s', g'))
    /\ status s' = {| state := FAILED; last_error := "connection refused" |}
    /\ endpoint s' = Some true.
Proof.
  apply (@update_status_absorbs_endpoint_failure _ _ _ BrokenBackend
           guarded_service healthy_env RUNNING "" (quiet_world []) true
           connection_refused true (quiet_world []));
    [reflexivity | discriminate | reflexivity | reflexivity].
Defined.

Lemma is_running_false_without_asking_endpoint_witness :
  is_running (guarded_service, idle_env)
  = (Ok false, snd (is_running (guarded_service, idle_env)))
  /\ exists d,
      trace (snd (snd (is_running (guarded_service, idle_env))))
      = (trace idle_env ++ d)%list
      /\ count is_endpoint_is_active d = 0.
Proof.
  split; [vm_compute; reflexivity |].
  apply (@is_running_false_without_asking_endpoint _ _ _ FakeBackend
           guarded_service idle_env (Ok false)
           (fst (snd (is_running (guarded_service, idle_env))))
           (snd (snd (is_running (guarded_service, idle_env))))).
  - vm_compute. reflexivity.
  - vm_compute. discriminate.
Defined.

Lemma poll_service_status_true_means_converged_witness :
  poll_service_status 3 (wanted_running, healthy_env)
  = (Ok true, snd (poll_service_status 3 (wanted_running, healthy_env)))
  /\ converged (fst (snd (poll_service_status 3 (wanted_running, healthy_env)))).
Proof.
  split; [vm_compute; reflexivity |].
  apply (@poll_service_status_true_means_converged _ _ _ FakeBackend 3%Z
           wanted_running healthy_env
           (fst (snd (poll_service_status 3 (wanted_running, healthy_env))))
           (snd (snd (poll_service_status 3 (wanted_running, healthy_env))))).
  vm_compute. reflexivity.
Defined.

Lemma poll_service_status_false_means_failed_or_timed_out_witness :
  poll_service_status 3 (wanted_running, idle_env)
  = (Ok false, snd (poll_service_status 3 (wanted_running, idle_env)))
  /\ (state (status (fst (snd (poll_service_status 3
                                 (wanted_running, idle_env))))) = FAILED
      \/ exists d,
          trace (snd (snd (poll_service_status 3 (wanted_running, idle_env))))
          = (trace idle_env ++ d)%list
          /\ count is_sleep d = Z.to_nat 3).
Proof.
  split; [vm_compute; reflexivity |].
  apply (@poll_service_status_false_means_failed_or_timed_out _ _ _ FakeBackend
           3%Z wanted_running idle_env
           (fst (snd (poll_service_status 3 (wanted_running, idle_env))))
           (snd (snd (poll_service_status 3 (wanted_running, idle_env))))).
  vm_compute. reflexivity.
Defined.

Lemma model_version_lookup_absorbs_key_error_witness :
  _get_model_version_id_if_exists (Some "iris-clf") (Some "1") idle_env
  = (Ok None,
     snd (_get_model_version_id_if_exists (Some "iris-clf") (Some "1") idle_env))
  /\ forall e, @Ok (option UUID) None = Raise e -> is_KeyError e = false.
Proof.
  split; [vm_compute; reflexivity |].
  apply (@model_version_lookup_absorbs_key_error _ _ _
           (SimpleStore FakeEndpoint) (Some "iris-clf") (Some "1") idle_env
           (Ok None)
           (snd (_get_model_version_id_if_exists (Some "iris-clf") (Some "1")
                   idle_env))).
  vm_compute. reflexivity.
Defined.

Lemma find_model_server_drops_type_without_service_type_witness :
  f_service_type (lookup_by_type "kserve") = None
  /\ find_model_server (lookup_by_type "kserve") deployed_env
     = find_model_server (without_type_filters (lookup_by_type "kserve"))
         deployed_env.
Proof.
  split; [reflexivity |].
  apply (@find_model_server_drops_type_without_service_type _ _ _ FakeBackend
           (SimpleStore FakeEndpoint) (lookup_by_type "kserve") deployed_env).
  reflexivity.
Defined.

Lemma find_model_server_all_or_nothing_witness :
  (forall svcs g',
      find_model_server (find_by_identity iris_config fake_type) orphan_env
      <> (Ok svcs, g'))
  /\ (forall rest,
         [new_record iris_config fake_type None empty_store]
         = new_record iris_config fake_type None empty_store :: rest ->
         find_model_server (find_by_identity iris_config fake_type) orphan_env
         = (Raise (Exc ValueError "Service source not found in the model."),
            snd (client_list_services
                   (list_args_of (find_by_identity iris_config fake_type) None)
                   (snd (_get_model_version_id_if_exists
                           (Some "iris-clf") (Some "1") orphan_env))))).
Proof.
  apply (@find_model_server_all_or_nothing _ _ _ FakeBackend
           (SimpleStore FakeEndpoint)
           (find_by_identity iris_config fake_type) orphan_env None
           (snd (_get_model_version_id_if_exists
                   (Some "iris-clf") (Some "1") orphan_env))
           [new_record iris_config fake_type None empty_store]
           (snd (client_list_services
                   (list_args_of (find_by_identity iris_config fake_type) None)
                   (snd (_get_model_version_id_if_exists
                           (Some "iris-clf") (Some "1") orphan_env))))
           (new_record iris_config fake_type None empty_store)
           (Exc ValueError "Service source not found in the model."));
    [vm_compute; reflexivity | vm_compute; reflexivity | now left
    | reflexivity].
Defined.

Lemma deploy_model_creates_when_nothing_found_witness :
  find_model_server (find_by_identity iris_config fake_type) idle_env
  = (Ok [], snd (find_model_server (find_by_identity iris_config fake_type)
                   idle_env))
  /\ deploy_model iris_config fake_type true 0 idle_env
     = deploy_model iris_config fake_type false 0 idle_env.
Proof.
  assert (H : find_model_server (find_by_identity iris_config fake_type) idle_env
              = (Ok [], snd (find_model_server
                               (find_by_identity iris_config fake_type)
                               idle_env)))
    by (vm_compute; reflexivity).
  split; [exact H |].
  exact (proj1 (@deploy_model_creates_when_nothing_found _ _ _ FakeBackend
                  (SimpleStore FakeEndpoint) iris_config fake_type true 0%Z
                  idle_env _ H)).
Defined.

Lemma deploy_model_leaves_record_when_deployment_fails_witness :
  fst (@deploy_model _ _ _ BrokenBackend (SimpleStore FakeEndpoint)
         iris_config fake_type false 0 idle_env) = Raise no_capacity
  /\ store (snd (@deploy_model _ _ _ BrokenBackend (SimpleStore FakeEndpoint)
                   iris_config fake_type false 0 idle_env))
     = store orphan_env.
Proof.
  pose (g1 := snd (@find_model_server _ _ _ BrokenBackend
                     (SimpleStore FakeEndpoint)
                     (find_by_identity iris_config fake_type) idle_env)).
  pose (g2 := snd (_get_model_version_id_if_exists
                     (Some "iris-clf") (Some "1") g1)).
  rewrite (@deploy_model_leaves_record_when_deployment_fails _ _ _
             BrokenBackend (SimpleStore FakeEndpoint) iris_config fake_type
             false 0%Z idle_env g1 None g2
             (new_record iris_config fake_type None empty_store)
             (store orphan_env) no_capacity (quiet_world []));
    [split; reflexivity | vm_compute; reflexivity | vm_compute; reflexivity
    | vm_compute; reflexivity | vm_compute; reflexivity].
Defined.

Lemma model_server_failures_are_wrapped_witness :
  exists verb cause,
    wrap_failure "stop" 7%N index_error = wrap_failure verb 7%N cause
    /\ exc_class (wrap_failure "stop" 7%N index_error) = RuntimeError
    /\ exc_cause (wrap_failure "stop" 7%N index_error) = Some cause
    /\ contains (str_uuid 7%N) (str_exc (wrap_failure "stop" 7%N index_error))
    /\ contains (str_exc cause) (str_exc (wrap_failure "stop" 7%N index_error)).
Proof.
  apply (@model_server_failures_are_wrapped _ _ _ FakeBackend
           (SimpleStore FakeEndpoint) 7%N 0%Z false idle_env
           (wrap_failure "stop" 7%N index_error)
           (snd (stop_model_server 7%N 0 false idle_env))).
  left. vm_compute. reflexivity.
Defined.

Lemma stop_and_start_write_back_what_the_backend_answers_witness :
  fst (stop_model_server 1%N 30 false deployed_env) = Ok tt
  /\ map (fun r => resp_status r)
       (records (store (snd (stop_model_server 1%N 30 false deployed_env))))
     = [Some {| state := INACTIVE; last_error := "" |}].
Proof.
  pose (g1 := snd (find_model_server (find_by_uuid 1%N) deployed_env)).
  pose (s2 := set_status (set_admin_state found_service INACTIVE)
                {| state := INACTIVE; last_error := "" |}).
  assert (H : find_model_server (find_by_uuid 1%N) deployed_env
              = (Ok [found_service], g1)) by (vm_compute; reflexivity).
  assert (Hp : perform_stop_model found_service 30 false (world g1)
               = (Ok s2, world g1)) by (vm_compute; reflexivity).
  assert (Hu : update_service (status_update_of s2) (store g1)
               = (Ok tt, snd (store_update_service (status_update_of s2)
                                (store g1))))
    by (vm_compute; reflexivity).
  rewrite (proj1 (@stop_and_start_write_back_what_the_backend_answers _ _ _
                    FakeBackend (SimpleStore FakeEndpoint) 1%N 30%Z false
                    deployed_env found_service [] g1 H) s2 (world g1) _ Hp Hu).
  split; vm_compute; reflexivity.
Defined.

Lemma delete_model_server_keeps_record_when_backend_fails_witness :
  fst (delete_model_server 1%N 0 false undeletable_env)
  = Raise (wrap_failure "delete" 1%N no_capacity)
  /\ records (store (snd (delete_model_server 1%N 0 false undeletable_env)))
     = records (store (snd (find_model_server (find_by_uuid 1%N)
                              undeletable_env))).
Proof.
  pose (g1 := snd (find_model_server (find_by_uuid 1%N) undeletable_env)).
  rewrite (@delete_model_server_keeps_record_when_backend_fails _ _ _
             FakeBackend (SimpleStore FakeEndpoint) 1%N 0%Z false
             undeletable_env found_service [] g1 no_capacity found_service
             (world g1));
    [split; reflexivity | vm_compute; reflexivity | vm_compute; reflexivity].
Defined.

Lemma get_model_server_logs_unknown_uuid_witness :
  fst (get_model_server_logs (fun _ _ _ => tt) 7%N false None idle_env)
  = Raise (no_model_server 7%N)
  /\ exc_cause (no_model_server 7%N) = None.
Proof.
  assert (H : list_services (list_args_of (find_by_uuid 7%N) None)
                (store idle_env) = (Ok [], empty_store))
    by (vm_compute; reflexivity).
  destruct (@get_model_server_logs_unknown_uuid _ _ _ FakeBackend
              (SimpleStore FakeEndpoint) unit (fun _ _ _ => tt) 7%N false None
              idle_env empty_store H)
    as (E & _ & K & _).
  rewrite E. split; [reflexivity | exact K].
Defined.

Lemma step_run_metadata_only_for_running_service_witness :
  get_step_run_metadata "run-1" serving_env
  = (Ok (Some None), snd (get_step_run_metadata "run-1" serving_env))
  /\ exists s rest g1 s',
      find_model_server (find_by_run "run-1") serving_env = (Ok (s :: rest), g1)
      /\ is_deployment_service s = true
      /\ is_running (s, g1)
         = (Ok true, (s', snd (get_step_run_metadata "run-1" serving_env)))
      /\ state (status s') = RUNNING
      /\ None = prediction_url s'.
Proof.
  assert (H : get_step_run_metadata "run-1" serving_env
              = (Ok (Some None),
                 snd (get_step_run_metadata "run-1" serving_env)))
    by (vm_compute; reflexivity).
  split; [exact H |].
  exact (@step_run_metadata_only_for_running_service _ _ _ FakeBackend
           (SimpleStore FakeEndpoint) "run-1" serving_env None _ H).
Defined.

Lemma bentoml_step_reuses_existing_service_witness :
  exists res g' d,
    bentoml_model_deployer_step "train" "run-1" "deployer" "iris-clf" fake_type
      (Ok iris_config) false 0 deployed_env = (res, g')
    /\ trace g'
       = (trace (snd (find_model_server
                        (find_for_step "train" "run-1" "deployer" "iris-clf"
                           fake_type) deployed_env)) ++ d)%list
    /\ count is_perform_deploy d = 0
    /\ count is_start d = 1.
Proof.
  pose (g1 := snd (find_model_server
                     (find_for_step "train" "run-1" "deployer" "iris-clf"
                        fake_type) deployed_env)).
  assert (H : find_model_server
                (find_for_step "train" "run-1" "deployer" "iris-clf" fake_type)
                deployed_env
              = (Ok [found_service], g1))
    by (vm_compute; reflexivity).
  assert (Hr : fst (is_running (found_service, g1)) = Ok false)
    by (vm_compute; reflexivity).
  destruct (@bentoml_step_reuses_existing_service _ _ _ FakeBackend
              (SimpleStore FakeEndpoint) "train" "run-1" "deployer" "iris-clf"
              fake_type iris_config 0%Z deployed_env found_service [] g1 H)
    as (res & g' & d & E & T & _ & _ & Cd & _ & _ & Cs & _).
  rewrite Hr in Cs.
  exists res, g', d. auto.
Defined.

Lemma bentoml_step_deploys_when_nothing_exists_witness :
  bentoml_model_deployer_step "train" "run-1" "deployer" "iris-clf" fake_type
    (Ok iris_config) false 0 idle_env
  = deploy_model iris_config fake_type true 0
      (snd (find_model_server
              (find_for_step "train" "run-1" "deployer" "iris-clf" fake_type)
              idle_env)).
Proof.
  apply (@bentoml_step_deploys_when_nothing_exists _ _ _ FakeBackend
           (SimpleStore FakeEndpoint) "train" "run-1" "deployer" "iris-clf"
           fake_type (Ok iris_config) false 0%Z idle_env
           (snd (find_model_server
                   (find_for_step "train" "run-1" "deployer" "iris-clf"
                      fake_type) idle_env))).
  vm_compute. reflexivity.
Defined.

Lemma failed_deployment_blocks_the_next_witness :
  fst (@deploy_model _ _ _ BrokenBackend (SimpleStore FakeEndpoint)
         iris_config fake_type true 0
         (snd (@deploy_model _ _ _ BrokenBackend (SimpleStore FakeEndpoint)
                 iris_config fake_type false 0 idle_env)))
  = Raise (Exc ValueError "Service source not found in the model.").
Proof.
  apply (@failed_deployment_blocks_the_next _ _ BrokenBackend iris_config
           fake_type false 0%Z idle_env
           (snd (@find_model_server _ _ _ BrokenBackend
                   (SimpleStore FakeEndpoint)
                   (find_by_identity iris_config fake_type) idle_env))
           no_capacity
           (snd (@deploy_model _ _ _ BrokenBackend (SimpleStore FakeEndpoint)
                   iris_config fake_type false 0 idle_env))
           true 0%Z);
    vm_compute; reflexivity.
Defined.

Lemma stop_without_timeout_deprovisions_once_witness :
  admin_state wanted_running = RUNNING
  /\ stop 0 true (wanted_running, idle_env)
     = (Ok tt,
        (set_status (stopping wanted_running)
           {| state := INACTIVE; last_error := "" |},
         {| world := world idle_env; store := store idle_env;
            trace := [EvStop wanted_running 0 true;
                      EvDeprovision (stopping wanted_running) true] |}))
  /\ admin_state (fst (snd (stop 0 true (wanted_running, idle_env))))
     = INACTIVE.
Proof.
  pose proof (@stop_without_timeout_deprovisions_once _
                (StoreState FakeEndpoint) _ FakeBackend wanted_running
                idle_env true) as T.
  cbv zeta in T. destruct T as (_ & E & _ & K).
  split; [reflexivity |].
  split; [exact E | apply K; reflexivity].
Defined.
